(** * snaptap: the job table, the runner and the cleaner

    A shallow embedding of [app.py] and [helper.py] ([main.py] is an
    earlier copy of [helper.py] without the cookie file).  Python
    dictionaries with a fixed set of keys become records, the job table
    [_jobs] is an insertion-ordered association list, and functions that
    read or write the table, the clock or the file system live in a small
    monad with state and exceptions.  What the code does under
    [with _jobs_lock] is one step of a computation; the one read that the
    code makes outside the lock, in [api_status], is modelled with the
    other threads' critical sections between its statements. *)

From Stdlib Require Import ZArith QArith Qround Lqa String Ascii List Sorted Permutation Lia.
From stdpp Require Import prelude strings sorting.

Local Open Scope Z_scope.

(** ** Python values used by the code *)

(** Exception classes that the code raises or catches.  Every class here is
    a subclass of [Exception], so [except Exception] catches all of them. *)
Inductive exn_class :=
| ValueError
| IndexError
| OSError
| HTTPException (status_code : Z)
| OtherError.

(** An exception with [str(exc)]. *)
Record exn := Exn { exn_cls : exn_class; exn_msg : string }.

Inductive result (A : Type) :=
| Ok (a : A)
| Raise (e : exn).
Arguments Ok {A} a.
Arguments Raise {A} e.

Definition is_OSError (e : exn) : bool :=
  match exn_cls e with OSError => true | _ => false end.

(** [except Exception]. *)
Definition is_Exception (e : exn) : bool := true.

(** [needle in hay] on [str]. *)
Fixpoint str_in (needle hay : string) : bool :=
  String.prefix needle hay ||
  match hay with
  | EmptyString => false
  | String _ hay' => str_in needle hay'
  end.

(** [s.split("/")]. *)
Fixpoint split_slash (cur : string) (s : string) : list string :=
  match s with
  | EmptyString => [String.rev cur]
  | String c s' =>
      if Ascii.eqb c "/"%char then String.rev cur :: split_slash EmptyString s'
      else split_slash (String c cur) s'
  end.

(** [Path(p).name] on a POSIX path: the last component, where empty
    components and [.] are dropped by the [Path] constructor. *)
Definition path_name (p : string) : string :=
  List.last
    (List.filter (fun c => negb (String.eqb c "" || String.eqb c "."))
       (split_slash EmptyString p))
    "".

(** [base / child] on paths. *)
Definition path_join (base child : string) : string := base +:+ "/" +:+ child.

(** [l[i]] with Python's index rules: a negative index counts from the end,
    anything else outside the list is an [IndexError]. *)
Definition py_index (i : Z) (n : nat) : option nat :=
  if decide (0 <= i < Z.of_nat n) then Some (Z.to_nat i)
  else if decide (- Z.of_nat n <= i < 0) then Some (Z.to_nat (Z.of_nat n + i))
  else None.

(** [l[:n]] with Python's slice rules. *)
Definition py_take {A} (n : Z) (l : list A) : list A :=
  if decide (0 <= n) then take (Z.to_nat n) l
  else take (Z.to_nat (Z.of_nat (length l) + n)) l.

(** Python floats are idealised by exact rationals.  [round(x, 2)] rounds to
    the nearest hundredth, ties to even. *)
Definition round_half_even (q : Q) : Z :=
  let f := Qfloor q in
  match Qcompare (q - inject_Z f) (1 # 2) with
  | Lt => f
  | Gt => f + 1
  | Eq => if Z.even f then f else f + 1
  end.

Definition py_round2 (q : Q) : Q :=
  Qred (inject_Z (round_half_even (q * 100)) / 100).

(** ** An insertion-ordered dictionary with [str] keys *)

Definition dict (V : Type) : Type := list (string * V).

Fixpoint dict_get {V} (k : string) (d : dict V) : option V :=
  match d with
  | [] => None
  | (k', v) :: d' => if String.eqb k k' then Some v else dict_get k d'
  end.

(** [d[k] = v]: an existing key keeps its position, a new key goes last. *)
Fixpoint dict_set {V} (k : string) (v : V) (d : dict V) : dict V :=
  match d with
  | [] => [(k, v)]
  | (k', v') :: d' =>
      if String.eqb k k' then (k, v) :: d' else (k', v') :: dict_set k v d'
  end.

(** [d.pop(k, None)]: what is bound to [k] goes, which is one entry when
    the keys are unique. *)
Definition dict_pop {V} (k : string) (d : dict V) : dict V :=
  List.filter (fun kv => negb (String.eqb k (fst kv))) d.

Definition dict_items {V} (d : dict V) : list (string * V) := d.
Definition dict_values {V} (d : dict V) : list V := List.map snd d.
Definition dict_keys {V} (d : dict V) : list string := List.map fst d.

(** Keys of a Python dictionary are unique. *)
Definition dict_wf {V} (d : dict V) : Prop := NoDup (dict_keys d).

(** ** The data model *)

(** A [datetime] as far as the code observes it: [isoformat()] and
    [timestamp()], the latter in microseconds. *)
Record datetime := Datetime { isoformat : string; timestamp : Z }.

(** One entry of [job["items"]]; the key [filename] is absent until set. *)
Record item := Item {
  item_url : string;
  item_status : string;
  item_percent : Q;
  item_filename : option string
}.

(** One value of [_jobs]. *)
Record job := Job {
  job_id : string;
  job_status : string;
  job_format : string;
  job_urls : list string;
  job_items : list item;
  job_files : list string;
  job_error : option string;
  job_created_at : string;
  job_updated_at : string;
  job_created_ts : Z
}.

(** [job["id"]], for use where [job_id] names a variable. *)
Definition job_key_id (j : job) : string := job_id j.

Definition item_set_status (s : string) (it : item) : item :=
  Item (item_url it) s (item_percent it) (item_filename it).
Definition item_set_percent (p : Q) (it : item) : item :=
  Item (item_url it) (item_status it) p (item_filename it).
Definition item_set_filename (f : string) (it : item) : item :=
  Item (item_url it) (item_status it) (item_percent it) (Some f).

Definition job_set_items (its : list item) (j : job) : job :=
  Job (job_id j) (job_status j) (job_format j) (job_urls j) its (job_files j)
    (job_error j) (job_created_at j) (job_updated_at j) (job_created_ts j).
Definition job_set_updated_at (t : string) (j : job) : job :=
  Job (job_id j) (job_status j) (job_format j) (job_urls j) (job_items j)
    (job_files j) (job_error j) (job_created_at j) t (job_created_ts j).

(** The keyword arguments of [_update_job]: its call sites pass [status],
    [files] and [error] only.  [None] is an absent keyword; [error=None]
    would be [Some None]. *)
Record updates := Updates {
  upd_status : option string;
  upd_files : option (list string);
  upd_error : option (option string)
}.

(** [job.update(updates)]. *)
Definition job_update (u : updates) (j : job) : job :=
  Job (job_id j) (default (job_status j) (upd_status u)) (job_format j)
    (job_urls j) (job_items j) (default (job_files j) (upd_files u))
    (default (job_error j) (upd_error u)) (job_created_at j)
    (job_updated_at j) (job_created_ts j).

(** The [info] argument of the progress hook: the two keys the hook looks
    at, and the names of the other keys present. *)
Record info_dict := Info {
  info_filename : option string;
  info_percent : option Q;
  info_other_keys : list string
}.

(** [if info:] on [dict | None]. *)
Definition info_truthy (info : option info_dict) : bool :=
  match info with
  | None => false
  | Some i =>
      bool_decide (is_Some (info_filename i)) || bool_decide (is_Some (info_percent i))
      || negb (bool_decide (info_other_keys i = []))
  end.

(** The dictionary yt-dlp passes to a progress hook, by the keys the code
    reads.  A key that is absent or holds [None] is [None] here. *)
Record progress_dict := Progress {
  d_status : option string;
  d_filename : option string;
  d_downloaded_bytes : option Z;
  d_total_bytes : option Z;
  d_total_bytes_estimate : option Z
}.

(** What one [extract_info] call does, as the core sees it: the progress
    dictionaries it emits, then either an exception or a return after which
    the newest new file of the output folder, if there is one, is known. *)
Inductive fetch_end :=
| Produced (newest : option string)
| Failed (e : exn).

Record fetch_run := Fetch { fr_events : list progress_dict; fr_end : fetch_end }.

(** [urllib.parse.ParseResult]. *)
Record ParseResult := Parsed {
  scheme : string;
  netloc : string;
  path : string;
  params : string;
  query : string;
  fragment : string
}.

(** Operations on the file system that the cleaner attempts. *)
Inductive fs_op :=
| Unlink (p : string)
| Rmdir (p : string).

(** ** The environment and the state *)

(** Everything outside the repository: configuration read at import time,
    the clock, [uuid4], yt-dlp, the file system and [urllib.parse].  The
    clock and [uuid4] answer by call number; the file system answers by the
    operations attempted so far; yt-dlp answers by the position of the url
    in its batch and the url.  [parse_qs] maps a name to its first value and
    the further ones (its lists are never empty). *)
Record env := Env {
  MAX_RECENT : Z;
  JOB_TTL_HOURS : Z;
  DATA_DIR : string;
  utcnow_at : nat -> datetime;
  uuid4_at : nat -> string;
  extract_info_at : nat -> string -> fetch_run;
  exists_at : list fs_op -> string -> bool;
  glob_at : list fs_op -> string -> list string;
  fault_at : list fs_op -> fs_op -> option exn;
  urlparse : string -> ParseResult;
  parse_qs : string -> dict (string * list string);
  urlencode : list (string * string) -> string;
  urlunparse : ParseResult -> string
}.

(** The state: the table, the calls made so far to the clock and to
    [uuid4], and the deletions attempted so far. *)
Record world := World {
  _jobs : dict job;
  utcnow_calls : nat;
  uuid4_calls : nat;
  fs_log : list fs_op
}.

Definition world_set_jobs (d : dict job) (w : world) : world :=
  World d (utcnow_calls w) (uuid4_calls w) (fs_log w).

(** Computations that read the environment, change the state and may raise.
    State changes made before an exception stay. *)
Definition M (A : Type) : Type := env -> world -> result A * world.

#[global] Instance M_ret : MRet M := fun A a _ w => (Ok a, w).
#[global] Instance M_bind : MBind M := fun A B k m E w =>
  match m E w with
  | (Ok a, w') => k a E w'
  | (Raise e, w') => (Raise e, w')
  end.

Definition raise {A} (e : exn) : M A := fun _ w => (Raise e, w).

(** [try: m  except <catches> as exc: handler exc]. *)
Definition try_except {A} (m : M A) (catches : exn -> bool) (handler : exn -> M A) : M A :=
  fun E w =>
    match m E w with
    | (Raise e, w') => if catches e then handler e E w' else (Raise e, w')
    | r => r
    end.

Definition ask : M env := fun E w => (Ok E, w).

(** [_jobs.get(k)], [_jobs[k] = j] and [_jobs.pop(k, None)]. *)
Definition jobs_get (k : string) : M (option job) := fun _ w => (Ok (dict_get k (_jobs w)), w).
Definition jobs_set (k : string) (j : job) : M unit :=
  fun _ w => (Ok tt, world_set_jobs (dict_set k j (_jobs w)) w).
Definition jobs_pop (k : string) : M unit :=
  fun _ w => (Ok tt, world_set_jobs (dict_pop k (_jobs w)) w).

(** [list(_jobs.values())] and [list(_jobs.items())]. *)
Definition jobs_values : M (list job) := fun _ w => (Ok (dict_values (_jobs w)), w).
Definition jobs_items : M (list (string * job)) := fun _ w => (Ok (dict_items (_jobs w)), w).

(** [datetime.utcnow()]. *)
Definition utcnow : M datetime := fun E w =>
  (Ok (utcnow_at E (utcnow_calls w)),
   World (_jobs w) (S (utcnow_calls w)) (uuid4_calls w) (fs_log w)).

(** [uuid4().hex]. *)
Definition uuid4_hex : M string := fun E w =>
  (Ok (uuid4_at E (uuid4_calls w)),
   World (_jobs w) (utcnow_calls w) (S (uuid4_calls w)) (fs_log w)).

(** [p.exists()] and [list(p.glob("*"))]: queries, which answer and do not
    raise. *)
Definition path_exists (p : string) : M bool := fun E w => (Ok (exists_at E (fs_log w) p), w).
Definition path_glob (p : string) : M (list string) := fun E w => (Ok (glob_at E (fs_log w) p), w).

(** [p.unlink()] and [p.rmdir()]: the attempt is logged, and raises when the
    file system says so. *)
Definition fs_attempt (op : fs_op) : M unit := fun E w =>
  let w' := World (_jobs w) (utcnow_calls w) (uuid4_calls w) (fs_log w ++ [op]) in
  match fault_at E (fs_log w) op with
  | Some e => (Raise e, w')
  | None => (Ok tt, w')
  end.

(** ** app.py: the job table *)

(** [_new_job]. *)
Definition _new_job (urls : list string) (fmt : string) : M string :=
  job_id ← uuid4_hex;
  now ← utcnow;
  let job :=
    {| job_id := job_id;
       job_status := "queued";
       job_format := fmt;
       job_urls := urls;
       job_items := List.map (fun url => Item url "queued" 0 None) urls;
       job_files := [];
       job_error := None;
       job_created_at := isoformat now +:+ "Z";
       job_updated_at := isoformat now +:+ "Z";
       job_created_ts := timestamp now |} in
  jobs_set job_id job;;
  mret job_id.

(** [_update_job]. *)
Definition _update_job (job_id : string) (u : updates) : M unit :=
  job ← jobs_get job_id;
  match job with
  | None => mret tt
  | Some job =>
      now ← utcnow;
      jobs_set job_id (job_set_updated_at (isoformat now +:+ "Z") (job_update u job))
  end.

(** [items[item_index][key] = value] on the list object [items]. *)
Definition item_assign (item_index : Z) (f : item -> item) (items : list item)
  : result unit * list item :=
  match py_index item_index (length items) with
  | Some n => (Ok tt, alter f n items)
  | None => (Raise (Exn IndexError "list index out of range"), items)
  end.

(** The body of [progress_hook] below the lookup, on the list object
    [job_local["items"]]. *)
Definition progress_hook_items (item_index : Z) (status : string)
    (info : option info_dict) (items : list item) : result unit * list item :=
  let items :=
    if decide (0 <= item_index < Z.of_nat (length items))
    then alter (item_set_status status) (Z.to_nat item_index) items
    else items in
  match info with
  | Some i =>
      if info_truthy info then
        let r1 :=
          match info_filename i with
          | Some f => item_assign item_index (item_set_filename (path_name f)) items
          | None => (Ok tt, items)
          end in
        match r1 with
        | (Raise e, items) => (Raise e, items)
        | (Ok _, items) =>
            match info_percent i with
            | Some p => item_assign item_index (item_set_percent p) items
            | None => (Ok tt, items)
            end
        end
      else (Ok tt, items)
  | None => (Ok tt, items)
  end.

(** [progress_hook], the closure of [_download_job] over [job_id]. *)
Definition progress_hook (job_id : string) (item_index : Z) (status : string)
    (info : option info_dict) : M unit :=
  job_local ← jobs_get job_id;
  match job_local with
  | None => mret tt
  | Some job_local =>
      let (r, items) := progress_hook_items item_index status info (job_items job_local) in
      jobs_set job_id (job_set_items items job_local);;
      match r with
      | Ok _ => mret tt
      | Raise e => raise e
      end
  end.

(** [recent.sort(key=..., reverse=True)]: a stable sort, so among equal keys
    the earlier element stays first. *)
Fixpoint insert_desc {A} (key : A -> string) (x : A) (l : list A) : list A :=
  match l with
  | [] => [x]
  | y :: l' =>
      if decide (String.le (key y) (key x)) then x :: l
      else y :: insert_desc key x l'
  end.

Definition sort_desc {A} (key : A -> string) (l : list A) : list A :=
  foldr (insert_desc key) [] l.

(** One entry of the payload of [api_recent]. *)
Record summary := Summary {
  s_id : string;
  s_status : string;
  s_format : string;
  s_created_at : string;
  s_url_count : nat
}.

Definition summary_of (j : job) : summary :=
  Summary (job_id j) (job_status j) (job_format j) (job_created_at j) (length (job_urls j)).

(** [api_recent]. *)
Definition api_recent : M (list summary) :=
  E ← ask;
  recent ← jobs_values;
  let recent := sort_desc job_created_at recent in
  let recent := py_take (MAX_RECENT E) recent in
  mret (List.map summary_of recent).

(** ** app.py: the cleaner *)

(** Microseconds in [timedelta(hours=h)]. *)
Definition hours (h : Z) : Z := h * 3600 * 1000000.

(** The loop of [_cleanup_old_jobs] under the lock, over [list(_jobs.items())]. *)
Fixpoint cleanup_scan (cutoff_ts : Z) (snapshot : list (string * job))
    (to_remove : list (string * string)) : M (list (string * string)) :=
  match snapshot with
  | [] => mret to_remove
  | (job_id, job) :: rest =>
      let created_ts := job_created_ts job in
      if negb (created_ts =? 0) && (created_ts <? cutoff_ts) then
        E ← ask;
        jobs_pop job_id;;
        cleanup_scan cutoff_ts rest (to_remove ++ [(job_id, path_join (DATA_DIR E) job_id)])
      else cleanup_scan cutoff_ts rest to_remove
  end.

(** [try: m  except OSError: pass]. *)
Definition except_OSError_pass (m : M unit) : M unit :=
  try_except m is_OSError (fun _ => mret tt).

(** [for child in path.glob("*"): ...]. *)
Fixpoint cleanup_children (children : list string) : M unit :=
  match children with
  | [] => mret tt
  | child :: rest =>
      except_OSError_pass (fs_attempt (Unlink child));;
      cleanup_children rest
  end.

(** The second loop of [_cleanup_old_jobs], outside the lock. *)
Fixpoint cleanup_artifacts (to_remove : list (string * string)) : M unit :=
  match to_remove with
  | [] => mret tt
  | (job_id, path) :: rest =>
      here ← path_exists path;
      (if here : bool then
         children ← path_glob path;
         cleanup_children children;;
         except_OSError_pass (fs_attempt (Rmdir path))
       else mret tt);;
      E ← ask;
      let zip_path := path_join (DATA_DIR E) (job_id +:+ ".zip") in
      zipped ← path_exists zip_path;
      (if zipped : bool then except_OSError_pass (fs_attempt (Unlink zip_path))
       else mret tt);;
      cleanup_artifacts rest
  end.

(** [_cleanup_old_jobs]. *)
Definition _cleanup_old_jobs : M unit :=
  E ← ask;
  now ← utcnow;
  let cutoff_ts := timestamp now - hours (JOB_TTL_HOURS E) in
  snapshot ← jobs_items;
  to_remove ← cleanup_scan cutoff_ts snapshot [];
  cleanup_artifacts to_remove.

(** ** helper.py *)

(** [_normalize_url]. *)
Definition _normalize_url (E : env) (url : string) : string :=
  let parsed := urlparse E url in
  if negb (str_in "youtube" (netloc parsed)) && negb (str_in "youtu.be" (netloc parsed))
  then url
  else
    let query := parse_qs E (query parsed) in
    let video_id := fst <$> dict_get "v" query in
    match video_id with
    | Some v =>
        if String.eqb v "" then url
        else
          let clean_query := urlencode E [("v", v)] in
          urlunparse E (Parsed (scheme parsed) (netloc parsed) (path parsed) "" clean_query "")
    | None => url
    end.

(** [x or y] and [if x:] on [int | None]. *)
Definition py_or (x y : option Z) : option Z :=
  match x with
  | Some v => if v =? 0 then y else x
  | None => y
  end.

Definition truthy (x : option Z) : bool :=
  match x with
  | Some v => negb (v =? 0)
  | None => false
  end.

(** [_percent_from_progress]. *)
Definition _percent_from_progress (data : progress_dict) : option Q :=
  let total := py_or (d_total_bytes data) (d_total_bytes_estimate data) in
  let downloaded := d_downloaded_bytes data in
  match total, downloaded with
  | Some t, Some d =>
      if truthy total && truthy downloaded
      then Some (py_round2 ((inject_Z d / inject_Z t) * 100))
      else None
  | _, _ => None
  end.

(** The keys of a progress dictionary besides [filename]. *)
Definition d_other_keys (d : progress_dict) : list string :=
  (if d_status d is Some _ then ["status"] else []) ++
  (if d_downloaded_bytes d is Some _ then ["downloaded_bytes"] else []) ++
  (if d_total_bytes d is Some _ then ["total_bytes"] else []) ++
  (if d_total_bytes_estimate d is Some _ then ["total_bytes_estimate"] else []).

Definition ProgressHook : Type := Z -> string -> option info_dict -> M unit.

(** [_progress], the closure of [download_media] over [progress_hook] and
    [index]. *)
Definition _progress (progress_hook : option ProgressHook) (index : nat)
    (d : progress_dict) : M unit :=
  match progress_hook with
  | Some hook =>
      if bool_decide (d_status d = Some "downloading" \/ d_status d = Some "finished") then
        let percent := _percent_from_progress d in
        let info := Info (d_filename d) percent (d_other_keys d) in
        hook (Z.of_nat index) (default "downloading" (d_status d)) (Some info)
      else mret tt
  | None => mret tt
  end.

(** [ydl.extract_info(video_url, download=True)] with [_progress] as its
    progress hook: the hook runs on each dictionary yt-dlp emits, an
    exception of the hook leaves [extract_info], and so does yt-dlp's own
    failure. *)
Fixpoint run_hooks (hook : progress_dict -> M unit) (events : list progress_dict) : M unit :=
  match events with
  | [] => mret tt
  | d :: rest => hook d;; run_hooks hook rest
  end.

Definition ydl_extract_info (hook : progress_dict -> M unit) (index : nat)
    (video_url : string) : M unit :=
  E ← ask;
  let run := extract_info_at E index video_url in
  run_hooks hook (fr_events run);;
  match fr_end run with
  | Failed e => raise e
  | Produced _ => mret tt
  end.

(** [max(new_files, key=mtime)] when [after_files - before_files] has a
    file, after [extract_info] returned. *)
Definition newest_new_file (index : nat) (video_url : string) : M (option string) :=
  E ← ask;
  mret (match fr_end (extract_info_at E index video_url) with
        | Produced newest => newest
        | Failed _ => None
        end).

Definition call_hook (progress_hook : option ProgressHook) (index : nat)
    (status : string) (info : info_dict) : M unit :=
  match progress_hook with
  | Some hook => hook (Z.of_nat index) status (Some info)
  | None => mret tt
  end.

(** [for index, video_url in enumerate(urls): ...]. *)
Fixpoint download_loop (progress_hook : option ProgressHook) (index : nat)
    (urls : list string) (output_files : list string) : M (list string) :=
  match urls with
  | [] => mret output_files
  | video_url :: rest =>
      try_except
        (ydl_extract_info (_progress progress_hook index) index video_url)
        is_Exception
        (fun exc =>
           call_hook progress_hook index "error" (Info None None ["error"]);;
           raise exc);;
      newest ← newest_new_file index video_url;
      match newest with
      | Some newest =>
          call_hook progress_hook index "completed" (Info (Some newest) (Some 100%Q) []);;
          download_loop progress_hook (S index) rest (output_files ++ [newest])
      | None =>
          call_hook progress_hook index "completed" (Info None (Some 100%Q) []);;
          download_loop progress_hook (S index) rest output_files
      end
  end.

(** [download_media].  The cookie file, [os.makedirs] and the yt-dlp options
    do not reach the job table and are left out. *)
Definition download_media (video_urls : list string + string) (mode : string)
    (progress_hook : option ProgressHook) : M (list string) :=
  if negb (String.eqb mode "mp3" || String.eqb mode "mp4")
  then raise (Exn ValueError "mode must be 'mp3' or 'mp4'")
  else
    E ← ask;
    let urls := match video_urls with inl l => l | inr s => [s] end in
    let urls := List.map (_normalize_url E) urls in
    download_loop progress_hook 0 urls [].

(** ** app.py: the runner *)

(** [_download_job].  [output_dir.mkdir] does not reach the job table and
    is left out. *)
Definition _download_job (job_id : string) : M unit :=
  job ← jobs_get job_id;
  match job with
  | None => mret tt
  | Some job =>
      _update_job job_id (Updates (Some "running") None None);;
      try_except
        (files ← download_media (inl (job_urls job)) (job_format job)
                   (Some (progress_hook job_id));
         _update_job job_id (Updates (Some "finished") (Some files) None))
        is_Exception
        (fun exc => _update_job job_id (Updates (Some "error") None (Some (Some (exn_msg exc)))))
  end.

(** ** app.py: the status read *)

(** The body of the response of [api_status]. *)
Record response := Response {
  r_id : string;
  r_status : string;
  r_format : string;
  r_created_at : string;
  r_updated_at : string;
  r_items : list item;
  r_error : option string;
  r_files : list string
}.

(** A critical section of the runner: a call of [_update_job] or of the
    progress hook.  Neither binds or unbinds a key of [_jobs]. *)
Inductive table_op :=
| OpUpdate (job_id : string) (u : updates)
| OpProgress (job_id : string) (item_index : Z) (status : string) (info : option info_dict).

(** Critical sections of other threads; their exceptions are theirs. *)
Fixpoint run_others (ops : list table_op) : M unit :=
  match ops with
  | [] => mret tt
  | o :: rest =>
      try_except
        (match o with
         | OpUpdate job_id u => _update_job job_id u
         | OpProgress job_id i s info => progress_hook job_id i s info
         end)
        is_Exception (fun _ => mret tt);;
      run_others rest
  end.

(** [job[key]] outside the lock, on the object that [api_status] found under
    [job_id]: other threads' critical sections that ran since the previous
    statement are visible.  As no [table_op] unbinds the key, the object is
    the one the table holds. *)
Definition job_read {A} (others : list table_op) (job_id : string) (found : job)
    (key : job -> A) : M A :=
  run_others others;;
  j ← jobs_get job_id;
  mret (key (default found j)).

(** [api_status] while other threads run [others k] between its statements.
    [response["items"]] is the list object itself, so its content is read
    last, when [JSONResponse] renders the body. *)
Definition api_status_among (others : nat -> list table_op) (job_id : string) : M response :=
  job ← jobs_get job_id;
  match job with
  | None => raise (Exn (HTTPException 404) "Job not found.")
  | Some job =>
      id ← job_read (others 0%nat) job_id job job_key_id;
      status ← job_read (others 1%nat) job_id job job_status;
      format ← job_read (others 2%nat) job_id job job_format;
      created_at ← job_read (others 3%nat) job_id job job_created_at;
      updated_at ← job_read (others 4%nat) job_id job job_updated_at;
      error ← job_read (others 5%nat) job_id job job_error;
      files ← job_read (others 6%nat) job_id job (fun j => List.map path_name (job_files j));
      items ← job_read (others 7%nat) job_id job job_items;
      mret (Response id status format created_at updated_at items error files)
  end.

(** [api_status] with no other thread running. *)
Definition api_status (job_id : string) : M response :=
  api_status_among (fun _ => []) job_id.

(** ** A reference environment

    Used to evaluate the model on concrete inputs.  [urllib.parse] is
    written out for URLs of the shape [scheme://netloc/path?query#fragment]
    with a non-empty netloc and without percent escapes or [;params]. *)

Fixpoint str_break (stop : ascii -> bool) (s : string) : string * string :=
  match s with
  | EmptyString => (EmptyString, EmptyString)
  | String c s' =>
      if stop c then (EmptyString, s)
      else let (a, b) := str_break stop s' in (String c a, b)
  end.

Definition str_tail (s : string) : string :=
  match s with
  | EmptyString => EmptyString
  | String _ s' => s'
  end.

Definition is_char (c : ascii) (x : ascii) : bool := Ascii.eqb x c.

Definition ref_urlparse (url : string) : ParseResult :=
  let (sch, rest) := str_break (is_char ":") url in
  let (sch, rest) :=
    if String.prefix "://" rest then (sch, str_tail (str_tail (str_tail rest)))
    else (EmptyString, url) in
  let (loc, rest) :=
    if String.eqb sch "" then (EmptyString, rest)
    else str_break (fun c => is_char "/" c || is_char "?" c || is_char "#" c) rest in
  let (pth, rest) := str_break (fun c => is_char "?" c || is_char "#" c) rest in
  let (qry, rest) :=
    if String.prefix "?" rest then str_break (is_char "#") (str_tail rest)
    else (EmptyString, rest) in
  Parsed sch loc pth "" qry (str_tail rest).

Fixpoint split_amp (fuel : nat) (s : string) : list string :=
  match fuel with
  | O => []
  | S fuel =>
      let (a, b) := str_break (is_char "&") s in
      match b with
      | EmptyString => [a]
      | String _ b' => a :: split_amp fuel b'
      end
  end.

Fixpoint plus_to_space (s : string) : string :=
  match s with
  | EmptyString => EmptyString
  | String c s' => String (if is_char "+" c then " "%char else c) (plus_to_space s')
  end.

Fixpoint qs_add (name value : string) (d : dict (string * list string))
  : dict (string * list string) :=
  match d with
  | [] => [(name, (value, []))]
  | (k, (v, vs)) :: d' =>
      if String.eqb name k then (k, (v, vs ++ [value])) :: d'
      else (k, (v, vs)) :: qs_add name value d'
  end.

Definition ref_parse_qs (qs : string) : dict (string * list string) :=
  fold_left
    (fun d nv =>
       let (name, rest) := str_break (is_char "=") nv in
       match rest with
       | EmptyString => d
       | String _ value =>
           if String.eqb value "" then d
           else qs_add (plus_to_space name) (plus_to_space value) d
       end)
    (split_amp (S (String.length qs)) qs) [].

Definition hex_digit (n : N) : ascii :=
  ascii_of_N (if (n <? 10)%N then 48 + n else 55 + n)%N.

Definition quote_char (c : ascii) : string :=
  let n := N_of_ascii c in
  if ((48 <=? n) && (n <=? 57) || (65 <=? n) && (n <=? 90) || (97 <=? n) && (n <=? 122))%N
     || is_char "_" c || is_char "." c || is_char "-" c || is_char "~" c
  then String c EmptyString
  else if is_char " " c then "+"
  else String "%" (String (hex_digit (n / 16)) (String (hex_digit (n mod 16)) EmptyString)).

Fixpoint quote_plus (s : string) : string :=
  match s with
  | EmptyString => EmptyString
  | String c s' => quote_char c +:+ quote_plus s'
  end.

Fixpoint ref_urlencode (pairs : list (string * string)) : string :=
  match pairs with
  | [] => EmptyString
  | [(k, v)] => quote_plus k +:+ "=" +:+ quote_plus v
  | (k, v) :: rest => quote_plus k +:+ "=" +:+ quote_plus v +:+ "&" +:+ ref_urlencode rest
  end.

Definition ref_urlunparse (p : ParseResult) : string :=
  let url := if String.eqb (params p) "" then path p else path p +:+ ";" +:+ params p in
  let url :=
    if String.eqb (netloc p) "" then url
    else "//" +:+ netloc p +:+
         (if negb (String.eqb url "") && negb (String.prefix "/" url) then "/" +:+ url else url) in
  let url := if String.eqb (scheme p) "" then url else scheme p +:+ ":" +:+ url in
  let url := if String.eqb (query p) "" then url else url +:+ "?" +:+ query p in
  if String.eqb (fragment p) "" then url else url +:+ "#" +:+ fragment p.

(** A clock that ticks once per call from 2024-05-01T10:00:00, a fetch
    service and a file system given as arguments. *)
Definition ref_utcnow (n : nat) : datetime :=
  Datetime
    (nth n ["2024-05-01T10:00:00"; "2024-05-01T10:00:01"; "2024-05-01T10:00:02";
            "2024-05-01T10:00:03"; "2024-05-01T10:00:04"; "2024-05-01T10:00:05"]
       "2024-05-01T10:00:59")
    (1714557600000000 + Z.of_nat n * 1000000).

Fixpoint str_repeat (c : ascii) (n : nat) : string :=
  match n with
  | O => EmptyString
  | S n' => String c (str_repeat c n')
  end.

(** Ids that never repeat: [0a], [0af], [0aff], ... *)
Definition ref_uuid4 (n : nat) : string := "0a" +:+ str_repeat "f" n.

Definition ref_env (fetch : nat -> string -> fetch_run)
    (fs_exists : list fs_op -> string -> bool)
    (fs_glob : list fs_op -> string -> list string)
    (fs_fault : list fs_op -> fs_op -> option exn) : env :=
  Env 10 6 "/app/tmp_downloads" ref_utcnow ref_uuid4 fetch fs_exists fs_glob fs_fault
    ref_urlparse ref_parse_qs ref_urlencode ref_urlunparse.

Definition no_fetch : nat -> string -> fetch_run := fun _ _ => Fetch [] (Produced None).

(** An environment with nothing to fetch and an empty file system. *)
Definition env0 : env :=
  ref_env no_fetch (fun _ _ => false) (fun _ _ => []) (fun _ _ => None).

(** The state at process start. *)
Definition world0 : world := World [] 0 0 [].

(** ** Notions used in the statements *)

(** What the progress hook writes through its unguarded index: the
    [filename] and [percent] keys of [info]. *)
Definition info_write (i : info_dict) (it : item) : item :=
  let it := match info_filename i with
            | Some f => item_set_filename (path_name f) it
            | None => it
            end in
  match info_percent i with
  | Some p => item_set_percent p it
  | None => it
  end.

(** What one call of the hook does to the item it addresses in range. *)
Definition hook_write (status : string) (info : option info_dict) (it : item) : item :=
  let it := item_set_status status it in
  match info with
  | Some i => if info_truthy info then info_write i it else it
  | None => it
  end.

(** ** Concrete runs *)

(** A fetch service for which the url [A] downloads and yields a file and
    any other url fails. *)
Definition fetch_A_only (index : nat) (url : string) : fetch_run :=
  if String.eqb url "A" then
    Fetch
      [Progress (Some "downloading") (Some "/app/tmp_downloads/0a/A.webm")
         (Some 50) (Some 100) None;
       Progress (Some "finished") (Some "/app/tmp_downloads/0a/A.webm")
         (Some 100) (Some 100) None]
      (Produced (Some "/app/tmp_downloads/0a/A.mp3"))
  else Fetch [] (Failed (Exn OtherError "ERROR: B is unavailable")).

Definition env_A_only : env :=
  ref_env fetch_A_only (fun _ _ => false) (fun _ _ => []) (fun _ _ => None).

(** The state after [_new_job(["A", "B"], "mp3")] at process start. *)
Definition world_AB_queued : world := (_new_job ["A"; "B"] "mp3" env_A_only world0).2.

(** The state after the runner has finished the job [["A"]]. *)
Definition world_A_finished : world :=
  ((job_id ← _new_job ["A"] "mp3"; _download_job job_id) env_A_only world0).2.

(** ** The life of the table *)

(** The items of a job follow its urls, one each and in order. *)
Definition items_follow_urls (j : job) : Prop :=
  List.map item_url (job_items j) = job_urls j.

(** Whatever is bound to [job_id], if anything, has its items follow its
    urls. *)
Definition follows_at (job_id : string) (d : dict job) : Prop :=
  forall j, dict_get job_id d = Some j -> items_follow_urls j.

(** A computation keeps a property of the state. *)
Definition keeps (P : env -> world -> Prop) {A} (m : M A) : Prop :=
  forall E w, P E w -> P E (m E w).2.

(** A property of the table alone, as a property of the state. *)
Definition on_jobs (Q : dict job -> Prop) : env -> world -> Prop :=
  fun _ w => Q (_jobs w).

(** Every key of the table was handed out by an earlier call of [uuid4]. *)
Definition keys_from_uuid4 (E : env) (w : world) : Prop :=
  forall k j, dict_get k (_jobs w) = Some j ->
    exists n, (n < uuid4_calls w)%nat /\ k = uuid4_at E n.

(** The calls that write [_jobs]: the critical sections of the runner, a
    submission, a whole run of the runner and a sweep of the cleaner. *)
Inductive table_call :=
| CallOp (o : table_op)
| CallNewJob (urls : list string) (fmt : string)
| CallDownloadJob (job_id : string)
| CallCleanup.

Definition run_call (c : table_call) : M unit :=
  match c with
  | CallOp o => run_others [o]
  | CallNewJob urls fmt => _new_job urls fmt;; mret tt
  | CallDownloadJob job_id => _download_job job_id
  | CallCleanup => _cleanup_old_jobs
  end.

(** The state after a sequence of calls; an exception ends its own call
    only. *)
Fixpoint run_calls (E : env) (calls : list table_call) (w : world) : world :=
  match calls with
  | [] => w
  | c :: rest => run_calls E rest (run_call c E w).2
  end.

(** ** The sweep, as a function *)

(** The test of the scan: the job has a creation timestamp and it is before
    the cutoff. *)
Definition expired (cutoff_ts : Z) (j : job) : bool :=
  negb (job_created_ts j =? 0) && (job_created_ts j <? cutoff_ts).

(** The cutoff of a sweep that starts in state [w]. *)
Definition cutoff_at (E : env) (w : world) : Z :=
  timestamp (utcnow_at E (utcnow_calls w)) - hours (JOB_TTL_HOURS E).

(** One step of the scan on the table. *)
Definition scan_step (cutoff_ts : Z) (d : dict job) (kj : string * job) : dict job :=
  if expired cutoff_ts kj.2 then dict_pop kj.1 d else d.

(** The ids the scan collects, in table order. *)
Definition evicted (cutoff_ts : Z) (d : dict job) : list string :=
  List.map fst (List.filter (fun kj => expired cutoff_ts kj.2) d).

(** The deletions attempted for one evicted job when the log so far is
    [log]: every child of its directory, then the directory, then its
    archive; the directory part and the archive part each only when the path
    exists at that moment. *)
Definition dir_ops (E : env) (log : list fs_op) (job_id : string) : list fs_op :=
  let dir := path_join (DATA_DIR E) job_id in
  if exists_at E log dir
  then List.map Unlink (glob_at E log dir) ++ [Rmdir dir]
  else [].

Definition zip_ops (E : env) (log : list fs_op) (job_id : string) : list fs_op :=
  let zip_path := path_join (DATA_DIR E) (job_id +:+ ".zip") in
  if exists_at E log zip_path then [Unlink zip_path] else [].

Definition job_ops (E : env) (log : list fs_op) (job_id : string) : list fs_op :=
  dir_ops E log job_id ++ zip_ops E (log ++ dir_ops E log job_id) job_id.

(** The deletions attempted for the evicted jobs, one job after the other. *)
Fixpoint sweep_ops (E : env) (log : list fs_op) (job_ids : list string) : list fs_op :=
  match job_ids with
  | [] => []
  | job_id :: rest =>
      job_ops E log job_id ++ sweep_ops E (log ++ job_ops E log job_id) rest
  end.

(** The state with [ops] appended to the log of attempted deletions. *)
Definition world_log_app (w : world) (ops : list fs_op) : world :=
  World (_jobs w) (utcnow_calls w) (uuid4_calls w) (fs_log w ++ ops).

(** A day for the cleaner: job [0a] is submitted at 10:00:00 and job [0af]
    at 16:30:00, the sweep runs at 17:00:00 with a TTL of six hours.  The
    directory of [0a] holds two files, one of which cannot be unlinked, so
    the directory cannot be removed either; its archive exists. *)
Definition sweep_utcnow (n : nat) : datetime :=
  match n with
  | O => Datetime "2024-05-01T10:00:00" 1714557600000000
  | S O => Datetime "2024-05-01T16:30:00" 1714581000000000
  | _ => Datetime "2024-05-01T17:00:00" 1714582800000000
  end.

Definition sweep_exists (log : list fs_op) (p : string) : bool :=
  String.eqb p "/app/tmp_downloads/0a" || String.eqb p "/app/tmp_downloads/0a.zip".

Definition sweep_glob (log : list fs_op) (p : string) : list string :=
  if String.eqb p "/app/tmp_downloads/0a"
  then ["/app/tmp_downloads/0a/A.mp3"; "/app/tmp_downloads/0a/A.part"]
  else [].

Definition sweep_fault (log : list fs_op) (op : fs_op) : option exn :=
  match op with
  | Unlink p =>
      if String.eqb p "/app/tmp_downloads/0a/A.part"
      then Some (Exn OSError "[Errno 13] Permission denied")
      else None
  | Rmdir p => Some (Exn OSError "[Errno 39] Directory not empty")
  end.

Definition env_sweep : env :=
  Env 10 6 "/app/tmp_downloads" sweep_utcnow ref_uuid4 no_fetch
    sweep_exists sweep_glob sweep_fault
    ref_urlparse ref_parse_qs ref_urlencode ref_urlunparse.

Definition world_two_jobs : world :=
  ((_new_job ["A"] "mp3";; _new_job ["B"] "mp4") env_sweep world0).2.

(** ** Order of the listing *)

(** Earlier entries have keys at least as large as later ones, in the order
    of Python's [str]. *)
Definition key_desc {A} (key : A -> string) (a b : A) : Prop := String.le (key b) (key a).

(** The environment of the sweep with [MAX_RECENT=-1]. *)
Definition env_negative_limit : env :=
  Env (-1) 6 "/app/tmp_downloads" sweep_utcnow ref_uuid4 no_fetch
    sweep_exists sweep_glob sweep_fault
    ref_urlparse ref_parse_qs ref_urlencode ref_urlunparse.

(** ** Progress events, as functions on the item *)

(** The total that [_percent_from_progress] uses. *)
Definition total_of (d : progress_dict) : option Z :=
  py_or (d_total_bytes d) (d_total_bytes_estimate d).

(** What [_progress] makes the hook write to the item of its url. *)
Definition event_write (d : progress_dict) (it : item) : item :=
  if bool_decide (d_status d = Some "downloading" \/ d_status d = Some "finished")
  then hook_write (default "downloading" (d_status d))
         (Some (Info (d_filename d) (_percent_from_progress d) (d_other_keys d))) it
  else it.

Definition events_write (events : list progress_dict) (it : item) : item :=
  fold_left (fun it d => event_write d it) events it.

(** The first item of job [0a] after yt-dlp has emitted [events] for it,
    starting from the queued job [["A", "B"]]. *)
Definition first_item_after (events : list progress_dict) : option item :=
  j ← dict_get "0a"
        (_jobs (run_hooks (_progress (Some (progress_hook "0a")) 0) events
                  env_A_only world_AB_queued).2);
  job_items j !! 0%nat.

(** Progress of a download whose total is an estimate that yt-dlp revises. *)
Definition ev_50_of_100 : progress_dict :=
  Progress (Some "downloading") (Some "/app/tmp_downloads/0a/A.webm") (Some 50) None (Some 100).
Definition ev_60_of_200 : progress_dict :=
  Progress (Some "downloading") (Some "/app/tmp_downloads/0a/A.webm") (Some 60) None (Some 200).
Definition ev_150_of_100 : progress_dict :=
  Progress (Some "downloading") (Some "/app/tmp_downloads/0a/A.webm") (Some 150) None (Some 100).

(** The state [w] with the items of job [j], bound to [job_id], replaced. *)
Definition world_with_items (job_id : string) (j : job) (items : list item) (w : world) : world :=
  world_set_jobs (dict_set job_id (job_set_items items j) (_jobs w)) w.

(** What the item of a url holds once its fetch is over: after the events,
    the final call of the hook. *)
Definition completed_write (events : list progress_dict) (newest : option string)
    (it : item) : item :=
  hook_write "completed" (Some (Info newest (Some 100%Q) [])) (events_write events it).

Definition failed_write (events : list progress_dict) (it : item) : item :=
  hook_write "error" (Some (Info None None ["error"])) (events_write events it).

(** ** Reading a job while it is updated *)

(** The response that shows job [j] as it is at one moment. *)
Definition response_of (j : job) : response :=
  Response (job_id j) (job_status j) (job_format j) (job_created_at j) (job_updated_at j)
    (job_items j) (job_error j) (List.map path_name (job_files j)).





(** A machine whose clock stands at the epoch when job [0a] is submitted
    and is right afterwards. *)
Definition epoch_utcnow (n : nat) : datetime :=
  match n with
  | O => Datetime "1970-01-01T00:00:00" 0
  | _ => Datetime "2024-05-01T17:00:00" 1714582800000000
  end.

Definition env_epoch : env :=
  Env 10 6 "/app/tmp_downloads" epoch_utcnow ref_uuid4 no_fetch
    (fun _ _ => false) (fun _ _ => []) (fun _ _ => None)
    ref_urlparse ref_parse_qs ref_urlencode ref_urlunparse.

Definition world_epoch_job : world := (_new_job ["A"] "mp3" env_epoch world0).2.

(** * The rest of the application *)

(** ** The runner on a whole batch *)

(** The newest new file after a fetch, if the fetch returned and left one. *)
Definition newest_of (run : fetch_run) : option string :=
  match fr_end run with
  | Produced newest => newest
  | Failed _ => None
  end.

(** The list [output_files] once the fetches of [urls], numbered from [n],
    have all returned. *)
Fixpoint produced_files (E : env) (n : nat) (urls : list string) : list string :=
  match urls with
  | [] => []
  | url :: rest =>
      option_list (newest_of (extract_info_at E n url)) ++ produced_files E (S n) rest
  end.

(** The items once the fetches of [urls], numbered from [n], have all
    returned. *)
Fixpoint completed_items (E : env) (n : nat) (urls : list string) (items : list item)
  : list item :=
  match urls with
  | [] => items
  | url :: rest =>
      completed_items E (S n) rest
        (alter (completed_write (fr_events (extract_info_at E n url))
                  (newest_of (extract_info_at E n url))) n items)
  end.

(** The fields of a job that nothing writes after [_new_job]. *)
Definition job_fixed (j : job) : string * string * list string * string * Z :=
  (job_id j, job_format j, job_urls j, job_created_at j, job_created_ts j).

(** A fetch service for which every url downloads; [A] yields a file and
    the other urls leave no new file. *)
Definition fetch_all_ok (index : nat) (url : string) : fetch_run :=
  if String.eqb url "A" then fetch_A_only index url
  else Fetch [Progress (Some "downloading") None (Some 10) (Some 40) None] (Produced None).

Definition env_all_ok : env :=
  ref_env fetch_all_ok (fun _ _ => false) (fun _ _ => []) (fun _ _ => None).

(** The job of [world_AB_queued]. *)
Definition job_AB_queued : job :=
  Job "0a" "queued" "mp3" ["A"; "B"]
    [Item "A" "queued" 0 None; Item "B" "queued" 0 None] [] None
    "2024-05-01T10:00:00Z" "2024-05-01T10:00:00Z" 1714557600000000.



(** ** The cleaner thread *)



(** A deletion is made for job [job_id]: it removes the job's directory or
    its archive, or unlinks what the directory listed. *)
Definition op_of_job (E : env) (job_id : string) (op : fs_op) : Prop :=
  op = Rmdir (path_join (DATA_DIR E) job_id)
  \/ op = Unlink (path_join (DATA_DIR E) (job_id +:+ ".zip"))
  \/ exists log child,
       op = Unlink child /\ In child (glob_at E log (path_join (DATA_DIR E) job_id)).

(** Every job is stored under its own id. *)
Definition ids_match_keys (d : dict job) : Prop :=
  forall k j, dict_get k d = Some j -> job_key_id j = k.

(** ** app.py: reading a submission

    A Python [str] is read as the sequence of its code points; the strings
    of this part are those whose code points are below 256. *)

(** [c.isspace()]. *)
Definition py_isspace (c : ascii) : bool :=
  let n := nat_of_ascii c in
  ((9 <=? n) && (n <=? 13) || (28 <=? n) && (n <=? 31)
   || (n =? 32) || (n =? 133) || (n =? 160))%nat.

(** The line boundaries of [str.splitlines]. *)
Definition py_islinebreak (c : ascii) : bool :=
  let n := nat_of_ascii c in
  ((10 <=? n) && (n <=? 13) || (28 <=? n) && (n <=? 30) || (n =? 133))%nat.

(** What is collected in [cur], last character first, is a token or a line
    when it is not empty. *)
Definition flush (cur : string) : list string :=
  if String.eqb cur "" then [] else [String.rev cur].

(** [s.splitlines()]: a carriage return followed by a line feed is one
    boundary, and a boundary at the end opens no further line. *)
Fixpoint splitlines_from (cur : string) (s : string) : list string :=
  match s with
  | EmptyString => flush cur
  | String c s' =>
      if py_islinebreak c then
        String.rev cur ::
          match s' with
          | String c' s'' =>
              if Ascii.eqb c "013"%char && Ascii.eqb c' "010"%char
              then splitlines_from EmptyString s''
              else splitlines_from EmptyString s'
          | EmptyString => []
          end
      else splitlines_from (String c cur) s'
  end.

Definition py_splitlines (s : string) : list string := splitlines_from EmptyString s.

(** [s.lstrip(chars)] and [s.rstrip(chars)], for the set of characters that
    [drop] accepts. *)
Fixpoint lstrip_by (drop : ascii -> bool) (s : string) : string :=
  match s with
  | EmptyString => EmptyString
  | String c s' => if drop c then lstrip_by drop s' else s
  end.

Fixpoint rstrip_by (drop : ascii -> bool) (s : string) : string :=
  match s with
  | EmptyString => EmptyString
  | String c s' =>
      let r := rstrip_by drop s' in
      if drop c && String.eqb r "" then EmptyString else String c r
  end.

Definition strip_by (drop : ascii -> bool) (s : string) : string :=
  lstrip_by drop (rstrip_by drop s).

(** [s.strip()]. *)
Definition py_strip (s : string) : string := strip_by py_isspace s.

(** [s.split()]: the maximal runs of characters that are not whitespace. *)
Fixpoint split_from (cur : string) (s : string) : list string :=
  match s with
  | EmptyString => flush cur
  | String c s' =>
      if py_isspace c then flush cur ++ split_from EmptyString s'
      else split_from (String c cur) s'
  end.

Definition py_split (s : string) : list string := split_from EmptyString s.

(** [_parse_urls]. *)
Definition _parse_urls (raw : string) : list string :=
  if String.eqb raw "" then []
  else
    let lines := List.map py_strip (py_splitlines raw) in
    let tokens :=
      fold_left
        (fun tokens line => if String.eqb line "" then tokens else tokens ++ py_split line)
        lines [] in
    List.filter (fun t => negb (String.eqb t "")) tokens.

(** No character of [s] is whitespace. *)
Fixpoint no_space (s : string) : bool :=
  match s with
  | EmptyString => true
  | String c s' => negb (py_isspace c) && no_space s'
  end.

(** The JSON body of a submission, as far as [api_download] reads it: the
    keys [urls] and [format], each a string when present. *)
Record payload := Payload { p_urls : option string; p_format : option string }.

(** [api_download].  The result is the job id of the response together with
    the tasks handed to [background_tasks], which run once the response is
    sent. *)
Definition api_download (body : payload) : M (string * list table_call) :=
  let urls := _parse_urls (default "" (p_urls body)) in
  let fmt := default "mp3" (p_format body) in
  if bool_decide (urls = []) then
    raise (Exn (HTTPException 400) "Please provide at least one valid URL.")
  else if negb (String.eqb fmt "mp3" || String.eqb fmt "mp4") then
    raise (Exn (HTTPException 400) "Unsupported format. Choose mp3 or mp4.")
  else
    job_id ← _new_job urls fmt;
    mret (job_id, [CallDownloadJob job_id]).

(** ** app.py: serving a file *)

(** [A-Za-z0-9]. *)
Definition is_alnum (c : ascii) : bool :=
  let n := nat_of_ascii c in
  ((48 <=? n) && (n <=? 57) || (65 <=? n) && (n <=? 90) || (97 <=? n) && (n <=? 122))%nat.

(** The characters of [._-]. *)
Definition is_dot_dash (c : ascii) : bool :=
  Ascii.eqb c "."%char || Ascii.eqb c "_"%char || Ascii.eqb c "-"%char.

(** The class [[A-Za-z0-9._-]]. *)
Definition is_safe_char (c : ascii) : bool := is_alnum c || is_dot_dash c.

(** [s.encode("ascii", "ignore").decode("ascii")] on the code points of
    [s]: those from 128 on are dropped. *)
Fixpoint ascii_ignore (code_points : list N) : string :=
  match code_points with
  | [] => EmptyString
  | cp :: rest =>
      if (cp <? 128)%N then String (ascii_of_N cp) (ascii_ignore rest)
      else ascii_ignore rest
  end.

(** [re.sub(r"[^A-Za-z0-9._-]", "_", s)]. *)
Fixpoint sub_unsafe (s : string) : string :=
  match s with
  | EmptyString => EmptyString
  | String c s' => String (if is_safe_char c then c else "_"%char) (sub_unsafe s')
  end.

(** [_safe_filename].  [nfkd] is [unicodedata.normalize("NFKD", _)], which
    gives the code points of the normal form. *)
Definition _safe_filename (nfkd : string -> list N) (name : string) (fallback : string)
  : string :=
  if String.eqb name "" then fallback
  else
    let normalized := nfkd name in
    let ascii_name := ascii_ignore normalized in
    let ascii_name := sub_unsafe ascii_name in
    let ascii_name := strip_by is_dot_dash ascii_name in
    if String.eqb ascii_name "" then fallback else ascii_name.

(** Every character of [s] passes [p]. *)
Fixpoint str_forall (p : ascii -> bool) (s : string) : bool :=
  match s with
  | EmptyString => true
  | String c s' => p c && str_forall p s'
  end.

Definition str_first (s : string) : option ascii :=
  match s with
  | EmptyString => None
  | String c _ => Some c
  end.

Fixpoint str_last (s : string) : option ascii :=
  match s with
  | EmptyString => None
  | String c s' => match str_last s' with Some l => Some l | None => Some c end
  end.

(** A name that can stand between the quotes of a [Content-Disposition]
    header: not empty, of letters, digits, [.], [_] and [-] only, with a
    letter or digit at both ends. *)
Definition header_safe (s : string) : Prop :=
  str_forall is_safe_char s = true
  /\ (exists c, str_first s = Some c /\ is_alnum c = true)
  /\ (exists c, str_last s = Some c /\ is_alnum c = true).

(** The double quote. *)
Definition dquote : string := String "034"%char EmptyString.

(** The [FileResponse] of [api_files] and [api_zip]. *)
Record file_response := FileResponse {
  f_path : string;
  f_filename : string;
  f_media_type : string;
  f_content_disposition : string
}.

(** [api_files]. *)
Definition api_files (nfkd : string -> list N) (job_id : string) (file_index : Z)
  : M file_response :=
  job ← jobs_get job_id;
  match job with
  | None => raise (Exn (HTTPException 404) "Job not found.")
  | Some job =>
      let files := job_files job in
      if decide (file_index < 0 \/ file_index >= Z.of_nat (length files)) then
        raise (Exn (HTTPException 404) "File not found.")
      else
        match py_index file_index (length files) ≫= (files !!.) with
        | None => raise (Exn IndexError "list index out of range")
        | Some file_path =>
            here ← path_exists file_path;
            if negb here then raise (Exn (HTTPException 404) "File not found.")
            else
              let name := _safe_filename nfkd (path_name file_path) "download" in
              mret (FileResponse file_path name "application/octet-stream"
                      ("attachment; filename=" +:+ dquote +:+ name +:+ dquote))
        end
  end.

(** ** app.py: the archive of a job

    [_build_zip] is the one place of [app.py] that writes a file, so
    [api_zip] is modelled over a disk of its own: the paths that exist, and
    for an archive the entries written to it. *)

Inductive file_content :=
| Plain
| Archive (entries : list (string * string)).

(** The disk: what exists under each path.  An archive entry is the pair of
    its [arcname] and the path it was read from. *)
Definition disk := dict file_content.

(** [Path(p).exists()]. *)
Definition disk_exists (p : string) (d : disk) : bool :=
  bool_decide (is_Some (dict_get p d)).

(** [zipf.write(path, arcname=...)] on the archive at [zip_path]. *)
Definition archive_add (zip_path : string) (entry : string * string) (d : disk) : disk :=
  match dict_get zip_path d with
  | Some (Archive entries) => dict_set zip_path (Archive (entries ++ [entry])) d
  | _ => d
  end.

(** [for file_path in files: ...] inside the [with zipfile.ZipFile(...)];
    writing a file that exists is taken to succeed. *)
Fixpoint zip_write (zip_path : string) (files : list string) (d : disk) : disk :=
  match files with
  | [] => d
  | file_path :: rest =>
      if disk_exists file_path d
      then zip_write zip_path rest (archive_add zip_path (path_name file_path, file_path) d)
      else zip_write zip_path rest d
  end.

(** [_build_zip]: [zipfile.ZipFile(zip_path, "w", ...)] creates the archive,
    empty, before the loop runs. *)
Definition _build_zip (E : env) (job_id : string) (files : list string) (d : disk)
  : string * disk :=
  let zip_path := path_join (DATA_DIR E) (job_id +:+ ".zip") in
  if disk_exists zip_path d then (zip_path, d)
  else (zip_path, zip_write zip_path files (dict_set zip_path (Archive []) d)).

(** [api_zip], for the table [jobs] found under the lock. *)
Definition api_zip (E : env) (jobs : dict job) (job_id : string) (d : disk)
  : result file_response * disk :=
  match dict_get job_id jobs with
  | None => (Raise (Exn (HTTPException 404) "Job not found."), d)
  | Some job =>
      if negb (String.eqb (job_status job) "finished") then
        (Raise (Exn (HTTPException 400) "Job not finished yet."), d)
      else
        let files := job_files job in
        if bool_decide (files = []) then
          (Raise (Exn (HTTPException 404) "No files to zip."), d)
        else
          let (zip_path, d) := _build_zip E job_id files d in
          if negb (disk_exists zip_path d) then
            (Raise (Exn (HTTPException 404) "Zip file not found."), d)
          else
            (Ok (FileResponse zip_path (job_id +:+ ".zip") "application/zip"
                   ("attachment; filename=" +:+ dquote +:+ job_id +:+ ".zip" +:+ dquote)),
             d)
  end.

(** The entries of a fresh archive for [files]: one for each file that
    exists, the archive itself among them should it be listed. *)
Definition zip_entries (zip_path : string) (files : list string) (d : disk)
  : list (string * string) :=
  List.map (fun f => (path_name f, f))
    (List.filter (fun f => disk_exists f d || String.eqb f zip_path) files).

(** ** helper.py: the cookie file *)

(** The process environment and the temporary directory, as the helper
    sees them: the two variables, the names [NamedTemporaryFile] hands out,
    and the paths for which [os.remove] fails with an [OSError]. *)
Record cookie_env := CookieEnv {
  YTDLP_COOKIES_FILE : option string;
  YTDLP_COOKIES_TEXT : option string;
  tmp_name_at : nat -> string;
  remove_fails : string -> bool
}.

(** The text files of the disk, and the number of temporary files made so
    far. *)
Record textfs := Textfs { text_files : dict string; tmp_calls : nat }.

(** Truth of a [str | None]. *)
Definition str_truthy (s : option string) : bool :=
  match s with
  | Some s => negb (String.eqb s "")
  | None => false
  end.

(** [_get_cookies_file]. *)
Definition _get_cookies_file (C : cookie_env) (fs : textfs) : option string * textfs :=
  let cookies_file := YTDLP_COOKIES_FILE C in
  if str_truthy cookies_file then (cookies_file, fs)
  else
    let cookies_text := YTDLP_COOKIES_TEXT C in
    if negb (str_truthy cookies_text) then (None, fs)
    else
      let tmp_name := tmp_name_at C (tmp_calls fs) in
      (Some tmp_name,
       Textfs (dict_set tmp_name (default "" cookies_text) (text_files fs)) (S (tmp_calls fs))).

(** [os.remove(path)] inside [try ... except OSError: pass]: a path that
    does not exist is an [OSError] as well. *)
Definition remove_pass (C : cookie_env) (path : string) (fs : textfs) : textfs :=
  if remove_fails C path then fs
  else Textfs (dict_pop path (text_files fs)) (tmp_calls fs).

(** [_cleanup_cookies_file]. *)
Definition _cleanup_cookies_file (C : cookie_env) (path : option string) (fs : textfs)
  : textfs :=
  if negb (str_truthy path) then fs
  else if str_truthy (YTDLP_COOKIES_FILE C) then fs
  else remove_pass C (default "" path) fs.

(** [download_media] with its cookie file: the file is obtained first, the
    rest of the body runs inside [try], and [finally] cleans up whether the
    body returns or raises. *)
Definition download_media_with_cookies (C : cookie_env)
    (video_urls : list string + string) (mode : string)
    (progress_hook : option ProgressHook) (E : env) (s : world * textfs)
  : result (list string) * (world * textfs) :=
  let (cookies_file_for_job, fs) := _get_cookies_file C s.2 in
  let (r, w) := download_media video_urls mode progress_hook E s.1 in
  (r, (w, _cleanup_cookies_file C cookies_file_for_job fs)).

(** ** Calls, by what they are *)

(** The job id a critical section of the runner addresses. *)
Definition op_job_id (o : table_op) : string :=
  match o with
  | OpUpdate job_id _ => job_id
  | OpProgress job_id _ _ _ => job_id
  end.



(** * Properties *)

(** ** Python values *)

Example path_name_examples :
  path_name "/app/tmp_downloads/0a/My Song.mp3" = "My Song.mp3"
  /\ path_name "a/b/" = "b" /\ path_name "." = "".
Proof. repeat split; reflexivity. Qed.

Example py_index_examples :
  py_index 1 3 = Some 1%nat /\ py_index (-1) 3 = Some 2%nat
  /\ py_index 3 3 = None /\ py_index (-4) 3 = None.
Proof. repeat split; reflexivity. Qed.

Example py_round2_examples :
  (py_round2 ((1 # 3) * 100) == 33.33)%Q /\ (py_round2 (1 # 8) == 0.12)%Q
  /\ (py_round2 (3 # 8) == 0.38)%Q.
Proof. repeat split; reflexivity. Qed.

Example percent_from_progress_examples :
  _percent_from_progress (Progress (Some "downloading") None (Some 1) (Some 3) None)
    = Some 33.33%Q
  /\ _percent_from_progress (Progress (Some "downloading") None (Some 1) (Some 0) (Some 4))
    = Some 25%Q
  /\ _percent_from_progress (Progress (Some "downloading") None (Some 0) (Some 3) None) = None
  /\ _percent_from_progress (Progress (Some "downloading") None (Some 1) None None) = None.
Proof. repeat split; reflexivity. Qed.

(** ** The dictionary *)

Section dict_facts.
Context {V : Type}.
Implicit Types (d : dict V) (k : string) (v : V).

Lemma dict_get_set_eq k v d : dict_get k (dict_set k v d) = Some v.
Proof.
  induction d as [|[k' v'] d IH]; simpl.
  - by rewrite String.eqb_refl.
  - destruct (String.eqb k k') eqn:Hk; simpl; rewrite ?String.eqb_refl, ?Hk; auto.
Qed.

Lemma dict_get_set_ne k k' v d : k <> k' -> dict_get k' (dict_set k v d) = dict_get k' d.
Proof.
  intros Hne. induction d as [|[k0 v0] d IH]; simpl.
  - apply not_eq_sym, String.eqb_neq in Hne. by rewrite Hne.
  - destruct (String.eqb k k0) eqn:Hk; simpl.
    + apply String.eqb_eq in Hk as <-.
      apply not_eq_sym, String.eqb_neq in Hne. by rewrite Hne.
    + by rewrite IH.
Qed.

Lemma dict_get_pop_eq k d : dict_get k (dict_pop k d) = None.
Proof.
  unfold dict_pop. induction d as [|[k' v'] d IH]; simpl; [done|].
  destruct (String.eqb k k') eqn:Hk; simpl; [done|]. by rewrite Hk.
Qed.

Lemma dict_get_pop_ne k k' d : k <> k' -> dict_get k' (dict_pop k d) = dict_get k' d.
Proof.
  intros Hne. unfold dict_pop. induction d as [|[k0 v0] d IH]; simpl; [done|].
  destruct (String.eqb k k0) eqn:Hk; simpl.
  - apply String.eqb_eq in Hk as <-.
    apply not_eq_sym, String.eqb_neq in Hne. by rewrite Hne.
  - by rewrite IH.
Qed.

Lemma dict_set_set k v v' d : dict_set k v' (dict_set k v d) = dict_set k v' d.
Proof.
  induction d as [|[k0 v0] d IH]; simpl.
  - by rewrite String.eqb_refl.
  - destruct (String.eqb k k0) eqn:Hk; simpl; rewrite ?String.eqb_refl, ?Hk; [done|].
    by rewrite IH.
Qed.

Lemma dict_get_None_keys k d : dict_get k d = None <-> ~ In k (dict_keys d).
Proof.
  induction d as [|[k0 v0] d IH]; simpl; [tauto|].
  destruct (String.eqb_spec k k0) as [->|Hne].
  - split; [done|]. intros H. destruct H. by left.
  - rewrite IH. split; [|tauto]. intros H [Heq|Hin]; [by subst|tauto].
Qed.

Lemma dict_get_In k v d : dict_get k d = Some v -> In (k, v) d.
Proof.
  induction d as [|[k0 v0] d IH]; simpl; [done|].
  destruct (String.eqb_spec k k0) as [->|Hne]; [|by auto].
  intros [= ->]. by left.
Qed.

Lemma dict_In_get k v d : dict_wf d -> In (k, v) d -> dict_get k d = Some v.
Proof.
  unfold dict_wf. induction d as [|[k0 v0] d IH]; simpl; [done|].
  intros Hnd%NoDup_cons [[= -> ->]|Hin].
  - by rewrite String.eqb_refl.
  - destruct Hnd as [Hk0 Hnd]. destruct (String.eqb_spec k k0) as [->|Hne]; [|by auto].
    destruct Hk0. apply list_elem_of_In. apply (in_map fst) in Hin. done.
Qed.

End dict_facts.

(** ** The progress hook *)

Lemma progress_hook_run E w job_id j item_index status info :
  dict_get job_id (_jobs w) = Some j ->
  progress_hook job_id item_index status info E w =
    let (r, items) := progress_hook_items item_index status info (job_items j) in
    (match r with Ok _ => Ok tt | Raise e => Raise e end,
     world_set_jobs (dict_set job_id (job_set_items items j) (_jobs w)) w).
Proof.
  intros Hj. unfold progress_hook, mbind, M_bind, jobs_get. rewrite Hj.
  destruct (progress_hook_items _ _ _ _) as [[[]|e] items]; reflexivity.
Qed.

Lemma progress_hook_absent E w job_id item_index status info :
  dict_get job_id (_jobs w) = None ->
  progress_hook job_id item_index status info E w = (Ok tt, w).
Proof.
  intros Hj. unfold progress_hook, mbind, M_bind, jobs_get. by rewrite Hj.
Qed.

Lemma py_index_in_range i n :
  0 <= i < Z.of_nat n -> py_index i n = Some (Z.to_nat i).
Proof. intros H. unfold py_index. by rewrite decide_True. Qed.

Lemma py_index_negative i n :
  - Z.of_nat n <= i < 0 -> py_index i n = Some (Z.to_nat (Z.of_nat n + i)).
Proof.
  intros H. unfold py_index. rewrite decide_False by lia. by rewrite decide_True.
Qed.

Lemma py_index_outside i n :
  Z.of_nat n <= i \/ i < - Z.of_nat n -> py_index i n = None.
Proof.
  intros H. unfold py_index. rewrite decide_False by lia. by rewrite decide_False by lia.
Qed.

Lemma info_truthy_keys i :
  is_Some (info_filename i) \/ is_Some (info_percent i) -> info_truthy (Some i) = true.
Proof.
  intros [H|H]; unfold info_truthy.
  - by rewrite (bool_decide_eq_true_2 _ H).
  - rewrite (bool_decide_eq_true_2 _ H). by rewrite orb_true_r.
Qed.

(** Two writes to the same index. *)
Lemma alter_alter {A} (f g : A -> A) (i : nat) (l : list A) :
  alter f i (alter g i l) = alter (fun x => f (g x)) i l.
Proof. apply (list_alter_alter_eq f g). Qed.


(** In range the hook rewrites exactly the item it addresses. *)
Lemma progress_hook_items_in_range item_index status info items :
  0 <= item_index < Z.of_nat (length items) ->
  progress_hook_items item_index status info items =
    (Ok tt, alter (hook_write status info) (Z.to_nat item_index) items).
Proof.
  intros Hr. unfold progress_hook_items, hook_write, info_write, item_assign.
  rewrite decide_True by done.
  destruct info as [i|]; [|done].
  destruct (info_truthy (Some i)); [|done].
  destruct (info_filename i) as [f|], (info_percent i) as [p|];
    rewrite ?length_alter, ?py_index_in_range by (rewrite ?length_alter; done);
    by rewrite ?alter_alter.
Qed.


(** C10. The range test of the progress hook covers the status write only.
    With an [info] that has a [filename] or a [percent], an index at or past
    the end raises [IndexError] and leaves the job as it was; a negative
    index within the list writes no status but writes [filename] and
    [percent] to the item counted from the end; without these two keys an
    index outside the range is a silent no-op. *)
Theorem progress_hook_index_unguarded E w job_id j item_index status i :
  dict_get job_id (_jobs w) = Some j ->
  is_Some (info_filename i) \/ is_Some (info_percent i) ->
  (Z.of_nat (length (job_items j)) <= item_index ->
     exists w',
       progress_hook job_id item_index status (Some i) E w
         = (Raise (Exn IndexError "list index out of range"), w')
       /\ dict_get job_id (_jobs w') = Some j)
  /\ (- Z.of_nat (length (job_items j)) <= item_index < 0 ->
     exists w' j',
       progress_hook job_id item_index status (Some i) E w = (Ok tt, w')
       /\ dict_get job_id (_jobs w') = Some j'
       /\ job_items j' =
            alter (info_write i)
              (Z.to_nat (Z.of_nat (length (job_items j)) + item_index)) (job_items j)
       /\ List.map item_status (job_items j') = List.map item_status (job_items j))
  /\ (forall info' : option info_dict,
        info' = None \/ info' = Some (Info None None (info_other_keys i)) ->
        ~ 0 <= item_index < Z.of_nat (length (job_items j)) ->
        exists w',
          progress_hook job_id item_index status info' E w = (Ok tt, w')
          /\ dict_get job_id (_jobs w') = Some j).
Proof.
  intros Hj Hkeys. pose proof (info_truthy_keys i Hkeys) as Htr.
  assert (Hsame : forall its, its = job_items j -> job_set_items its j = j)
    by (intros its ->; by destruct j).
  split; [|split].
  - intros Hge. rewrite (progress_hook_run _ _ _ _ _ _ _ Hj).
    unfold progress_hook_items. rewrite decide_False by lia. rewrite Htr.
    unfold item_assign.
    destruct (info_filename i) as [f|] eqn:Hf, (info_percent i) as [p|] eqn:Hp;
      simpl; rewrite ?py_index_outside by lia.
    4: { destruct Hkeys as [[? ?]|[? ?]]; done. }
    all: eexists; split; [reflexivity|]; simpl; rewrite dict_get_set_eq; by rewrite Hsame.
  - intros Hneg. rewrite (progress_hook_run _ _ _ _ _ _ _ Hj).
    unfold progress_hook_items. rewrite decide_False by lia. rewrite Htr.
    unfold item_assign, info_write.
    assert (Hst : forall (g : item -> item) n, (forall it, item_status (g it) = item_status it) ->
              List.map item_status (alter g n (job_items j)) = List.map item_status (job_items j)).
    { intros g n Hg. change (item_status <$> alter g n (job_items j) = item_status <$> job_items j).
      rewrite (list_fmap_alter item_status g id); [by rewrite list_alter_id|].
      apply Forall_forall. intros it _. apply Hg. }
    destruct (info_filename i) as [f|] eqn:Hf, (info_percent i) as [p|] eqn:Hp;
      rewrite ?length_alter, ?py_index_negative by (rewrite ?length_alter; lia);
      rewrite ?alter_alter.
    4: { destruct Hkeys as [[? ?]|[? ?]]; done. }
    all: eexists _, _; split; [reflexivity|]; simpl; rewrite dict_get_set_eq;
      split; [reflexivity|]; simpl; rewrite ?length_alter, ?alter_alter;
      split; [done|]; by apply Hst.
  - intros info' Hinfo Hout. rewrite (progress_hook_run _ _ _ _ _ _ _ Hj).
    unfold progress_hook_items. rewrite decide_False by lia.
    destruct Hinfo as [->| ->].
    + eexists. split; [reflexivity|]. simpl. rewrite dict_get_set_eq. by rewrite Hsame.
    + simpl. destruct (negb _); simpl;
        (eexists; split; [reflexivity|]; simpl; rewrite dict_get_set_eq; by rewrite Hsame).
Qed.

(** The hook called past the end of a two-item job. *)
Lemma progress_hook_index_unguarded_witness :
  exists w',
    progress_hook "0a" 2 "completed" (Some (Info None (Some 100%Q) [])) env_A_only world_AB_queued
      = (Raise (Exn IndexError "list index out of range"), w')
    /\ dict_get "0a" (_jobs w') = dict_get "0a" (_jobs world_AB_queued).
Proof.
  pose proof (progress_hook_index_unguarded env_A_only world_AB_queued "0a"
         (Job "0a" "queued" "mp3" ["A"; "B"]
            [Item "A" "queued" 0 None; Item "B" "queued" 0 None] [] None
            "2024-05-01T10:00:00Z" "2024-05-01T10:00:00Z" 1714557600000000)
         2 "completed" (Info None (Some 100%Q) []) eq_refl
         (or_intror (ex_intro _ 100%Q eq_refl))) as [H _].
  apply H. simpl. lia.
Defined.

(** ** Updates of a job *)

Lemma update_job_run E w job_id j u :
  dict_get job_id (_jobs w) = Some j ->
  _update_job job_id u E w =
    (Ok tt,
     World
       (dict_set job_id
          (job_set_updated_at (isoformat (utcnow_at E (utcnow_calls w)) +:+ "Z")
             (job_update u j)) (_jobs w))
       (S (utcnow_calls w)) (uuid4_calls w) (fs_log w)).
Proof.
  intros Hj. unfold _update_job, mbind, M_bind, jobs_get. rewrite Hj. reflexivity.
Qed.

Lemma update_job_absent E w job_id u :
  dict_get job_id (_jobs w) = None -> _update_job job_id u E w = (Ok tt, w).
Proof.
  intros Hj. unfold _update_job, mbind, M_bind, jobs_get. by rewrite Hj.
Qed.

(** C2, as the code has it.  [_update_job] has no test of the job's status:
    for a job in any status, terminal or not, each of [status], [files] and
    [error] holds the value named in the call afterwards, and keeps its
    value when the call does not name it. *)
Theorem update_job_writes_named_fields E w job_id j u :
  dict_get job_id (_jobs w) = Some j ->
  exists w' j',
    _update_job job_id u E w = (Ok tt, w')
    /\ dict_get job_id (_jobs w') = Some j'
    /\ job_status j' = default (job_status j) (upd_status u)
    /\ job_files j' = default (job_files j) (upd_files u)
    /\ job_error j' = default (job_error j) (upd_error u).
Proof.
  intros Hj. rewrite (update_job_run _ _ _ _ _ Hj).
  eexists _, _. split; [reflexivity|]. simpl. rewrite dict_get_set_eq.
  split; [reflexivity|]. done.
Qed.

(** A finished job re-opened: an update that names none of the three
    fields leaves them alone. *)
Lemma update_job_writes_named_fields_witness :
  exists w' j',
    _update_job "0a" (Updates None None None) env_A_only world_A_finished = (Ok tt, w')
    /\ dict_get "0a" (_jobs w') = Some j'
    /\ job_status j' = "finished"
    /\ job_files j' = ["/app/tmp_downloads/0a/A.mp3"]
    /\ job_error j' = None.
Proof.
  exact (update_job_writes_named_fields env_A_only world_A_finished "0a"
           (Job "0a" "finished" "mp3" ["A"]
              [Item "A" "completed" 100 (Some "A.mp3")]
              ["/app/tmp_downloads/0a/A.mp3"] None
              "2024-05-01T10:00:00Z" "2024-05-01T10:00:02Z" 1714557600000000)
           (Updates None None None) eq_refl).
Defined.

(** C2 fails as stated: a finished job is set back to [running], its files
    are dropped and an error is set, by one more [_update_job]. *)
Lemma update_job_changes_finished_job :
  exists j j',
    dict_get "0a" (_jobs world_A_finished) = Some j
    /\ job_status j = "finished"
    /\ dict_get "0a"
         (_jobs (_update_job "0a" (Updates (Some "running") (Some []) (Some (Some "late")))
                   env_A_only world_A_finished).2) = Some j'
    /\ job_status j' = "running" /\ job_status j' <> job_status j
    /\ job_files j' = [] /\ job_files j' <> job_files j
    /\ job_error j' = Some "late" /\ job_error j' <> job_error j.
Proof.
  eexists _, _. split; [reflexivity|]. split; [reflexivity|].
  split; [reflexivity|]. simpl. repeat split; done.
Qed.

(** ** Properties kept by the computations *)

Section keeps_facts.
Context (P : env -> world -> Prop).

Lemma keeps_ret {A} (a : A) : keeps P (mret a).
Proof. by intros E w. Qed.

Lemma keeps_raise {A} (e : exn) : keeps P (@raise A e).
Proof. by intros E w. Qed.

Lemma keeps_bind {A B} (m : M A) (k : A -> M B) :
  keeps P m -> (forall a, keeps P (k a)) -> keeps P (m ≫= k).
Proof.
  intros Hm Hk E w HP. unfold mbind, M_bind.
  specialize (Hm E w HP). destruct (m E w) as [[a|e] w1]; simpl in *; [|done].
  by apply Hk.
Qed.

Lemma keeps_try_except {A} (m : M A) catches (h : exn -> M A) :
  keeps P m -> (forall e, keeps P (h e)) -> keeps P (try_except m catches h).
Proof.
  intros Hm Hh E w HP. unfold try_except.
  specialize (Hm E w HP). destruct (m E w) as [[a|e] w1]; simpl in *; [done|].
  destruct (catches e); simpl; [by apply Hh|done].
Qed.

Lemma keeps_ask : keeps P ask.
Proof. by intros E w. Qed.
Lemma keeps_jobs_get k : keeps P (jobs_get k).
Proof. by intros E w. Qed.
Lemma keeps_jobs_values : keeps P jobs_values.
Proof. by intros E w. Qed.
Lemma keeps_jobs_items : keeps P jobs_items.
Proof. by intros E w. Qed.
Lemma keeps_path_exists p : keeps P (path_exists p).
Proof. by intros E w. Qed.
Lemma keeps_path_glob p : keeps P (path_glob p).
Proof. by intros E w. Qed.

End keeps_facts.

Create HintDb keeps.

#[export] Hint Resolve keeps_ret keeps_raise keeps_ask keeps_jobs_get keeps_jobs_values
  keeps_jobs_items keeps_path_exists keeps_path_glob : keeps.

(** A property that the clock, the file system and the four writers of the
    table keep is kept by the runner, by the cleaner and by any sequence of
    calls. *)
Section table_invariant.
Context (P : env -> world -> Prop).
Hypothesis P_utcnow : keeps P utcnow.
Hypothesis P_fs_attempt : forall op, keeps P (fs_attempt op).
Hypothesis P_jobs_pop : forall k, keeps P (jobs_pop k).
Hypothesis P_new_job : forall urls fmt, keeps P (_new_job urls fmt).
Hypothesis P_update_job : forall k u, keeps P (_update_job k u).
Hypothesis P_progress_hook : forall k i s info, keeps P (progress_hook k i s info).

Lemma keeps_run_hooks (hook : progress_dict -> M unit) events :
  (forall d, keeps P (hook d)) -> keeps P (run_hooks hook events).
Proof.
  intros Hh. induction events as [|d events IH]; cbn [run_hooks]; [auto with keeps|].
  apply keeps_bind; auto.
Qed.

Lemma keeps_call_hook k index s info :
  keeps P (call_hook (Some (progress_hook k)) index s info).
Proof. apply P_progress_hook. Qed.

Lemma keeps_progress k index d :
  keeps P (_progress (Some (progress_hook k)) index d).
Proof.
  unfold _progress. case_bool_decide; [|auto with keeps].
  apply P_progress_hook.
Qed.

Lemma keeps_download_loop k urls : forall index output_files,
  keeps P (download_loop (Some (progress_hook k)) index urls output_files).
Proof.
  induction urls as [|u urls IH]; intros index out; cbn [download_loop]; [auto with keeps|].
  apply keeps_bind.
  - apply keeps_try_except.
    + unfold ydl_extract_info. apply keeps_bind; [auto with keeps|]. intros E.
      apply keeps_bind.
      * apply keeps_run_hooks. intros d. apply keeps_progress.
      * intros _. destruct (fr_end _); auto with keeps.
    + intros e. apply keeps_bind; [apply keeps_call_hook|auto with keeps].
  - intros _. apply keeps_bind.
    + unfold newest_new_file. apply keeps_bind; auto with keeps.
    + intros [newest|]; (apply keeps_bind; [apply keeps_call_hook|auto]).
Qed.

Lemma keeps_download_media k video_urls mode :
  keeps P (download_media video_urls mode (Some (progress_hook k))).
Proof.
  unfold download_media. destruct (negb _); [auto with keeps|].
  apply keeps_bind; [auto with keeps|]. intros E. apply keeps_download_loop.
Qed.

Lemma keeps_download_job k : keeps P (_download_job k).
Proof.
  unfold _download_job. apply keeps_bind; [auto with keeps|].
  intros [j|]; [|auto with keeps].
  apply keeps_bind; [apply P_update_job|]. intros _.
  apply keeps_try_except.
  - apply keeps_bind; [apply keeps_download_media|].
    intros files. apply P_update_job.
  - intros e. apply P_update_job.
Qed.

Lemma keeps_cleanup_scan cutoff_ts snapshot : forall to_remove,
  keeps P (cleanup_scan cutoff_ts snapshot to_remove).
Proof.
  induction snapshot as [|[k j] snapshot IH]; intros to_remove; cbn [cleanup_scan];
    [auto with keeps|].
  destruct (_ && _); [|apply IH].
  apply keeps_bind; [auto with keeps|]. intros E.
  apply keeps_bind; [apply P_jobs_pop|intros _; apply IH].
Qed.

Lemma keeps_cleanup_children children : keeps P (cleanup_children children).
Proof.
  induction children as [|c children IH]; cbn [cleanup_children]; [auto with keeps|].
  apply keeps_bind; [|done].
  apply keeps_try_except; auto with keeps.
Qed.

Lemma keeps_cleanup_artifacts to_remove : keeps P (cleanup_artifacts to_remove).
Proof.
  induction to_remove as [|[k p] to_remove IH]; cbn [cleanup_artifacts]; [auto with keeps|].
  apply keeps_bind; [auto with keeps|]. intros here.
  apply keeps_bind.
  { destruct here; [|auto with keeps].
    apply keeps_bind; [auto with keeps|]. intros children.
    apply keeps_bind; [apply keeps_cleanup_children|]. intros _.
    apply keeps_try_except; auto with keeps. }
  intros _. apply keeps_bind; [auto with keeps|]. intros E.
  apply keeps_bind; [auto with keeps|]. intros zipped.
  apply keeps_bind; [|done].
  destruct zipped; [|auto with keeps]. apply keeps_try_except; auto with keeps.
Qed.

Lemma keeps_cleanup_old_jobs : keeps P _cleanup_old_jobs.
Proof.
  unfold _cleanup_old_jobs. apply keeps_bind; [auto with keeps|]. intros E.
  apply keeps_bind; [apply P_utcnow|]. intros now.
  apply keeps_bind; [auto with keeps|]. intros snapshot.
  apply keeps_bind; [apply keeps_cleanup_scan|]. intros to_remove.
  apply keeps_cleanup_artifacts.
Qed.

Lemma keeps_run_others ops : keeps P (run_others ops).
Proof.
  induction ops as [|o ops IH]; cbn [run_others]; [auto with keeps|].
  apply keeps_bind; [|done].
  apply keeps_try_except; [|auto with keeps].
  destruct o; [apply P_update_job|apply P_progress_hook].
Qed.

Lemma keeps_run_call c : keeps P (run_call c).
Proof.
  destruct c; cbn [run_call].
  - apply keeps_run_others.
  - apply keeps_bind; [apply P_new_job|auto with keeps].
  - apply keeps_download_job.
  - apply keeps_cleanup_old_jobs.
Qed.

Lemma keeps_run_calls E calls : forall w, P E w -> P E (run_calls E calls w).
Proof.
  induction calls as [|c calls IH]; intros w Hw; simpl; [done|].
  apply IH. by apply keeps_run_call.
Qed.

End table_invariant.

(** ** Items follow urls *)

Lemma follows_at_set id k j d :
  items_follow_urls j -> follows_at id d -> follows_at id (dict_set k j d).
Proof.
  intros Hj Hd j'. destruct (decide (k = id)) as [->|Hne].
  - rewrite dict_get_set_eq. by intros [= <-].
  - rewrite dict_get_set_ne by done. apply Hd.
Qed.

Lemma follows_at_pop id k d : follows_at id d -> follows_at id (dict_pop k d).
Proof.
  intros Hd j'. destruct (decide (k = id)) as [->|Hne].
  - by rewrite dict_get_pop_eq.
  - rewrite dict_get_pop_ne by done. apply Hd.
Qed.

(** Rewriting a bound job by a function that keeps the correspondence. *)
Lemma follows_at_rewrite id k j j' d :
  dict_get k d = Some j -> (items_follow_urls j -> items_follow_urls j') ->
  follows_at id d -> follows_at id (dict_set k j' d).
Proof.
  intros Hk Hjj' Hd j2. destruct (decide (k = id)) as [->|Hne].
  - rewrite dict_get_set_eq. intros [= <-]. by apply Hjj', Hd.
  - rewrite dict_get_set_ne by done. apply Hd.
Qed.

Lemma new_items_follow urls :
  List.map item_url (List.map (fun url => Item url "queued" 0 None) urls) = urls.
Proof. induction urls as [|u urls IH]; simpl; by rewrite ?IH. Qed.

Lemma item_assign_urls i f items :
  (forall it, item_url (f it) = item_url it) ->
  List.map item_url (item_assign i f items).2 = List.map item_url items.
Proof.
  intros Hf. unfold item_assign. destruct (py_index _ _) as [n|]; simpl; [|done].
  change (item_url <$> alter f n items = item_url <$> items).
  rewrite (list_fmap_alter item_url f id); [by rewrite list_alter_id|].
  apply Forall_forall. intros it _. apply Hf.
Qed.

Lemma progress_hook_items_urls i s info items :
  List.map item_url (progress_hook_items i s info items).2 = List.map item_url items.
Proof.
  unfold progress_hook_items.
  set (items1 := if decide _ then _ else items).
  assert (H1 : List.map item_url items1 = List.map item_url items).
  { unfold items1. case_decide; [|done].
    change (item_url <$> alter (item_set_status s) (Z.to_nat i) items = item_url <$> items).
    rewrite (list_fmap_alter item_url _ id); [by rewrite list_alter_id|].
    apply Forall_forall. by intros it _. }
  destruct info as [inf|]; [|done].
  destruct (info_truthy _); [|done].
  destruct (info_filename inf) as [f|].
  - pose proof (item_assign_urls i (item_set_filename (path_name f)) items1 (fun _ => eq_refl)) as H2.
    destruct (item_assign i (item_set_filename (path_name f)) items1) as [[[]|e] items2];
      simpl in *; [|congruence].
    destruct (info_percent inf) as [p|]; simpl; [|congruence].
    rewrite item_assign_urls by done. congruence.
  - destruct (info_percent inf) as [p|]; simpl; [|done].
    rewrite item_assign_urls by done. done.
Qed.

Lemma keeps_follows_new_job id urls fmt :
  keeps (on_jobs (follows_at id)) (_new_job urls fmt).
Proof.
  intros E w HQ. unfold on_jobs in *. simpl.
  apply follows_at_set; [|done].
  unfold items_follow_urls. simpl. apply new_items_follow.
Qed.

Lemma keeps_follows_update_job id k u :
  keeps (on_jobs (follows_at id)) (_update_job k u).
Proof.
  intros E w HQ. unfold on_jobs in *. destruct (dict_get k (_jobs w)) as [j|] eqn:Hk.
  - rewrite (update_job_run _ _ _ _ _ Hk). simpl.
    eapply follows_at_rewrite; eauto.
  - by rewrite (update_job_absent _ _ _ _ Hk).
Qed.

Lemma keeps_follows_progress_hook id k i s info :
  keeps (on_jobs (follows_at id)) (progress_hook k i s info).
Proof.
  intros E w HQ. unfold on_jobs in *. destruct (dict_get k (_jobs w)) as [j|] eqn:Hk.
  - rewrite (progress_hook_run _ _ _ _ _ _ _ Hk).
    pose proof (progress_hook_items_urls i s info (job_items j)) as Hu.
    destruct (progress_hook_items _ _ _ _) as [r items]. simpl in *.
    eapply follows_at_rewrite; eauto.
    unfold items_follow_urls. simpl. congruence.
  - by rewrite (progress_hook_absent _ _ _ _ _ _ Hk).
Qed.

(** The clock and the deletions leave the table alone. *)
Lemma keeps_on_jobs_utcnow Q : keeps (on_jobs Q) utcnow.
Proof. by intros E w. Qed.

Lemma keeps_on_jobs_fs_attempt Q op : keeps (on_jobs Q) (fs_attempt op).
Proof. intros E w HQ. unfold fs_attempt. by destruct (fault_at _ _ _). Qed.

Lemma follows_at_run_calls id E calls w :
  follows_at id (_jobs w) -> follows_at id (_jobs (run_calls E calls w)).
Proof.
  apply (keeps_run_calls (on_jobs (follows_at id))).
  - apply keeps_on_jobs_utcnow.
  - apply keeps_on_jobs_fs_attempt.
  - intros k E0 w0. apply follows_at_pop.
  - apply keeps_follows_new_job.
  - apply keeps_follows_update_job.
  - apply keeps_follows_progress_hook.
Qed.

(** ** Ids come from uuid4 *)

Lemma dict_get_pop_Some {V} k k' (v : V) d :
  dict_get k' (dict_pop k d) = Some v -> dict_get k' d = Some v.
Proof.
  destruct (decide (k = k')) as [->|Hne].
  - by rewrite dict_get_pop_eq.
  - by rewrite dict_get_pop_ne.
Qed.

(** Rebinding a bound key binds no new key. *)
Lemma dict_get_set_bound {V} k k' (v v0 v' : V) d :
  dict_get k d = Some v0 -> dict_get k' (dict_set k v d) = Some v' ->
  is_Some (dict_get k' d).
Proof.
  intros Hk. destruct (decide (k = k')) as [->|Hne].
  - by rewrite Hk.
  - rewrite dict_get_set_ne by done. intros ->. done.
Qed.

Lemma keys_from_uuid4_run_calls E calls w :
  keys_from_uuid4 E w -> keys_from_uuid4 E (run_calls E calls w).
Proof.
  apply (keeps_run_calls keys_from_uuid4).
  - by intros E0 w0.
  - intros op E0 w0 H. unfold fs_attempt. by destruct (fault_at _ _ _).
  - intros k E0 w0 H k' j Hk'. simpl in Hk'. apply dict_get_pop_Some in Hk'. by apply H in Hk'.
  - intros urls fmt E0 w0 H k j. simpl.
    destruct (decide (uuid4_at E0 (uuid4_calls w0) = k)) as [<-|Hne].
    + intros _. exists (uuid4_calls w0). split; [lia|done].
    + rewrite dict_get_set_ne by done. intros Hk. apply H in Hk as (n & Hn & ->).
      exists n. split; [lia|done].
  - intros k u E0 w0 H k' j'. destruct (dict_get k (_jobs w0)) as [j|] eqn:Hk.
    + rewrite (update_job_run _ _ _ _ _ Hk). simpl. intros Hk'.
      destruct (dict_get_set_bound _ _ _ _ _ _ Hk Hk') as [j0 Hj0]. by apply H in Hj0.
    + rewrite (update_job_absent _ _ _ _ Hk). apply H.
  - intros k i s info E0 w0 H k' j'. destruct (dict_get k (_jobs w0)) as [j|] eqn:Hk.
    + rewrite (progress_hook_run _ _ _ _ _ _ _ Hk).
      destruct (progress_hook_items _ _ _ _) as [r items]. simpl. intros Hk'.
      destruct (dict_get_set_bound _ _ _ _ _ _ Hk Hk') as [j0 Hj0]. by apply H in Hj0.
    + rewrite (progress_hook_absent _ _ _ _ _ _ Hk). apply H.
Qed.

Lemma new_job_run E w urls fmt :
  _new_job urls fmt E w =
    (Ok (uuid4_at E (uuid4_calls w)),
     World
       (dict_set (uuid4_at E (uuid4_calls w))
          (Job (uuid4_at E (uuid4_calls w)) "queued" fmt urls
             (List.map (fun url => Item url "queued" 0 None) urls) [] None
             (isoformat (utcnow_at E (utcnow_calls w)) +:+ "Z")
             (isoformat (utcnow_at E (utcnow_calls w)) +:+ "Z")
             (timestamp (utcnow_at E (utcnow_calls w))))
          (_jobs w))
       (S (utcnow_calls w)) (S (uuid4_calls w)) (fs_log w)).
Proof. reflexivity. Qed.

Lemma ref_uuid4_inj m n : ref_uuid4 m = ref_uuid4 n -> m = n.
Proof.
  unfold ref_uuid4. simpl. intros [= H]. revert n H.
  induction m as [|m IH]; intros [|n]; simpl; try done.
  intros [= H]. f_equal. by apply IH.
Qed.

(** C5. In any state that the calls writing the table reach from process
    start, for a [uuid4] that never repeats, [_new_job] returns an id that
    is not in the table and binds it to a job with status [queued], no
    files, no error and one item per url, in the order of the urls, each
    [queued] with percent 0; the jobs under other ids stay as they were.
    After any further calls that write the table, whatever is bound to the
    id still has as many items as urls, in the same order.  This holds for
    every list of urls and every format. *)
Theorem new_job_queued_and_items_follow_urls E calls urls fmt :
  (forall m n, uuid4_at E m = uuid4_at E n -> m = n) ->
  exists job_id w' j,
    _new_job urls fmt E (run_calls E calls world0) = (Ok job_id, w')
    /\ dict_get job_id (_jobs (run_calls E calls world0)) = None
    /\ dict_get job_id (_jobs w') = Some j
    /\ job_status j = "queued" /\ job_files j = [] /\ job_error j = None
    /\ job_urls j = urls
    /\ job_items j = List.map (fun url => Item url "queued" 0 None) urls
    /\ (forall k, k <> job_id ->
          dict_get k (_jobs w') = dict_get k (_jobs (run_calls E calls world0)))
    /\ (forall calls' j',
          dict_get job_id (_jobs (run_calls E calls' w')) = Some j' ->
          length (job_items j') = length (job_urls j')
          /\ List.map item_url (job_items j') = job_urls j').
Proof.
  intros Hinj. set (w := run_calls E calls world0).
  assert (Hfresh : dict_get (uuid4_at E (uuid4_calls w)) (_jobs w) = None).
  { destruct (dict_get _ (_jobs w)) as [j|] eqn:Hj; [|done].
    assert (Hkeys : keys_from_uuid4 E w).
    { apply keys_from_uuid4_run_calls. by intros k j0. }
    apply Hkeys in Hj as (n & Hn & Heq). apply Hinj in Heq. lia. }
  rewrite new_job_run.
  eexists _, _, _. split; [reflexivity|]. simpl.
  split; [done|]. rewrite dict_get_set_eq. split; [reflexivity|]. simpl.
  do 5 (split; [done|]). split.
  - intros k Hk. by rewrite dict_get_set_ne.
  - intros calls' j' Hj'.
    assert (Hf : items_follow_urls j').
    { eapply (follows_at_run_calls _ E calls'); [|exact Hj']. simpl.
      apply follows_at_set; [|by intros j0; rewrite Hfresh].
      unfold items_follow_urls. simpl. apply new_items_follow. }
    split; [|exact Hf]. unfold items_follow_urls in Hf.
    rewrite <- Hf. by rewrite length_map.
Qed.

(** A second submission, after a first one. *)
Lemma new_job_queued_and_items_follow_urls_witness :
  exists job_id w' j,
    _new_job ["A"; "B"] "mp3" env0 (run_calls env0 [CallNewJob ["X"] "mp4"] world0)
      = (Ok job_id, w')
    /\ dict_get job_id (_jobs (run_calls env0 [CallNewJob ["X"] "mp4"] world0)) = None
    /\ dict_get job_id (_jobs w') = Some j
    /\ job_status j = "queued"
    /\ List.map item_url (job_items j) = ["A"; "B"].
Proof.
  destruct (new_job_queued_and_items_follow_urls env0 [CallNewJob ["X"] "mp4"]
              ["A"; "B"] "mp3" ref_uuid4_inj)
    as (job_id & w' & j & Hrun & Hfresh & Hj & Hst & _ & _ & _ & Hitems & _).
  exists job_id, w', j. rewrite Hitems. auto.
Defined.

(** ** The cleaner *)

(** Stepping through a computation whose first part is known. *)
Lemma bind_ok {A B} (m : M A) (k : A -> M B) E w a w1 :
  m E w = (Ok a, w1) -> (m ≫= k) E w = k a E w1.
Proof. intros H. unfold mbind, M_bind. by rewrite H. Qed.

Lemma bind_raise {A B} (m : M A) (k : A -> M B) E w e w1 :
  m E w = (Raise e, w1) -> (m ≫= k) E w = (Raise e, w1).
Proof. intros H. unfold mbind, M_bind. by rewrite H. Qed.

Lemma try_ok {A} (m : M A) c h E w a w1 :
  m E w = (Ok a, w1) -> try_except m c h E w = (Ok a, w1).
Proof. intros H. unfold try_except. by rewrite H. Qed.

Lemma try_caught {A} (m : M A) c h E w e w1 :
  m E w = (Raise e, w1) -> c e = true -> try_except m c h E w = h e E w1.
Proof. intros H Hc. unfold try_except. by rewrite H, Hc. Qed.

Lemma cleanup_scan_run E cutoff_ts snapshot : forall to_remove w,
  cleanup_scan cutoff_ts snapshot to_remove E w =
    (Ok (to_remove ++
         List.map (fun kj => (kj.1, path_join (DATA_DIR E) kj.1))
           (List.filter (fun kj => expired cutoff_ts kj.2) snapshot)),
     world_set_jobs (fold_left (scan_step cutoff_ts) snapshot (_jobs w)) w).
Proof.
  induction snapshot as [|[k j] snapshot IH]; intros to_remove w.
  - simpl. rewrite app_nil_r. by destruct w.
  - cbn [cleanup_scan fold_left List.filter]. unfold scan_step at 2. cbn [fst snd].
    change (negb (job_created_ts j =? 0) && (job_created_ts j <? cutoff_ts))
      with (expired cutoff_ts j).
    destruct (expired cutoff_ts j) eqn:Hexp.
    + rewrite (bind_ok ask _ E w E w eq_refl).
      rewrite (bind_ok (jobs_pop k) _ E w tt _ eq_refl).
      rewrite IH. cbn [List.map fst snd]. rewrite <- app_assoc. by destruct w.
    + apply IH.
Qed.

Lemma scan_keeps_None cutoff_ts id snapshot : forall d,
  dict_get id d = None -> dict_get id (fold_left (scan_step cutoff_ts) snapshot d) = None.
Proof.
  induction snapshot as [|[k j] snapshot IH]; intros d Hd; simpl; [done|].
  apply IH. unfold scan_step. destruct (expired _ _); [|done]. simpl.
  destruct (decide (k = id)) as [->|Hne].
  - apply dict_get_pop_eq.
  - by rewrite dict_get_pop_ne.
Qed.

Lemma scan_removes cutoff_ts id j snapshot : forall d,
  In (id, j) snapshot -> expired cutoff_ts j = true ->
  dict_get id (fold_left (scan_step cutoff_ts) snapshot d) = None.
Proof.
  induction snapshot as [|[k j0] snapshot IH]; intros d Hin Hexp; simpl; [done|].
  destruct Hin as [[= -> ->]|Hin]; [|by apply IH].
  apply scan_keeps_None. unfold scan_step. simpl. rewrite Hexp. apply dict_get_pop_eq.
Qed.

Lemma scan_keeps cutoff_ts id snapshot : forall d,
  (forall j, In (id, j) snapshot -> expired cutoff_ts j = false) ->
  dict_get id (fold_left (scan_step cutoff_ts) snapshot d) = dict_get id d.
Proof.
  induction snapshot as [|[k j0] snapshot IH]; intros d Hall; simpl; [done|].
  rewrite IH by (intros j Hj; apply Hall; by right).
  unfold scan_step. simpl. destruct (expired cutoff_ts j0) eqn:Hexp; [|done].
  apply dict_get_pop_ne. intros ->. specialize (Hall j0 (or_introl eq_refl)). congruence.
Qed.

Lemma cleanup_old_jobs_table E w :
  _jobs (_cleanup_old_jobs E w).2 = fold_left (scan_step (cutoff_at E w)) (_jobs w) (_jobs w).
Proof.
  unfold _cleanup_old_jobs.
  rewrite (bind_ok ask _ E w E w eq_refl).
  rewrite (bind_ok utcnow _ E w _ _ eq_refl).
  rewrite (bind_ok jobs_items _ E _ _ _ eq_refl).
  rewrite (bind_ok _ _ E _ _ _ (cleanup_scan_run _ _ _ _ _)).
  set (w1 := world_set_jobs _ _).
  change (fold_left _ _ _) with (_jobs w1).
  symmetry.
  apply (keeps_cleanup_artifacts (on_jobs (fun d => _jobs w1 = d))
           (keeps_on_jobs_fs_attempt _)).
  done.
Qed.

(** C6, as the code has it.  The scan tests [created_ts and created_ts <
    cutoff_ts].  After a sweep that starts in state [w], every job whose
    creation timestamp is not 0 and is older than the cutoff [now - TTL] is
    gone from the table, and it is gone once the scan under the lock is
    over, before any artifact is touched; every job whose creation
    timestamp is 0, or at or after the cutoff, is still bound to its id,
    unchanged; no id is bound that was not bound before. *)
Theorem cleanup_removes_expired_jobs E w job_id j :
  dict_wf (_jobs w) ->
  dict_get job_id (_jobs w) = Some j ->
  (job_created_ts j <> 0 /\ job_created_ts j < cutoff_at E w ->
     dict_get job_id (_jobs (_cleanup_old_jobs E w).2) = None
     /\ dict_get job_id
          (_jobs (cleanup_scan (cutoff_at E w) (dict_items (_jobs w)) [] E w).2) = None)
  /\ (job_created_ts j = 0 \/ cutoff_at E w <= job_created_ts j ->
     dict_get job_id (_jobs (_cleanup_old_jobs E w).2) = Some j)
  /\ (forall k, dict_get k (_jobs w) = None ->
        dict_get k (_jobs (_cleanup_old_jobs E w).2) = None).
Proof.
  intros Hwf Hj. rewrite cleanup_old_jobs_table, cleanup_scan_run. simpl.
  split; [|split].
  - intros [Hnz Hold].
    assert (dict_get job_id (fold_left (scan_step (cutoff_at E w)) (_jobs w) (_jobs w)) = None).
    { apply (scan_removes _ _ j); [by apply dict_get_In|].
      unfold expired. apply andb_true_intro. split.
      - apply negb_true_iff, Z.eqb_neq. done.
      - by apply Z.ltb_lt. }
    done.
  - intros Hkeep. rewrite scan_keeps; [done|].
    intros j' Hin. apply (dict_In_get _ _ _ Hwf) in Hin.
    assert (j' = j) as -> by congruence.
    unfold expired. destruct Hkeep as [H0|Hnew].
    + rewrite H0. done.
    + apply andb_false_intro2. apply Z.ltb_ge. done.
  - intros k Hk. by apply scan_keeps_None.
Qed.

(** The sweep of that day: [0a] goes, [0af] stays. *)
Lemma cleanup_removes_expired_jobs_witness :
  dict_get "0a" (_jobs (_cleanup_old_jobs env_sweep world_two_jobs).2) = None
  /\ dict_get "0af" (_jobs (_cleanup_old_jobs env_sweep world_two_jobs).2)
     = dict_get "0af" (_jobs world_two_jobs).
Proof.
  assert (Hwf : dict_wf (_jobs world_two_jobs)).
  { unfold dict_wf. simpl. apply NoDup_cons. split; [|apply NoDup_singleton].
    apply not_elem_of_cons. split; [done|apply not_elem_of_nil]. }
  split.
  - refine (proj1 (proj1 (cleanup_removes_expired_jobs env_sweep world_two_jobs "0a"
        (Job "0a" "queued" "mp3" ["A"] [Item "A" "queued" 0 None] [] None
           "2024-05-01T10:00:00Z" "2024-05-01T10:00:00Z" 1714557600000000)
        Hwf eq_refl) _)); simpl; unfold cutoff_at, hours; simpl; lia.
  - refine (proj1 (proj2 (cleanup_removes_expired_jobs env_sweep world_two_jobs "0af"
        (Job "0af" "queued" "mp4" ["B"] [Item "B" "queued" 0 None] [] None
           "2024-05-01T16:30:00Z" "2024-05-01T16:30:00Z" 1714581000000000)
        Hwf eq_refl)) _); right; simpl; unfold cutoff_at, hours; simpl; lia.
Defined.

(** C6 fails as stated.  A job submitted while the clock stood at the
    epoch has the creation timestamp 0; decades later it is older than any
    cutoff, and the sweep leaves it in the table. *)
Lemma job_created_at_epoch_survives_sweep :
  exists j,
    dict_get "0a" (_jobs world_epoch_job) = Some j
    /\ job_created_at j = "1970-01-01T00:00:00Z"
    /\ job_created_ts j < cutoff_at env_epoch world_epoch_job
    /\ dict_get "0a" (_jobs (_cleanup_old_jobs env_epoch world_epoch_job).2) = Some j.
Proof.
  eexists. split; [reflexivity|]. split; [reflexivity|].
  split; [|reflexivity]. unfold cutoff_at, hours. simpl. lia.
Qed.

(** ** The artifacts *)

Section swallow.
Context (E : env).
Hypothesis faults_are_OSError :
  forall log op e, fault_at E log op = Some e -> exn_cls e = OSError.

Lemma attempt_pass_run op w :
  except_OSError_pass (fs_attempt op) E w = (Ok tt, world_log_app w [op]).
Proof.
  unfold except_OSError_pass, try_except, fs_attempt, world_log_app.
  destruct (fault_at E (fs_log w) op) as [e|] eqn:Hf; [|done].
  unfold is_OSError. by rewrite (faults_are_OSError _ _ _ Hf).
Qed.

Lemma world_log_app_app w ops1 ops2 :
  world_log_app (world_log_app w ops1) ops2 = world_log_app w (ops1 ++ ops2).
Proof. unfold world_log_app. simpl. by rewrite app_assoc. Qed.

Lemma world_log_app_nil w : world_log_app w [] = w.
Proof. unfold world_log_app. rewrite app_nil_r. by destruct w. Qed.

Lemma cleanup_children_run children : forall w,
  cleanup_children children E w = (Ok tt, world_log_app w (List.map Unlink children)).
Proof.
  induction children as [|c children IH]; intros w.
  - simpl. by rewrite world_log_app_nil.
  - cbn [cleanup_children]. rewrite (bind_ok _ _ _ _ _ _ (attempt_pass_run _ _)).
    rewrite IH, world_log_app_app. reflexivity.
Qed.

Lemma cleanup_artifacts_run job_ids : forall w,
  cleanup_artifacts (List.map (fun k => (k, path_join (DATA_DIR E) k)) job_ids) E w =
    (Ok tt, world_log_app w (sweep_ops E (fs_log w) job_ids)).
Proof.
  induction job_ids as [|k job_ids IH]; intros w.
  - simpl. by rewrite world_log_app_nil.
  - cbn [List.map cleanup_artifacts sweep_ops].
    rewrite (bind_ok (path_exists _) _ E w _ w eq_refl).
    assert (Hdir :
      (if exists_at E (fs_log w) (path_join (DATA_DIR E) k) then
         children ← path_glob (path_join (DATA_DIR E) k);
         cleanup_children children;;
         except_OSError_pass (fs_attempt (Rmdir (path_join (DATA_DIR E) k)))
       else mret tt) E w = (Ok tt, world_log_app w (dir_ops E (fs_log w) k))).
    { unfold dir_ops. destruct (exists_at E (fs_log w) _).
      - rewrite (bind_ok (path_glob _) _ E w _ w eq_refl).
        rewrite (bind_ok _ _ _ _ _ _ (cleanup_children_run _ _)).
        rewrite attempt_pass_run, world_log_app_app. reflexivity.
      - by rewrite world_log_app_nil. }
    rewrite (bind_ok _ _ _ _ _ _ Hdir).
    rewrite (bind_ok ask _ E _ E _ eq_refl).
    rewrite (bind_ok (path_exists _) _ E _ _ _ eq_refl).
    set (w1 := world_log_app w (dir_ops E (fs_log w) k)).
    assert (Hzip :
      (if exists_at E (fs_log w1) (path_join (DATA_DIR E) (k +:+ ".zip")) then
         except_OSError_pass (fs_attempt (Unlink (path_join (DATA_DIR E) (k +:+ ".zip"))))
       else mret tt) E w1 = (Ok tt, world_log_app w1 (zip_ops E (fs_log w1) k))).
    { unfold zip_ops. destruct (exists_at E (fs_log w1) _).
      - by rewrite attempt_pass_run.
      - by rewrite world_log_app_nil. }
    rewrite (bind_ok _ _ _ _ _ _ Hzip).
    rewrite IH. unfold w1. rewrite !world_log_app_app.
    unfold job_ops, world_log_app. cbn [fs_log]. by rewrite <- !app_assoc.
Qed.

End swallow.



(** ** The listing of recent jobs *)

Section sort_facts.
Context {A : Type} (key : A -> string).

Lemma insert_desc_perm x l : Permutation (insert_desc key x l) (x :: l).
Proof.
  induction l as [|y l IH]; simpl; [done|].
  case_decide; [done|]. rewrite IH. apply perm_swap.
Qed.

Lemma sort_desc_perm l : Permutation (sort_desc key l) l.
Proof.
  induction l as [|x l IH]; simpl; [done|].
  unfold sort_desc in *. cbn [foldr]. rewrite insert_desc_perm. by constructor.
Qed.

Lemma insert_desc_sorted x l :
  StronglySorted (key_desc key) l -> StronglySorted (key_desc key) (insert_desc key x l).
Proof.
  induction l as [|y l IH]; intros Hs; simpl.
  - constructor; [constructor|constructor].
  - apply StronglySorted_inv in Hs as [Hl Hy]. case_decide as Hle.
    + constructor; [by constructor|]. constructor; [done|].
      eapply Forall_impl; [exact Hy|]. intros z Hz. unfold key_desc in *.
      by etrans.
    + constructor; [by apply IH|].
      assert (Hxy : key_desc key y x).
      { unfold key_desc. destruct (total String.le (key x) (key y)); done. }
      eapply Permutation_Forall; [symmetry; apply insert_desc_perm|].
      by constructor.
Qed.

Lemma sort_desc_sorted l : StronglySorted (key_desc key) (sort_desc key l).
Proof.
  induction l as [|x l IH]; [constructor|].
  unfold sort_desc in *. cbn [foldr]. by apply insert_desc_sorted.
Qed.

Lemma sort_desc_length l : length (sort_desc key l) = length l.
Proof. apply Permutation_length, sort_desc_perm. Qed.

Lemma StronglySorted_take_desc n l :
  StronglySorted (key_desc key) l -> StronglySorted (key_desc key) (take n l).
Proof.
  intros Hs. rewrite <- (take_drop n l) in Hs.
  by apply StronglySorted_app_1_l in Hs.
Qed.

End sort_facts.

Lemma sort_desc_fmap {A} (key : A -> string) (f : A -> A) l :
  (forall x, key (f x) = key x) ->
  sort_desc key (List.map f l) = List.map f (sort_desc key l).
Proof.
  intros Hk. induction l as [|x l IH]; [done|].
  unfold sort_desc in *. cbn [List.map foldr]. rewrite IH.
  generalize (foldr (insert_desc key) [] l). intros s.
  induction s as [|y s IHs]; simpl; [done|].
  rewrite !Hk. case_decide; simpl; [done|]. by rewrite IHs.
Qed.

Lemma py_take_fmap {A B} (f : A -> B) n l :
  py_take n (List.map f l) = List.map f (py_take n l).
Proof.
  assert (Ht : forall k, take k (List.map f l) = List.map f (take k l)).
  { intros k. revert l. induction k as [|k IH]; intros [|x l]; simpl; by rewrite ?IH. }
  unfold py_take. rewrite length_map. case_decide; apply Ht.
Qed.

Lemma api_recent_run E w :
  api_recent E w =
    (Ok (List.map summary_of
           (py_take (MAX_RECENT E) (sort_desc job_created_at (dict_values (_jobs w))))), w).
Proof. reflexivity. Qed.

(** C7. For a limit that is not negative, [api_recent] returns at most
    that many entries -- all jobs when there are fewer -- ordered by
    [created_at] from the largest to the smallest (as strings); every entry
    is the summary (id, status, format, created_at, number of urls) of a
    job of the table, and the payload does not change when the jobs are
    changed in any way that keeps these five. *)
Theorem api_recent_bounded_sorted_summaries E w :
  0 <= MAX_RECENT E ->
  exists l,
    api_recent E w = (Ok l, w)
    /\ Z.of_nat (length l) <= MAX_RECENT E
    /\ length l = Nat.min (Z.to_nat (MAX_RECENT E)) (length (_jobs w))
    /\ StronglySorted (key_desc s_created_at) l
    /\ (forall s, In s l -> exists j, In j (dict_values (_jobs w)) /\ s = summary_of j)
    /\ (forall f : job -> job,
          (forall j, summary_of (f j) = summary_of j) ->
          (api_recent E
             (world_set_jobs (List.map (fun kj => (kj.1, f kj.2)) (_jobs w)) w)).1 = Ok l).
Proof.
  intros Hn. rewrite api_recent_run. eexists. split; [reflexivity|].
  unfold py_take. rewrite decide_True by done.
  set (sorted := sort_desc job_created_at (dict_values (_jobs w))).
  assert (Hlen : length sorted = length (_jobs w)).
  { unfold sorted. rewrite sort_desc_length. unfold dict_values. by rewrite length_map. }
  split; [|split; [|split; [|split]]].
  - rewrite length_map, length_take. lia.
  - rewrite length_map, length_take. by rewrite Hlen.
  - assert (Hs : StronglySorted (key_desc job_created_at) (take (Z.to_nat (MAX_RECENT E)) sorted)).
    { apply StronglySorted_take_desc, sort_desc_sorted. }
    revert Hs. generalize (take (Z.to_nat (MAX_RECENT E)) sorted). intros l Hs.
    induction Hs as [|j l Hl IH Hj]; simpl; constructor; [done|].
    apply Forall_forall. intros s Hin. apply list_elem_of_In, in_map_iff in Hin as (j' & <- & Hin).
    rewrite Forall_forall in Hj. apply Hj. by apply list_elem_of_In.
  - intros s Hin. apply in_map_iff in Hin as (j & <- & Hin).
    exists j. split; [|done].
    apply list_elem_of_In in Hin. apply list_elem_of_In.
    apply elem_of_take in Hin as (i & Hi & _). apply list_elem_of_lookup_2 in Hi.
    unfold sorted in Hi. by rewrite sort_desc_perm in Hi.
  - intros f Hf. rewrite api_recent_run. cbn [fst]. f_equal.
    unfold py_take. rewrite decide_True by done.
    assert (Hk : forall j, job_created_at (f j) = job_created_at j).
    { intros j. apply (f_equal s_created_at (Hf j)). }
    assert (Hv : dict_values (_jobs (world_set_jobs (List.map (fun kj => (kj.1, f kj.2)) (_jobs w)) w))
                 = List.map f (dict_values (_jobs w))).
    { unfold dict_values. simpl. rewrite !map_map. done. }
    rewrite Hv, (sort_desc_fmap _ _ _ Hk). fold sorted.
    pose proof (py_take_fmap f (MAX_RECENT E) sorted) as Ht.
    unfold py_take in Ht. rewrite !decide_True in Ht by done. rewrite Ht.
    rewrite map_map. apply map_ext. done.
Qed.

(** Two jobs and a limit of ten: both are listed, the later one first. *)
Lemma api_recent_bounded_sorted_summaries_witness :
  exists l,
    api_recent env_sweep world_two_jobs = (Ok l, world_two_jobs)
    /\ List.map s_id l = ["0af"; "0a"].
Proof.
  destruct (api_recent_bounded_sorted_summaries env_sweep world_two_jobs) as (l & Hrun & _).
  - simpl. lia.
  - exists l. split; [exact Hrun|].
    vm_compute in Hrun. by injection Hrun as <-.
Defined.

(** A negative [MAX_RECENT] is a slice bound counted from the end: the
    listing then has all entries but the last. *)
Example api_recent_negative_limit :
  List.map s_id (default [] (match (api_recent env_negative_limit world_two_jobs).1 with
                             | Ok l => Some l
                             | Raise _ => None
                             end)) = ["0af"].
Proof. reflexivity. Qed.

(** ** Normalising urls *)

Lemma download_media_run E w urls mode hook :
  mode = "mp3" \/ mode = "mp4" ->
  download_media (inl urls) mode hook E w =
    download_loop hook 0 (List.map (_normalize_url E) urls) [] E w.
Proof. intros [-> | ->]; reflexivity. Qed.

Lemma download_media_bad_mode E w video_urls mode hook :
  mode <> "mp3" -> mode <> "mp4" ->
  download_media video_urls mode hook E w =
    (Raise (Exn ValueError "mode must be 'mp3' or 'mp4'"), w).
Proof.
  intros H3 H4. unfold download_media.
  rewrite (proj2 (String.eqb_neq _ _) H3), (proj2 (String.eqb_neq _ _) H4). reflexivity.
Qed.


(** On the reference [urllib.parse]: a watch url loses its other
    parameters and its fragment, wherever [v] stands in the query; a short
    link, which has its id in the path, and a url of another host come back
    as they are. *)
Example normalize_url_watch :
  _normalize_url env0 "https://www.youtube.com/watch?v=IMYs1X7HVbU&t=42s#top"
    = "https://www.youtube.com/watch?v=IMYs1X7HVbU"
  /\ _normalize_url env0 "https://www.youtube.com/watch?list=PL1&v=IMYs1X7HVbU"
    = "https://www.youtube.com/watch?v=IMYs1X7HVbU".
Proof. split; reflexivity. Qed.

Example normalize_url_passes :
  _normalize_url env0 "https://youtu.be/IMYs1X7HVbU?si=abc" = "https://youtu.be/IMYs1X7HVbU?si=abc"
  /\ _normalize_url env0 "https://vimeo.com/1234?v=1#t=3" = "https://vimeo.com/1234?v=1#t=3".
Proof. split; reflexivity. Qed.


(** ** Rounding and percent *)

Lemma round_half_even_floor q :
  (Qfloor q <= round_half_even q <= Qfloor q + 1)%Z.
Proof.
  unfold round_half_even.
  destruct (Qcompare _ _); [destruct (Z.even _)|..]; lia.
Qed.

Lemma round_half_even_mono q1 q2 :
  (q1 <= q2)%Q -> (round_half_even q1 <= round_half_even q2)%Z.
Proof.
  intros Hle. pose proof (Qfloor_resp_le _ _ Hle) as Hf.
  destruct (decide (Qfloor q1 < Qfloor q2)%Z) as [Hlt|Hge].
  { pose proof (round_half_even_floor q1). pose proof (round_half_even_floor q2). lia. }
  assert (Heq : Qfloor q1 = Qfloor q2) by lia.
  unfold round_half_even. rewrite <- Heq.
  destruct (Qcompare_spec (q1 - inject_Z (Qfloor q1)) (1 # 2)) as [H1|H1|H1];
    destruct (Qcompare_spec (q2 - inject_Z (Qfloor q1)) (1 # 2)) as [H2|H2|H2];
    try destruct (Z.even (Qfloor q1)); try lia; exfalso; lra.
Qed.

Lemma round_half_even_compat q1 q2 :
  (q1 == q2)%Q -> round_half_even q1 = round_half_even q2.
Proof.
  intros Heq. apply Z.le_antisymm; apply round_half_even_mono; rewrite Heq; apply Qle_refl.
Qed.

Lemma round_half_even_Z z : round_half_even (inject_Z z) = z.
Proof.
  unfold round_half_even. rewrite Qfloor_Z.
  destruct (Qcompare_spec (inject_Z z - inject_Z z) (1 # 2)) as [H|H|H]; [exfalso; lra|done|exfalso; lra].
Qed.

Lemma py_round2_eq q : (py_round2 q == inject_Z (round_half_even (q * 100)) / 100)%Q.
Proof. unfold py_round2. apply Qred_correct. Qed.

Lemma py_round2_mono q1 q2 : (q1 <= q2)%Q -> (py_round2 q1 <= py_round2 q2)%Q.
Proof.
  intros Hle. rewrite !py_round2_eq.
  assert (H : (round_half_even (q1 * 100) <= round_half_even (q2 * 100))%Z).
  { apply round_half_even_mono. lra. }
  rewrite Zle_Qle in H. apply Qmult_le_compat_r; [done|]. done.
Qed.

Lemma py_round2_Z z : (py_round2 (inject_Z z) == inject_Z z)%Q.
Proof.
  rewrite py_round2_eq.
  assert (H : (inject_Z z * 100 == inject_Z (z * 100))%Q).
  { rewrite inject_Z_mult. reflexivity. }
  rewrite (round_half_even_compat _ _ H), round_half_even_Z, inject_Z_mult. field.
Qed.

Lemma py_round2_bounds q : (0 <= q <= 100)%Q -> (0 <= py_round2 q <= 100)%Q.
Proof.
  intros [H0 H100]. split.
  - rewrite <- (py_round2_Z 0). by apply py_round2_mono.
  - rewrite <- (py_round2_Z 100). by apply py_round2_mono.
Qed.

(** ** Progress events on the table *)

Lemma dict_set_same {V} k (v : V) d : dict_get k d = Some v -> dict_set k v d = d.
Proof.
  induction d as [|[k0 v0] d IH]; simpl; [done|].
  destruct (String.eqb_spec k k0) as [->|Hne].
  - by intros [= ->].
  - intros H. by rewrite IH.
Qed.

Lemma world_set_jobs_same w : world_set_jobs (_jobs w) w = w.
Proof. by destruct w. Qed.

Lemma job_set_items_same j : job_set_items (job_items j) j = j.
Proof. by destruct j. Qed.

(** The state in which the items of the job under [job_id] are [items]. *)
Lemma progress_event_run E w job_id j n d :
  dict_get job_id (_jobs w) = Some j ->
  (n < length (job_items j))%nat ->
  _progress (Some (progress_hook job_id)) n d E w =
    (Ok tt,
     world_set_jobs
       (dict_set job_id (job_set_items (alter (event_write d) n (job_items j)) j) (_jobs w)) w).
Proof.
  intros Hj Hn. unfold _progress, event_write. case_bool_decide.
  - rewrite (progress_hook_run _ _ _ _ _ _ _ Hj).
    rewrite progress_hook_items_in_range by lia. by rewrite Nat2Z.id.
  - rewrite list_alter_id by done.
    by rewrite job_set_items_same, (dict_set_same _ _ _ Hj), world_set_jobs_same.
Qed.

Lemma run_hooks_run E job_id n events : forall w j,
  dict_get job_id (_jobs w) = Some j ->
  (n < length (job_items j))%nat ->
  run_hooks (_progress (Some (progress_hook job_id)) n) events E w =
    (Ok tt,
     world_set_jobs
       (dict_set job_id (job_set_items (alter (events_write events) n (job_items j)) j)
          (_jobs w)) w).
Proof.
  induction events as [|d events IH]; intros w j Hj Hn.
  - cbn [run_hooks]. unfold events_write. cbn [fold_left]. rewrite list_alter_id by done.
    by rewrite job_set_items_same, (dict_set_same _ _ _ Hj), world_set_jobs_same.
  - cbn [run_hooks]. rewrite (bind_ok _ _ _ _ _ _ (progress_event_run E w job_id j n d Hj Hn)).
    erewrite IH; [|simpl; apply dict_get_set_eq|simpl; by rewrite length_alter].
    simpl. rewrite dict_set_set, alter_alter. by destruct w.
Qed.

Lemma percent_from_progress_spec d p :
  _percent_from_progress d = Some p <->
  exists t dl,
    total_of d = Some t /\ t <> 0 /\ d_downloaded_bytes d = Some dl /\ dl <> 0
    /\ p = py_round2 (inject_Z dl / inject_Z t * 100).
Proof.
  unfold _percent_from_progress, total_of.
  destruct (py_or (d_total_bytes d) (d_total_bytes_estimate d)) as [t|];
    destruct (d_downloaded_bytes d) as [dl|]; simpl;
    try (split; [done|]; intros (? & ? & ? & ? & ? & ? & ?); done).
  destruct (Z.eqb_spec t 0) as [->|Ht]; simpl.
  { split; [done|]. intros (? & ? & [= <-] & ? & _); done. }
  destruct (Z.eqb_spec dl 0) as [->|Hdl]; simpl.
  { split; [done|]. intros (? & ? & _ & _ & [= <-] & ? & _); done. }
  split.
  - intros [= <-]. by exists t, dl.
  - intros (? & ? & [= <-] & _ & [= <-] & _ & ->). done.
Qed.

Lemma inject_Z_pos t : 0 < t -> (0 < inject_Z t)%Q.
Proof. intros H. change 0%Q with (inject_Z 0). rewrite <- Zlt_Qlt. done. Qed.

Lemma inject_Z_nonneg t : 0 <= t -> (0 <= inject_Z t)%Q.
Proof. intros H. change 0%Q with (inject_Z 0). rewrite <- Zle_Qle. done. Qed.

Lemma ratio_bounds dl t : 0 <= dl <= t -> t <> 0 ->
  (0 <= inject_Z dl / inject_Z t * 100 <= 100)%Q.
Proof.
  intros Hr Ht.
  assert (Hpos : (0 < inject_Z t)%Q) by (apply inject_Z_pos; lia).
  assert (H0 : (0 <= inject_Z dl / inject_Z t)%Q).
  { apply Qle_shift_div_l; [done|]. rewrite Qmult_0_l. apply inject_Z_nonneg. lia. }
  assert (H1 : (inject_Z dl / inject_Z t <= 1)%Q).
  { apply Qle_shift_div_r; [done|]. rewrite Qmult_1_l. rewrite <- Zle_Qle. lia. }
  split; lra.
Qed.

Lemma ratio_mono dl t dl' t' : 0 < t -> 0 < t' -> dl * t' <= dl' * t ->
  (inject_Z dl / inject_Z t * 100 <= inject_Z dl' / inject_Z t' * 100)%Q.
Proof.
  intros Ht Ht' Hle.
  assert (Hpos : (0 < inject_Z t)%Q) by (by apply inject_Z_pos).
  assert (Hpos' : (0 < inject_Z t')%Q) by (by apply inject_Z_pos).
  assert (H : (inject_Z dl / inject_Z t <= inject_Z dl' / inject_Z t')%Q).
  { apply Qle_shift_div_r; [done|].
    assert (Heq : (inject_Z dl' / inject_Z t' * inject_Z t == inject_Z dl' * inject_Z t / inject_Z t')%Q).
    { field. lra. }
    rewrite Heq. apply Qle_shift_div_l; [done|].
    rewrite <- !inject_Z_mult, <- Zle_Qle. done. }
  lra.
Qed.

Lemma info_truthy_event d s p :
  d_status d = Some s ->
  info_truthy (Some (Info (d_filename d) p (d_other_keys d))) = true.
Proof.
  intros Hs. unfold info_truthy, d_other_keys. cbn [info_other_keys]. rewrite Hs.
  cbn [app]. rewrite (bool_decide_eq_false_2 (_ = [])) by done. by rewrite orb_true_r.
Qed.

(** C4, as the code has it.  On a [downloading] event for an item in range
    the hook records the percent that [_percent_from_progress] computes, or
    leaves the recorded one when none is computed.  A percent is computed
    exactly when the total ([total_bytes], else [total_bytes_estimate]) and
    the downloaded count are known and not zero, as downloaded / total * 100
    rounded to two decimals.  It is within 0 and 100 when the downloaded
    count is between 0 and the total, and from one event to another it does
    not decrease when downloaded / total does not; the code neither clamps
    it nor compares it with the percent recorded before. *)
Theorem percent_recorded_as_computed E w job_id j n it d :
  dict_get job_id (_jobs w) = Some j ->
  job_items j !! n = Some it ->
  d_status d = Some "downloading" ->
  (exists w' j' it',
     _progress (Some (progress_hook job_id)) n d E w = (Ok tt, w')
     /\ dict_get job_id (_jobs w') = Some j'
     /\ job_items j' !! n = Some it'
     /\ item_status it' = "downloading"
     /\ item_percent it' = default (item_percent it) (_percent_from_progress d))
  /\ (forall p,
        _percent_from_progress d = Some p <->
        exists t dl,
          total_of d = Some t /\ t <> 0 /\ d_downloaded_bytes d = Some dl /\ dl <> 0
          /\ p = py_round2 (inject_Z dl / inject_Z t * 100))
  /\ (forall t dl p,
        total_of d = Some t -> d_downloaded_bytes d = Some dl -> 0 <= dl <= t ->
        _percent_from_progress d = Some p -> (0 <= p <= 100)%Q)
  /\ (forall d' t dl t' dl' p p',
        total_of d = Some t -> d_downloaded_bytes d = Some dl ->
        total_of d' = Some t' -> d_downloaded_bytes d' = Some dl' ->
        0 < t -> 0 < t' -> dl * t' <= dl' * t ->
        _percent_from_progress d = Some p -> _percent_from_progress d' = Some p' ->
        (p <= p')%Q).
Proof.
  intros Hj Hit Hst. split; [|split; [|split]].
  - assert (Hn : (n < length (job_items j))%nat) by (by eapply lookup_lt_Some).
    rewrite (progress_event_run E w job_id j n d Hj Hn).
    eexists _, _, _. split; [reflexivity|]. simpl. rewrite dict_get_set_eq.
    split; [reflexivity|]. simpl. rewrite list_lookup_alter_eq, Hit. simpl.
    split; [reflexivity|].
    unfold event_write. rewrite bool_decide_eq_true_2 by (by left).
    rewrite Hst. unfold hook_write. rewrite (info_truthy_event _ _ _ Hst).
    unfold info_write. simpl.
    destruct (d_filename d), (_percent_from_progress d); done.
  - apply percent_from_progress_spec.
  - intros t dl p Ht Hdl Hr Hp.
    apply percent_from_progress_spec in Hp as (t0 & dl0 & Ht0 & Hnz & Hdl0 & _ & ->).
    assert (t0 = t) as -> by congruence. assert (dl0 = dl) as -> by congruence.
    apply py_round2_bounds, ratio_bounds; done.
  - intros d' t dl t' dl' p p' Ht Hdl Ht' Hdl' Hpos Hpos' Hle Hp Hp'.
    apply percent_from_progress_spec in Hp as (t0 & dl0 & Ht0 & _ & Hdl0 & _ & ->).
    apply percent_from_progress_spec in Hp' as (t0' & dl0' & Ht0' & _ & Hdl0' & _ & ->).
    assert (t0 = t) as -> by congruence. assert (dl0 = dl) as -> by congruence.
    assert (t0' = t') as -> by congruence. assert (dl0' = dl') as -> by congruence.
    apply py_round2_mono, ratio_mono; done.
Qed.

(** Half of the estimated total is there: 50 is recorded. *)
Lemma percent_recorded_as_computed_witness :
  exists w' j' it',
    _progress (Some (progress_hook "0a")) 0 ev_50_of_100 env_A_only world_AB_queued = (Ok tt, w')
    /\ dict_get "0a" (_jobs w') = Some j'
    /\ job_items j' !! 0%nat = Some it'
    /\ item_status it' = "downloading"
    /\ item_percent it' = 50%Q.
Proof.
  exact (proj1 (percent_recorded_as_computed env_A_only world_AB_queued "0a"
           (Job "0a" "queued" "mp3" ["A"; "B"]
              [Item "A" "queued" 0 None; Item "B" "queued" 0 None] [] None
              "2024-05-01T10:00:00Z" "2024-05-01T10:00:00Z" 1714557600000000)
           0%nat (Item "A" "queued" 0 None) ev_50_of_100 eq_refl eq_refl eq_refl)).
Defined.

(** C4 fails as stated.  With 150 bytes downloaded against an estimated
    total of 100 the recorded percent is 150; and when the estimate grows
    from 100 to 200 between two events the recorded percent falls from 50
    to 30, the item being [downloading] throughout. *)
Lemma percent_leaves_range_and_decreases :
  (exists it,
     first_item_after [ev_150_of_100] = Some it
     /\ item_status it = "downloading"
     /\ item_percent it = 150%Q /\ (100 < item_percent it)%Q)
  /\ (exists it1 it2,
        first_item_after [ev_50_of_100] = Some it1
        /\ first_item_after [ev_50_of_100; ev_60_of_200] = Some it2
        /\ item_status it1 = "downloading" /\ item_status it2 = "downloading"
        /\ item_percent it1 = 50%Q /\ item_percent it2 = 30%Q
        /\ (item_percent it2 < item_percent it1)%Q).
Proof.
  split.
  - eexists. split; [reflexivity|]. simpl. repeat split; reflexivity.
  - eexists _, _. split; [reflexivity|]. split; [reflexivity|]. simpl.
    repeat split; reflexivity.
Qed.

(** ** The runner, step by step *)

Lemma world_with_items_get job_id j items w :
  dict_get job_id (_jobs (world_with_items job_id j items w)) = Some (job_set_items items j).
Proof. unfold world_with_items. simpl. apply dict_get_set_eq. Qed.

Lemma world_with_items_again job_id j items items' w :
  world_with_items job_id (job_set_items items j) items' (world_with_items job_id j items w)
  = world_with_items job_id j items' w.
Proof. unfold world_with_items. simpl. rewrite dict_set_set. by destruct w. Qed.

Section runner_steps.
Context (E : env) (job_id : string).
Local Abbreviation hook := (Some (progress_hook job_id)).

Lemma call_hook_run w j n status info :
  dict_get job_id (_jobs w) = Some j ->
  (n < length (job_items j))%nat ->
  call_hook hook n status info E w =
    (Ok tt, world_with_items job_id j (alter (hook_write status (Some info)) n (job_items j)) w).
Proof.
  intros Hj Hn. unfold call_hook. rewrite (progress_hook_run _ _ _ _ _ _ _ Hj).
  rewrite progress_hook_items_in_range by lia. by rewrite Nat2Z.id.
Qed.

Lemma extract_info_returns w j n url newest :
  dict_get job_id (_jobs w) = Some j ->
  (n < length (job_items j))%nat ->
  fr_end (extract_info_at E n url) = Produced newest ->
  ydl_extract_info (_progress hook n) n url E w =
    (Ok tt,
     world_with_items job_id j
       (alter (events_write (fr_events (extract_info_at E n url))) n (job_items j)) w).
Proof.
  intros Hj Hn Hend. unfold ydl_extract_info.
  rewrite (bind_ok ask _ E w E w eq_refl).
  rewrite (bind_ok _ _ _ _ _ _ (run_hooks_run E job_id n _ w j Hj Hn)).
  by rewrite Hend.
Qed.

Lemma extract_info_raises w j n url e :
  dict_get job_id (_jobs w) = Some j ->
  (n < length (job_items j))%nat ->
  fr_end (extract_info_at E n url) = Failed e ->
  ydl_extract_info (_progress hook n) n url E w =
    (Raise e,
     world_with_items job_id j
       (alter (events_write (fr_events (extract_info_at E n url))) n (job_items j)) w).
Proof.
  intros Hj Hn Hend. unfold ydl_extract_info.
  rewrite (bind_ok ask _ E w E w eq_refl).
  rewrite (bind_ok _ _ _ _ _ _ (run_hooks_run E job_id n _ w j Hj Hn)).
  by rewrite Hend.
Qed.

Lemma newest_new_file_run w n url :
  newest_new_file n url E w =
    (Ok (match fr_end (extract_info_at E n url) with
         | Produced newest => newest
         | Failed _ => None
         end), w).
Proof. reflexivity. Qed.

(** A url whose fetch returns: its item is completed and the loop goes on. *)
Lemma download_loop_step w j n url rest out newest :
  dict_get job_id (_jobs w) = Some j ->
  (n < length (job_items j))%nat ->
  fr_end (extract_info_at E n url) = Produced newest ->
  download_loop hook n (url :: rest) out E w =
    download_loop hook (S n) rest (out ++ option_list newest) E
      (world_with_items job_id j
         (alter (completed_write (fr_events (extract_info_at E n url)) newest) n (job_items j)) w).
Proof.
  intros Hj Hn Hend. cbn [download_loop].
  pose proof (extract_info_returns w j n url newest Hj Hn Hend) as Hx.
  rewrite (bind_ok _ _ _ _ _ _ (try_ok _ _ _ _ _ _ _ Hx)).
  rewrite (bind_ok _ _ _ _ _ _ (newest_new_file_run _ n url)). rewrite Hend.
  set (w1 := world_with_items _ _ _ w).
  assert (Hj1 : dict_get job_id (_jobs w1) = Some (job_set_items
             (alter (events_write (fr_events (extract_info_at E n url))) n (job_items j)) j))
    by apply world_with_items_get.
  assert (Hn1 : (n < length (job_items (job_set_items
             (alter (events_write (fr_events (extract_info_at E n url))) n (job_items j)) j)))%nat)
    by (simpl; by rewrite length_alter).
  destruct newest as [p|]; cbn [option_list].
  - rewrite (bind_ok _ _ _ _ _ _ (call_hook_run w1 _ n "completed" _ Hj1 Hn1)).
    unfold w1. rewrite world_with_items_again. simpl. rewrite alter_alter. reflexivity.
  - rewrite (bind_ok _ _ _ _ _ _ (call_hook_run w1 _ n "completed" _ Hj1 Hn1)).
    unfold w1. rewrite world_with_items_again. simpl. rewrite alter_alter, app_nil_r. reflexivity.
Qed.

(** A url whose fetch fails: its item is marked and the exception leaves
    the loop. *)
Lemma download_loop_fails w j n url rest out e :
  dict_get job_id (_jobs w) = Some j ->
  (n < length (job_items j))%nat ->
  fr_end (extract_info_at E n url) = Failed e ->
  download_loop hook n (url :: rest) out E w =
    (Raise e,
     world_with_items job_id j
       (alter (failed_write (fr_events (extract_info_at E n url))) n (job_items j)) w).
Proof.
  intros Hj Hn Hend. cbn [download_loop].
  pose proof (extract_info_raises w j n url e Hj Hn Hend) as Hx.
  apply bind_raise. rewrite (try_caught _ _ _ _ _ _ _ Hx eq_refl).
  set (w1 := world_with_items _ _ _ w).
  assert (Hj1 : dict_get job_id (_jobs w1) = Some (job_set_items
             (alter (events_write (fr_events (extract_info_at E n url))) n (job_items j)) j))
    by apply world_with_items_get.
  assert (Hn1 : (n < length (job_items (job_set_items
             (alter (events_write (fr_events (extract_info_at E n url))) n (job_items j)) j)))%nat)
    by (simpl; by rewrite length_alter).
  rewrite (bind_ok _ _ _ _ _ _ (call_hook_run w1 _ n "error" _ Hj1 Hn1)).
  unfold w1. rewrite world_with_items_again. simpl. rewrite alter_alter. reflexivity.
Qed.

End runner_steps.

(** The runner on a job of two urls, the first of which is fetched and the
    second of which fails. *)
Lemma download_job_two_urls E w job_id j ia ib a b newest e :
  dict_get job_id (_jobs w) = Some j ->
  job_items j = [ia; ib] ->
  job_urls j = [a; b] ->
  job_format j = "mp3" \/ job_format j = "mp4" ->
  fr_end (extract_info_at E 0 (_normalize_url E a)) = Produced newest ->
  fr_end (extract_info_at E 1 (_normalize_url E b)) = Failed e ->
  exists w' j',
    _download_job job_id E w = (Ok tt, w')
    /\ dict_get job_id (_jobs w') = Some j'
    /\ job_status j' = "error"
    /\ job_items j' =
         [completed_write (fr_events (extract_info_at E 0 (_normalize_url E a))) newest ia;
          failed_write (fr_events (extract_info_at E 1 (_normalize_url E b))) ib]
    /\ job_error j' = Some (exn_msg e)
    /\ job_files j' = job_files j.
Proof.
  intros Hj Hitems Hurls Hfmt Ha Hb. unfold _download_job.
  rewrite (bind_ok (jobs_get job_id) _ E w (Some j) w) by (unfold jobs_get; by rewrite Hj).
  rewrite (bind_ok _ _ _ _ _ _ (update_job_run E w job_id j _ Hj)).
  set (j1 := job_set_updated_at _ _). set (w2 := World _ _ _ _).
  assert (Hj1 : dict_get job_id (_jobs w2) = Some j1) by apply dict_get_set_eq.
  assert (Hi1 : job_items j1 = [ia; ib]) by done.
  assert (Hrun : download_media (inl (job_urls j)) (job_format j)
                   (Some (progress_hook job_id)) E w2 =
                 (Raise e,
                  world_with_items job_id j1
                    [completed_write (fr_events (extract_info_at E 0 (_normalize_url E a))) newest ia;
                     failed_write (fr_events (extract_info_at E 1 (_normalize_url E b))) ib] w2)).
  { rewrite download_media_run by done. rewrite Hurls. cbn [List.map].
    rewrite (download_loop_step E job_id w2 j1 0 _ _ _ newest Hj1); [|rewrite Hi1; simpl; lia|done].
    rewrite Hi1. cbn [alter list_alter].
    erewrite (download_loop_fails E job_id _ _ 1 _ _ _ e);
      [|apply world_with_items_get|simpl; lia|done].
    rewrite world_with_items_again. reflexivity. }
  rewrite (try_caught _ _ _ _ _ _ _ (bind_raise _ _ _ _ _ _ Hrun) eq_refl).
  erewrite update_job_run by apply world_with_items_get.
  eexists _, _. split; [reflexivity|]. simpl. rewrite dict_get_set_eq.
  split; [reflexivity|]. done.
Qed.

(** C1, as the code has it.  A job is submitted with two urls; the fetch of
    the first returns and the fetch of the second raises.  When the runner
    is done the job has status [error], its first item is [completed] with
    percent 100 (and carries the base name of the first url's file, if one
    was produced), its second item is [error], [error] holds the message of
    the second url's failure, and [files] is empty: [download_media] raises
    before it returns its list, and the handler of [_download_job] writes
    [status] and [error] only. *)
Theorem download_job_first_done_second_fails E w a b fmt newest e :
  fmt = "mp3" \/ fmt = "mp4" ->
  fr_end (extract_info_at E 0 (_normalize_url E a)) = Produced newest ->
  fr_end (extract_info_at E 1 (_normalize_url E b)) = Failed e ->
  exists job_id w' j ia ib,
    (job_id ← _new_job [a; b] fmt; _download_job job_id;; mret job_id) E w = (Ok job_id, w')
    /\ dict_get job_id (_jobs w') = Some j
    /\ job_status j = "error"
    /\ job_items j = [ia; ib]
    /\ item_status ia = "completed" /\ item_percent ia = 100%Q
    /\ (forall p, newest = Some p -> item_filename ia = Some (path_name p))
    /\ item_status ib = "error"
    /\ job_error j = Some (exn_msg e)
    /\ job_files j = [].
Proof.
  intros Hfmt Ha Hb.
  rewrite (bind_ok _ _ _ _ _ _ (new_job_run E w [a; b] fmt)).
  set (job_id := uuid4_at E (uuid4_calls w)).
  set (j0 := Job job_id "queued" fmt [a; b] _ [] None _ _ _).
  set (w1 := World _ _ _ _).
  assert (Hj0 : dict_get job_id (_jobs w1) = Some j0) by apply dict_get_set_eq.
  destruct (download_job_two_urls E w1 job_id j0 _ _ a b newest e Hj0 eq_refl eq_refl Hfmt Ha Hb)
    as (w' & j' & Hrun & Hj' & Hst & Hits & Herr & Hfiles).
  rewrite (bind_ok _ _ _ _ _ _ Hrun).
  eexists _, _, _, _, _. split; [reflexivity|]. split; [exact Hj'|].
  split; [exact Hst|]. split; [exact Hits|].
  unfold completed_write, failed_write, hook_write, info_write, info_truthy.
  cbn [info_filename info_percent info_other_keys].
  rewrite (bool_decide_eq_true_2 (is_Some (Some 100%Q))) by done.
  rewrite orb_true_r. cbn [orb].
  rewrite (bool_decide_eq_false_2 (is_Some (@None string))) by (by intros [? ?]).
  rewrite (bool_decide_eq_false_2 (is_Some (@None Q))) by (by intros [? ?]).
  rewrite (bool_decide_eq_false_2 (["error"] = [])) by done. cbn [orb negb].
  split; [by destruct newest|]. split; [by destruct newest|].
  split; [by intros p ->|]. done.
Qed.

(** The job [["A", "B"]] against a service that fetches [A] and fails on
    anything else. *)
Lemma download_job_first_done_second_fails_witness :
  exists w' j,
    (job_id ← _new_job ["A"; "B"] "mp3"; _download_job job_id;; mret job_id) env_A_only world0
      = (Ok "0a", w')
    /\ dict_get "0a" (_jobs w') = Some j
    /\ job_status j = "error"
    /\ List.map item_status (job_items j) = ["completed"; "error"]
    /\ job_error j = Some "ERROR: B is unavailable"
    /\ job_files j = [].
Proof.
  destruct (download_job_first_done_second_fails env_A_only world0 "A" "B" "mp3"
              (Some "/app/tmp_downloads/0a/A.mp3") (Exn OtherError "ERROR: B is unavailable")
              (or_introl eq_refl) eq_refl eq_refl)
    as (job_id & w' & j & ia & ib & Hrun & Hj & Hst & Hits & Hsa & _ & _ & Hsb & Herr & Hfiles).
  assert (Hid : job_id = "0a").
  { vm_compute in Hrun. by injection Hrun as <- _. }
  subst job_id. exists w', j. rewrite Hits. simpl. rewrite Hsa, Hsb. done.
Defined.

(** C1 fails as stated: in that run the file of [A] was produced, and the
    finished state of the job has it in no place of [files], which is empty;
    only the first item holds its base name. *)
Lemma failed_job_records_no_files :
  exists w' j,
    (job_id ← _new_job ["A"; "B"] "mp3"; _download_job job_id;; mret job_id) env_A_only world0
      = (Ok "0a", w')
    /\ fr_end (extract_info_at env_A_only 0 (_normalize_url env_A_only "A"))
       = Produced (Some "/app/tmp_downloads/0a/A.mp3")
    /\ dict_get "0a" (_jobs w') = Some j
    /\ job_status j = "error"
    /\ List.map item_status (job_items j) = ["completed"; "error"]
    /\ List.map item_filename (job_items j) = [Some "A.mp3"; None]
    /\ job_files j = []
    /\ ~ In "/app/tmp_downloads/0a/A.mp3" (job_files j).
Proof.
  eexists _, _. split; [vm_compute; reflexivity|]. split; [reflexivity|].
  split; [reflexivity|]. simpl. repeat split; try reflexivity. by intros [].
Qed.

(** ** The status read *)

Lemma try_all_ok (m : M unit) E w :
  (try_except m is_Exception (fun _ => mret tt) E w).1 = Ok tt.
Proof. unfold try_except. by destruct (m E w) as [[[]|e] w1]. Qed.

Lemma run_others_ok ops : forall E w, (run_others ops E w).1 = Ok tt.
Proof.
  induction ops as [|o ops IH]; intros E w; [done|].
  cbn [run_others]. unfold mbind, M_bind.
  pose proof (try_all_ok (match o with
         | OpUpdate job_id u => _update_job job_id u
         | OpProgress job_id i s info => progress_hook job_id i s info
         end) E w) as Hok.
  destruct (try_except _ _ _ E w) as [[[]|e] w1]; simpl in *; [apply IH|done].
Qed.

Lemma run_others_run ops E w : run_others ops E w = (Ok tt, (run_others ops E w).2).
Proof.
  pose proof (run_others_ok ops E w). by destruct (run_others ops E w) as [r w1]; simpl in *; subst.
Qed.



Lemma job_read_run {A} E others job_id found (key : job -> A) w j :
  dict_get job_id (_jobs (run_others others E w).2) = Some j ->
  job_read others job_id found key E w = (Ok (key j), (run_others others E w).2).
Proof.
  intros Hj. unfold job_read.
  rewrite (bind_ok _ _ _ _ _ _ (run_others_run others E w)).
  rewrite (bind_ok (jobs_get job_id) _ E _ (Some j) _) by (unfold jobs_get; by rewrite Hj).
  reflexivity.
Qed.

Lemma api_status_not_found E w job_id others :
  dict_get job_id (_jobs w) = None ->
  api_status_among others job_id E w = (Raise (Exn (HTTPException 404) "Job not found."), w).
Proof.
  intros Hj. unfold api_status_among.
  rewrite (bind_ok (jobs_get job_id) _ E w None w) by (unfold jobs_get; by rewrite Hj).
  reflexivity.
Qed.




(** * The rest of the application: properties *)

(** ** The runner on a whole batch *)

Lemma world_with_items_same job_id j w :
  dict_get job_id (_jobs w) = Some j -> world_with_items job_id j (job_items j) w = w.
Proof.
  intros Hj. unfold world_with_items.
  by rewrite job_set_items_same, (dict_set_same _ _ _ Hj), world_set_jobs_same.
Qed.

Lemma completed_items_length E urls : forall n items,
  length (completed_items E n urls items) = length items.
Proof.
  induction urls as [|u urls IH]; intros n items; simpl; [done|].
  by rewrite IH, length_alter.
Qed.

Lemma completed_items_lookup_lt E urls : forall n items i,
  (i < n)%nat -> completed_items E n urls items !! i = items !! i.
Proof.
  induction urls as [|u urls IH]; intros n items i Hi; simpl; [done|].
  rewrite IH by lia. apply list_lookup_alter_ne. lia.
Qed.

Lemma completed_items_lookup_ge E urls : forall n items i,
  (n + length urls <= i)%nat -> completed_items E n urls items !! i = items !! i.
Proof.
  induction urls as [|u urls IH]; intros n items i Hi; simpl in *; [done|].
  rewrite IH by lia. apply list_lookup_alter_ne. lia.
Qed.

Lemma completed_items_lookup E urls : forall n items k url,
  urls !! k = Some url ->
  completed_items E n urls items !! (n + k)%nat =
    completed_write (fr_events (extract_info_at E (n + k)%nat url))
      (newest_of (extract_info_at E (n + k)%nat url)) <$> items !! (n + k)%nat.
Proof.
  induction urls as [|u urls IH]; intros n items k url Hk; [done|].
  destruct k as [|k]; simpl in *.
  - injection Hk as ->. rewrite Nat.add_0_r.
    rewrite completed_items_lookup_lt by lia. apply list_lookup_alter_eq.
  - replace (n + S k)%nat with (S n + k)%nat by lia.
    rewrite (IH _ _ _ _ Hk). by rewrite list_lookup_alter_ne by lia.
Qed.

Lemma completed_write_fields events newest it :
  item_status (completed_write events newest it) = "completed"
  /\ item_percent (completed_write events newest it) = 100%Q
  /\ item_url (completed_write events newest it) = item_url (events_write events it).
Proof.
  unfold completed_write, hook_write, info_write, info_truthy.
  cbn [info_filename info_percent info_other_keys].
  rewrite (bool_decide_eq_true_2 (is_Some (Some 100%Q))) by done.
  rewrite orb_true_r. cbn [orb]. by destruct newest.
Qed.

Lemma completed_write_filename events p it :
  item_filename (completed_write events (Some p) it) = Some (path_name p).
Proof.
  unfold completed_write, hook_write, info_write, info_truthy.
  cbn [info_filename info_percent info_other_keys].
  by rewrite (bool_decide_eq_true_2 (is_Some (Some p))) by done.
Qed.

Lemma event_write_url d it : item_url (event_write d it) = item_url it.
Proof.
  unfold event_write, hook_write, info_write. case_bool_decide; [|done].
  destruct (info_truthy _); [|done]. simpl.
  by destruct (d_filename d), (_percent_from_progress d).
Qed.

Lemma events_write_url events : forall it, item_url (events_write events it) = item_url it.
Proof.
  unfold events_write. induction events as [|d events IH]; intros it; simpl; [done|].
  by rewrite IH, event_write_url.
Qed.

Lemma failed_write_fields events it :
  item_status (failed_write events it) = "error"
  /\ item_url (failed_write events it) = item_url it
  /\ item_percent (failed_write events it) = item_percent (events_write events it).
Proof.
  unfold failed_write, hook_write, info_write, info_truthy.
  cbn [info_filename info_percent info_other_keys].
  rewrite (bool_decide_eq_false_2 (is_Some (@None string))) by (by intros [? ?]).
  rewrite (bool_decide_eq_false_2 (is_Some (@None Q))) by (by intros [? ?]).
  rewrite (bool_decide_eq_false_2 (["error"] = [])) by done. cbn [orb negb].
  simpl. by rewrite events_write_url.
Qed.

Lemma produced_files_length E urls : forall n,
  (length (produced_files E n urls) <= length urls)%nat.
Proof.
  induction urls as [|u urls IH]; intros n; simpl; [done|].
  rewrite length_app. specialize (IH (S n)).
  destruct (newest_of _); simpl; lia.
Qed.

Section batch.
Context (E : env) (job_id : string).
Local Abbreviation hook := (Some (progress_hook job_id)).

(** All fetches return: the loop returns the files, every item of the
    batch is completed. *)
Lemma download_loop_all_return urls : forall n out w j,
  dict_get job_id (_jobs w) = Some j ->
  (n + length urls <= length (job_items j))%nat ->
  (forall i url, urls !! i = Some url ->
     exists newest, fr_end (extract_info_at E (n + i)%nat url) = Produced newest) ->
  download_loop hook n urls out E w =
    (Ok (out ++ produced_files E n urls),
     world_with_items job_id j (completed_items E n urls (job_items j)) w).
Proof.
  induction urls as [|u urls IH]; intros n out w j Hj Hn Hall.
  - simpl. by rewrite app_nil_r, world_with_items_same.
  - destruct (Hall 0%nat u eq_refl) as [newest Hend]. rewrite Nat.add_0_r in Hend.
    simpl in Hn.
    rewrite (download_loop_step E job_id w j n u urls out newest Hj); [|lia|done].
    erewrite IH; [|apply world_with_items_get|simpl; rewrite length_alter; lia|].
    + rewrite world_with_items_again. cbn [produced_files completed_items job_items job_set_items].
      unfold newest_of. rewrite Hend. by rewrite <- app_assoc.
    + intros i url Hi. replace (S n + i)%nat with (n + S i)%nat by lia.
      by apply (Hall (S i)).
Qed.

(** The fetches of [pre] return and the next one raises: the loop raises
    that exception; the items of [pre] are completed, the failing one is
    marked, and the items of the urls after it are not touched. *)
Lemma download_loop_first_failure pre : forall n out w j u post e,
  dict_get job_id (_jobs w) = Some j ->
  (n + length pre < length (job_items j))%nat ->
  (forall i url, pre !! i = Some url ->
     exists newest, fr_end (extract_info_at E (n + i)%nat url) = Produced newest) ->
  fr_end (extract_info_at E (n + length pre)%nat u) = Failed e ->
  download_loop hook n (pre ++ u :: post) out E w =
    (Raise e,
     world_with_items job_id j
       (alter (failed_write (fr_events (extract_info_at E (n + length pre)%nat u)))
          (n + length pre)%nat (completed_items E n pre (job_items j))) w).
Proof.
  induction pre as [|p pre IH]; intros n out w j u post e Hj Hn Hall Hfail.
  - cbn [app length] in *. rewrite Nat.add_0_r in *.
    by rewrite (download_loop_fails E job_id w j n u post out e Hj).
  - destruct (Hall 0%nat p eq_refl) as [newest Hend]. rewrite Nat.add_0_r in Hend.
    simpl in Hn. cbn [app].
    rewrite (download_loop_step E job_id w j n p _ out newest Hj); [|lia|done].
    erewrite (IH (S n)); [|apply world_with_items_get|simpl; rewrite length_alter; lia| |].
    + rewrite world_with_items_again. cbn [completed_items job_items job_set_items length].
      unfold newest_of. rewrite Hend.
      replace (S n + length pre)%nat with (n + S (length pre))%nat by lia. reflexivity.
    + intros i url Hi. replace (S n + i)%nat with (n + S i)%nat by lia.
      by apply (Hall (S i)).
    + replace (S n + length pre)%nat with (n + length (p :: pre))%nat by (simpl; lia). done.
Qed.

End batch.

(** ** More on the helper and on the listing *)

(** X19.  Normalising twice is normalising once.  When [urllib.parse]
    reads back what it has built -- [urlparse] of the rebuilt url gives the
    six parts it was built from, and [parse_qs] of the query built for [v]
    gives [v] -- the url [_normalize_url] returns is its own normal form.
    (A url that is returned as it is needs no such assumption.) *)
Theorem normalize_url_idempotent E url :
  (forall v,
     fst <$> dict_get "v" (parse_qs E (query (urlparse E url))) = Some v -> v <> "" ->
     urlparse E
       (urlunparse E
          (Parsed (scheme (urlparse E url)) (netloc (urlparse E url))
             (path (urlparse E url)) "" (urlencode E [("v", v)]) ""))
     = Parsed (scheme (urlparse E url)) (netloc (urlparse E url))
         (path (urlparse E url)) "" (urlencode E [("v", v)]) ""
     /\ fst <$> dict_get "v" (parse_qs E (urlencode E [("v", v)])) = Some v) ->
  _normalize_url E (_normalize_url E url) = _normalize_url E url.
Proof.
  intros Hlib.
  destruct (negb (str_in "youtube" (netloc (urlparse E url)))
            && negb (str_in "youtu.be" (netloc (urlparse E url)))) eqn:Hhost.
  { assert (Hsame : _normalize_url E url = url) by (unfold _normalize_url; by rewrite Hhost).
    by rewrite !Hsame. }
  destruct (fst <$> dict_get "v" (parse_qs E (query (urlparse E url)))) as [v|] eqn:Hv.
  2:{ assert (Hsame : _normalize_url E url = url)
        by (unfold _normalize_url; by rewrite Hhost, Hv).
      by rewrite !Hsame. }
  destruct (String.eqb_spec v "") as [Hempty|Hne].
  { assert (Hsame : _normalize_url E url = url).
    { unfold _normalize_url. rewrite Hhost, Hv. by rewrite Hempty. }
    by rewrite !Hsame. }
  destruct (Hlib v eq_refl Hne) as [Hparse Hqs].
  assert (Hnorm : _normalize_url E url =
            urlunparse E
              (Parsed (scheme (urlparse E url)) (netloc (urlparse E url))
                 (path (urlparse E url)) "" (urlencode E [("v", v)]) "")).
  { unfold _normalize_url. rewrite Hhost, Hv.
    by rewrite (proj2 (String.eqb_neq _ _) Hne). }
  rewrite Hnorm. unfold _normalize_url. rewrite Hparse. cbn [netloc query scheme path].
  rewrite Hhost, Hqs. by rewrite (proj2 (String.eqb_neq _ _) Hne).
Qed.

(** A watch url with a second parameter and a fragment. *)
Lemma normalize_url_idempotent_witness :
  _normalize_url env0
    (_normalize_url env0 "https://www.youtube.com/watch?v=IMYs1X7HVbU&t=42s#top")
  = "https://www.youtube.com/watch?v=IMYs1X7HVbU".
Proof.
  rewrite (normalize_url_idempotent env0
             "https://www.youtube.com/watch?v=IMYs1X7HVbU&t=42s#top"); [reflexivity|].
  intros v Hv _. vm_compute in Hv. injection Hv as <-. split; reflexivity.
Defined.

(** The sort is stable: jobs with one key keep their order. *)
Lemma insert_desc_filter {A} (key : A -> string) s x l :
  List.filter (fun a => String.eqb (key a) s) (insert_desc key x l)
  = List.filter (fun a => String.eqb (key a) s) (x :: l).
Proof.
  induction l as [|y l IH]; [done|]. cbn [insert_desc].
  case_decide as Hle; [done|].
  cbn [List.filter] in *. rewrite IH.
  destruct (String.eqb_spec (key x) s) as [Hx|_]; [|done].
  destruct (String.eqb_spec (key y) s) as [Hy|_]; [|done].
  exfalso. apply Hle. rewrite Hx, Hy. reflexivity.
Qed.

Lemma sort_desc_filter {A} (key : A -> string) s l :
  List.filter (fun a => String.eqb (key a) s) (sort_desc key l)
  = List.filter (fun a => String.eqb (key a) s) l.
Proof.
  induction l as [|x l IH]; [done|]. unfold sort_desc in *. cbn [foldr].
  rewrite insert_desc_filter. cbn [List.filter]. by rewrite IH.
Qed.

(** X20.  The listing holds the most recent jobs.  For a limit that is
    not negative, the jobs [api_recent] lists and the jobs it leaves out
    are together the jobs of the table, each once; no job left out has a
    larger [created_at] than a listed one; jobs with the same [created_at]
    come in the order of the table; and nothing is left out when the limit
    is at least the number of jobs.  The table is not changed. *)
Theorem api_recent_lists_most_recent E w :
  0 <= MAX_RECENT E ->
  exists listed rest,
    api_recent E w = (Ok (List.map summary_of listed), w)
    /\ Permutation (listed ++ rest) (dict_values (_jobs w))
    /\ (forall a b, In a listed -> In b rest ->
          String.le (job_created_at b) (job_created_at a))
    /\ (forall s,
          List.filter (fun j => String.eqb (job_created_at j) s) (listed ++ rest)
          = List.filter (fun j => String.eqb (job_created_at j) s) (dict_values (_jobs w)))
    /\ (Z.of_nat (length (_jobs w)) <= MAX_RECENT E -> rest = []).
Proof.
  intros Hn. rewrite api_recent_run. unfold py_take. rewrite decide_True by done.
  set (sorted := sort_desc job_created_at (dict_values (_jobs w))).
  set (n := Z.to_nat (MAX_RECENT E)).
  exists (take n sorted), (drop n sorted). rewrite take_drop.
  split; [done|]. split; [apply sort_desc_perm|]. split; [|split].
  - intros a b Ha Hb.
    pose proof (sort_desc_sorted job_created_at (dict_values (_jobs w))) as Hs.
    fold sorted in Hs. rewrite <- (take_drop n sorted) in Hs.
    apply (StronglySorted_app_1_elem_of _ _ _ a b Hs); by apply list_elem_of_In.
  - intros s. apply sort_desc_filter.
  - intros Hall. apply drop_ge. unfold sorted. rewrite sort_desc_length.
    unfold dict_values. rewrite length_map. lia.
Qed.

(** Two jobs and a limit of ten. *)
Lemma api_recent_lists_most_recent_witness :
  exists listed,
    api_recent env_sweep world_two_jobs = (Ok (List.map summary_of listed), world_two_jobs)
    /\ Permutation listed (dict_values (_jobs world_two_jobs)).
Proof.
  destruct (api_recent_lists_most_recent env_sweep world_two_jobs)
    as (listed & rest & Hrun & Hperm & _ & _ & Hall); [done|].
  rewrite Hall in Hperm by (vm_compute; discriminate).
  rewrite app_nil_r in Hperm. by exists listed.
Defined.

(** ** The status read, once more *)

(** [api_status] on a job of the table, with no other thread at work. *)
Lemma api_status_run E w job_id j :
  dict_get job_id (_jobs w) = Some j ->
  api_status job_id E w = (Ok (response_of j), w).
Proof.
  intros Hj. unfold api_status, api_status_among.
  rewrite (bind_ok (jobs_get job_id) _ E w (Some j) w) by (unfold jobs_get; by rewrite Hj).
  assert (Hread : forall A (key : job -> A),
            job_read [] job_id j key E w = (Ok (key j), w)).
  { intros A key. by rewrite (job_read_run E [] job_id j key w j Hj). }
  rewrite !(bind_ok _ _ _ _ _ _ (Hread _ _)). reflexivity.
Qed.


Lemma str_forall_rev_app p a : forall b,
  str_forall p a = true -> str_forall p b = true -> str_forall p (String.rev_app a b) = true.
Proof.
  induction a as [|c a IH]; intros b Ha Hb; simpl in *; [done|].
  apply andb_true_iff in Ha as [Hc Ha]. apply IH; [done|]. simpl. by rewrite Hc.
Qed.

Lemma split_slash_components s : forall cur,
  str_forall (fun c => negb (Ascii.eqb c "/")) cur = true ->
  Forall (fun part => str_forall (fun c => negb (Ascii.eqb c "/")) part = true)
    (split_slash cur s).
Proof.
  induction s as [|c s IH]; intros cur Hcur; simpl.
  - apply Forall_singleton. by apply str_forall_rev_app.
  - destruct (Ascii.eqb c "/") eqn:Hc.
    + apply Forall_cons. split; [by apply str_forall_rev_app|by apply IH].
    + apply IH. simpl. by rewrite Hc.
Qed.

(** The base name of a path holds no separator. *)
Lemma path_name_no_slash p :
  str_forall (fun c => negb (Ascii.eqb c "/")) (path_name p) = true.
Proof.
  unfold path_name.
  set (parts := List.filter _ _).
  assert (Hparts : Forall (fun part => str_forall (fun c => negb (Ascii.eqb c "/")) part = true)
                     parts).
  { unfold parts. apply Forall_forall. intros part Hin.
    apply list_elem_of_In, filter_In in Hin as [Hin _].
    pose proof (split_slash_components p "" eq_refl) as Hall.
    rewrite Forall_forall in Hall. apply Hall. by apply list_elem_of_In. }
  clear -Hparts. induction Hparts as [|part parts Hpart _ IH]; [done|].
  destruct parts; [done|]. exact IH.
Qed.

(** X21.  The status response names files, not paths.  For a job of the
    table [api_status] returns, without changing the state, the job's id,
    status, format, times, error and items as they are, and for each path
    of [files], in order, its base name: no entry of the response's
    [files] holds a [/], so the data directory is never shown. *)
Theorem api_status_shows_base_names E w job_id j :
  dict_get job_id (_jobs w) = Some j ->
  exists resp,
    api_status job_id E w = (Ok resp, w)
    /\ r_files resp = List.map path_name (job_files j)
    /\ length (r_files resp) = length (job_files j)
    /\ Forall (fun f => str_forall (fun c => negb (Ascii.eqb c "/")) f = true) (r_files resp)
    /\ (r_id resp, r_status resp, r_format resp, r_created_at resp, r_updated_at resp,
        r_error resp, r_items resp)
       = (job_key_id j, job_status j, job_format j, job_created_at j, job_updated_at j,
          job_error j, job_items j).
Proof.
  intros Hj. exists (response_of j). split; [by apply api_status_run|].
  simpl. split; [done|]. split; [by rewrite length_map|]. split; [|done].
  apply Forall_forall. intros f Hin. apply list_elem_of_In, in_map_iff in Hin as (p & <- & _).
  apply path_name_no_slash.
Qed.

(** The finished job of [A]. *)
Lemma api_status_shows_base_names_witness :
  exists resp,
    api_status "0a" env_A_only world_A_finished = (Ok resp, world_A_finished)
    /\ r_files resp = ["A.mp3"].
Proof.
  destruct (api_status_shows_base_names env_A_only world_A_finished "0a"
              (Job "0a" "finished" "mp3" ["A"]
                 [Item "A" "completed" 100 (Some "A.mp3")]
                 ["/app/tmp_downloads/0a/A.mp3"] None
                 "2024-05-01T10:00:00Z" "2024-05-01T10:00:02Z" 1714557600000000) eq_refl)
    as (resp & Hrun & Hfiles & _).
  by exists resp.
Defined.

(** X22.  A sweep and the status of a job.  After a sweep, a status
    request for a job the sweep found expired is answered with 404, and a
    status request for any other job of the table is answered exactly as
    it would have been before the sweep. *)
Theorem status_after_sweep E w job_id j :
  dict_wf (_jobs w) ->
  dict_get job_id (_jobs w) = Some j ->
  (expired (cutoff_at E w) j = true ->
     api_status job_id E (_cleanup_old_jobs E w).2
     = (Raise (Exn (HTTPException 404) "Job not found."), (_cleanup_old_jobs E w).2))
  /\ (expired (cutoff_at E w) j = false ->
      (api_status job_id E (_cleanup_old_jobs E w).2).1 = (api_status job_id E w).1
      /\ (api_status job_id E w).1 = Ok (response_of j)).
Proof.
  intros Hwf Hj. split.
  - intros Hexp. apply api_status_not_found.
    rewrite cleanup_old_jobs_table. apply (scan_removes _ _ j); [by apply dict_get_In|done].
  - intros Hexp.
    assert (Hkept : dict_get job_id (_jobs (_cleanup_old_jobs E w).2) = Some j).
    { rewrite cleanup_old_jobs_table, scan_keeps; [done|].
      intros j' Hin. apply (dict_In_get _ _ _ Hwf) in Hin. congruence. }
    by rewrite (api_status_run _ _ _ _ Hkept), (api_status_run _ _ _ _ Hj).
Qed.

(** The sweep of that day: [0a] is gone, [0af] reads as before. *)
Lemma status_after_sweep_witness :
  (api_status "0af" env_sweep (_cleanup_old_jobs env_sweep world_two_jobs).2).1
  = (api_status "0af" env_sweep world_two_jobs).1.
Proof.
  assert (Hwf : dict_wf (_jobs world_two_jobs)).
  { unfold dict_wf. simpl. apply NoDup_cons. split; [|apply NoDup_singleton].
    apply not_elem_of_cons. split; [done|apply not_elem_of_nil]. }
  refine (proj1 (proj2 (status_after_sweep env_sweep world_two_jobs "0af"
                          (Job "0af" "queued" "mp4" ["B"] [Item "B" "queued" 0 None] [] None
                             "2024-05-01T16:30:00Z" "2024-05-01T16:30:00Z" 1714581000000000)
                          Hwf eq_refl) _)).
  reflexivity.
Defined.

(** ** Who writes what *)

(** A key the table does not hold stays out under the runner's critical
    sections. *)
Lemma keeps_absent_run_others id ops :
  keeps (on_jobs (fun d => dict_get id d = None)) (run_others ops).
Proof.
  apply keeps_run_others.
  - intros k u E w HQ. unfold on_jobs in *. destruct (dict_get k (_jobs w)) as [j|] eqn:Hk.
    + rewrite (update_job_run _ _ _ _ _ Hk). simpl.
      rewrite dict_get_set_ne; [done|]. intros ->. congruence.
    + by rewrite (update_job_absent _ _ _ _ Hk).
  - intros k i s info E w HQ. unfold on_jobs in *.
    destruct (dict_get k (_jobs w)) as [j|] eqn:Hk.
    + rewrite (progress_hook_run _ _ _ _ _ _ _ Hk).
      destruct (progress_hook_items _ _ _ _) as [r items]. simpl.
      rewrite dict_get_set_ne; [done|]. intros ->. congruence.
    + by rewrite (progress_hook_absent _ _ _ _ _ _ Hk).
Qed.

(** X23.  An evicted job does not come back.  Once the table does not
    hold an id (the cleaner took the job while its runner was at work),
    what is left of the runner does nothing: every [_update_job] and every
    call of the progress hook for that id returns and leaves the whole
    state as it is, a run of [_download_job] for it returns at once, and
    whatever critical sections of any runner follow, the id stays out of
    the table. *)
Theorem evicted_job_stays_out E w job_id :
  dict_get job_id (_jobs w) = None ->
  _download_job job_id E w = (Ok tt, w)
  /\ (forall ops, Forall (fun o => op_job_id o = job_id) ops ->
        run_others ops E w = (Ok tt, w))
  /\ (forall ops, dict_get job_id (_jobs (run_others ops E w).2) = None).
Proof.
  intros Hj. split; [|split].
  - unfold _download_job.
    by rewrite (bind_ok (jobs_get job_id) _ E w None w) by (unfold jobs_get; by rewrite Hj).
  - intros ops Hops. induction Hops as [|o ops Ho _ IH]; [done|].
    cbn [run_others].
    rewrite (bind_ok _ _ E w tt w); [exact IH|].
    apply try_ok. destruct o as [k u|k i s info]; simpl in Ho; subst k.
    + by apply update_job_absent.
    + by apply progress_hook_absent.
  - intros ops. by apply (keeps_absent_run_others job_id ops E w).
Qed.

(** After the sweep of that day the runner of [0a] reports in vain. *)
Lemma evicted_job_stays_out_witness :
  run_others [OpProgress "0a" 0 "completed" (Some (Info None (Some 100%Q) []));
              OpUpdate "0a" (Updates (Some "finished") (Some []) None)]
    env_sweep (_cleanup_old_jobs env_sweep world_two_jobs).2
  = (Ok tt, (_cleanup_old_jobs env_sweep world_two_jobs).2).
Proof.
  refine (proj1 (proj2 (evicted_job_stays_out env_sweep
                          (_cleanup_old_jobs env_sweep world_two_jobs).2 "0a" _)) _ _).
  - vm_compute. reflexivity.
  - repeat constructor.
Defined.





(** X25.  A negative limit.  With [MAX_RECENT] below zero the slice
    [recent[:MAX_RECENT]] counts from the end: [api_recent] lists the
    jobs from the newest on and leaves out the [-MAX_RECENT] oldest, so
    it lists nothing once the table has no more jobs than that; it raises
    no error. *)
Theorem api_recent_negative_limit_drops_oldest E w :
  MAX_RECENT E < 0 ->
  exists listed rest,
    api_recent E w = (Ok (List.map summary_of listed), w)
    /\ listed ++ rest = sort_desc job_created_at (dict_values (_jobs w))
    /\ length listed = Z.to_nat (Z.of_nat (length (_jobs w)) + MAX_RECENT E)
    /\ (Z.of_nat (length (_jobs w)) <= - MAX_RECENT E -> listed = [])
    /\ (- MAX_RECENT E <= Z.of_nat (length (_jobs w)) ->
        length rest = Z.to_nat (- MAX_RECENT E))
    /\ (forall a b, In a listed -> In b rest ->
          String.le (job_created_at b) (job_created_at a)).
Proof.
  intros Hn. rewrite api_recent_run. unfold py_take. rewrite decide_False by lia.
  set (sorted := sort_desc job_created_at (dict_values (_jobs w))).
  assert (Hlen : length sorted = length (_jobs w)).
  { unfold sorted. rewrite sort_desc_length. unfold dict_values. by rewrite length_map. }
  rewrite Hlen.
  set (n := Z.to_nat (Z.of_nat (length (_jobs w)) + MAX_RECENT E)).
  exists (take n sorted), (drop n sorted). rewrite take_drop.
  split; [done|]. split; [done|]. split; [|split; [|split]].
  - rewrite length_take. lia.
  - intros Hfew. replace n with 0%nat by lia. done.
  - intros Hmany. rewrite length_drop. lia.
  - intros a b Ha Hb.
    pose proof (sort_desc_sorted job_created_at (dict_values (_jobs w))) as Hs.
    fold sorted in Hs. rewrite <- (take_drop n sorted) in Hs.
    apply (StronglySorted_app_1_elem_of _ _ _ a b Hs); by apply list_elem_of_In.
Qed.

(** Two jobs and a limit of -1: the later one is listed. *)
Lemma api_recent_negative_limit_drops_oldest_witness :
  exists listed,
    api_recent env_negative_limit world_two_jobs
      = (Ok (List.map summary_of listed), world_two_jobs)
    /\ length listed = 1%nat.
Proof.
  destruct (api_recent_negative_limit_drops_oldest env_negative_limit world_two_jobs)
    as (listed & rest & Hrun & _ & Hlen & _); [done|].
  by exists listed.
Defined.

(** X1.  The runner on a batch whose fetches all return.  For a job with one
    item per url and a format of the helper, when [extract_info] returns for
    every url of the job, [_download_job] returns and leaves the job
    [finished]; [files] holds the newest new file of each url that left one,
    in the order of the urls, so at most one per url; every item is
    [completed] with percent 100 and still carries its url; [error] is as
    it was.  An item whose url left a file carries the base name of that
    file. *)
Theorem download_job_all_fetched E w job_id j :
  dict_get job_id (_jobs w) = Some j ->
  length (job_items j) = length (job_urls j) ->
  job_format j = "mp3" \/ job_format j = "mp4" ->
  (forall i url, job_urls j !! i = Some url ->
     exists newest, fr_end (extract_info_at E i (_normalize_url E url)) = Produced newest) ->
  exists w' j',
    _download_job job_id E w = (Ok tt, w')
    /\ dict_get job_id (_jobs w') = Some j'
    /\ job_status j' = "finished"
    /\ job_files j' = produced_files E 0 (List.map (_normalize_url E) (job_urls j))
    /\ (length (job_files j') <= length (job_urls j))%nat
    /\ length (job_items j') = length (job_items j)
    /\ (forall i it, job_items j' !! i = Some it ->
          item_status it = "completed" /\ item_percent it = 100%Q
          /\ item_url <$> job_items j !! i = Some (item_url it))
    /\ (forall i it url p,
          job_items j' !! i = Some it -> job_urls j !! i = Some url ->
          newest_of (extract_info_at E i (_normalize_url E url)) = Some p ->
          item_filename it = Some (path_name p))
    /\ job_error j' = job_error j.
Proof.
  intros Hj Hlen Hfmt Hall. unfold _download_job.
  rewrite (bind_ok (jobs_get job_id) _ E w (Some j) w) by (unfold jobs_get; by rewrite Hj).
  rewrite (bind_ok _ _ _ _ _ _ (update_job_run E w job_id j _ Hj)).
  set (j1 := job_set_updated_at _ _). set (w2 := World _ _ _ _).
  assert (Hj1 : dict_get job_id (_jobs w2) = Some j1) by apply dict_get_set_eq.
  set (urls := List.map (_normalize_url E) (job_urls j)).
  assert (Hrun : download_media (inl (job_urls j)) (job_format j)
                   (Some (progress_hook job_id)) E w2 =
                 (Ok (produced_files E 0 urls),
                  world_with_items job_id j1 (completed_items E 0 urls (job_items j1)) w2)).
  { rewrite download_media_run by done. fold urls.
    rewrite (download_loop_all_return E job_id urls 0 [] w2 j1 Hj1); [done| |].
    - unfold urls. rewrite length_map. simpl. lia.
    - intros i url Hi. unfold urls in Hi. rewrite list_lookup_fmap in Hi.
      destruct (job_urls j !! i) as [u|] eqn:Hu; [|done]. injection Hi as <-.
      by apply Hall. }
  erewrite try_ok;
    [|rewrite (bind_ok _ _ _ _ _ _ Hrun);
      erewrite update_job_run by apply world_with_items_get; reflexivity].
  eexists _, _. split; [reflexivity|]. simpl. rewrite dict_get_set_eq.
  split; [reflexivity|]. simpl. split; [done|]. split; [done|]. split.
  { etrans; [apply produced_files_length|]. unfold urls. by rewrite length_map. }
  split; [by rewrite completed_items_length|]. split; [|split; [|done]].
  2:{ intros i it url p Hit Hurl Hnew.
      assert (Hnurl : urls !! i = Some (_normalize_url E url)).
      { unfold urls. by rewrite list_lookup_fmap, Hurl. }
      pose proof (completed_items_lookup E urls 0 (job_items j) i _ Hnurl) as Hc.
      simpl in Hc. rewrite Hc in Hit.
      destruct (job_items j !! i) as [it0|]; [|done]. injection Hit as <-.
      rewrite Hnew. apply completed_write_filename. }
  intros i it Hit.
  assert (Hi : (i < length (job_urls j))%nat).
  { apply lookup_lt_Some in Hit. rewrite completed_items_length in Hit. lia. }
  destruct (lookup_lt_is_Some_2 urls i) as [url Hurl].
  { unfold urls. by rewrite length_map. }
  pose proof (completed_items_lookup E urls 0 (job_items j) i url Hurl) as Hc.
  simpl in Hc. rewrite Hc in Hit.
  destruct (job_items j !! i) as [it0|]; [|done]. injection Hit as <-.
  destruct (completed_write_fields (fr_events (extract_info_at E i url))
              (newest_of (extract_info_at E i url)) it0) as (Hs & Hp & Hu).
  rewrite Hs, Hp, Hu, events_write_url. done.
Qed.

(** The job [["A", "B"]] against a service that fetches every url and finds
    a new file for [A] only. *)
Lemma download_job_all_fetched_witness :
  exists w' j,
    _download_job "0a" env_all_ok world_AB_queued = (Ok tt, w')
    /\ dict_get "0a" (_jobs w') = Some j
    /\ job_status j = "finished"
    /\ job_files j = ["/app/tmp_downloads/0a/A.mp3"].
Proof.
  destruct (download_job_all_fetched env_all_ok world_AB_queued "0a" job_AB_queued)
    as (w' & j & Hrun & Hj & Hst & Hfiles & _).
  - reflexivity.
  - reflexivity.
  - by left.
  - intros [|[|i]] url Hi; simplify_eq/=; by eexists.
  - by exists w', j.
Defined.

(** X2.  The runner on a batch whose first failing url is at any position.
    The urls of the job are [pre ++ u :: post]; [extract_info] returns for
    the urls of [pre] and raises [e] for [u].  Then [_download_job] returns
    and leaves the job in status [error] with the message of [e]; the
    items of [pre] are [completed] with percent 100, the item of [u] is
    [error], the items of [post] are exactly as they were (no url of [post]
    is fetched), and [files] is as it was before the run. *)
Theorem download_job_first_failure E w job_id j pre u post e :
  dict_get job_id (_jobs w) = Some j ->
  length (job_items j) = length (job_urls j) ->
  job_format j = "mp3" \/ job_format j = "mp4" ->
  job_urls j = pre ++ u :: post ->
  (forall i url, pre !! i = Some url ->
     exists newest, fr_end (extract_info_at E i (_normalize_url E url)) = Produced newest) ->
  fr_end (extract_info_at E (length pre) (_normalize_url E u)) = Failed e ->
  exists w' j',
    _download_job job_id E w = (Ok tt, w')
    /\ dict_get job_id (_jobs w') = Some j'
    /\ job_status j' = "error"
    /\ job_error j' = Some (exn_msg e)
    /\ job_files j' = job_files j
    /\ length (job_items j') = length (job_items j)
    /\ (forall i it, (i < length pre)%nat -> job_items j' !! i = Some it ->
          item_status it = "completed" /\ item_percent it = 100%Q)
    /\ (forall it, job_items j' !! length pre = Some it -> item_status it = "error")
    /\ (forall i, (length pre < i)%nat -> job_items j' !! i = job_items j !! i).
Proof.
  intros Hj Hlen Hfmt Hurls Hall Hfail. unfold _download_job.
  rewrite (bind_ok (jobs_get job_id) _ E w (Some j) w) by (unfold jobs_get; by rewrite Hj).
  rewrite (bind_ok _ _ _ _ _ _ (update_job_run E w job_id j _ Hj)).
  set (j1 := job_set_updated_at _ _). set (w2 := World _ _ _ _).
  assert (Hj1 : dict_get job_id (_jobs w2) = Some j1) by apply dict_get_set_eq.
  set (npre := List.map (_normalize_url E) pre).
  set (nu := _normalize_url E u).
  assert (Hnpre : length npre = length pre) by (unfold npre; by rewrite length_map).
  assert (Hrun : download_media (inl (job_urls j)) (job_format j)
                   (Some (progress_hook job_id)) E w2 =
                 (Raise e,
                  world_with_items job_id j1
                    (alter (failed_write (fr_events (extract_info_at E (length pre) nu)))
                       (length pre) (completed_items E 0 npre (job_items j1))) w2)).
  { rewrite download_media_run by done. rewrite Hurls, map_app. cbn [List.map].
    fold npre nu.
    rewrite (download_loop_first_failure E job_id npre 0 [] w2 j1 nu _ e Hj1).
    - simpl. by rewrite Hnpre.
    - simpl. rewrite Hnpre, Hlen, Hurls, length_app. simpl. lia.
    - intros i url Hi. unfold npre in Hi. rewrite list_lookup_fmap in Hi.
      destruct (pre !! i) as [u0|] eqn:Hu; [|done]. injection Hi as <-.
      by apply Hall.
    - simpl. by rewrite Hnpre. }
  rewrite (try_caught _ _ _ _ _ _ _ (bind_raise _ _ _ _ _ _ Hrun) eq_refl).
  erewrite update_job_run by apply world_with_items_get.
  eexists _, _. split; [reflexivity|]. simpl. rewrite dict_get_set_eq.
  split; [reflexivity|]. simpl. do 3 (split; [done|]).
  split; [by rewrite length_alter, completed_items_length|]. split; [|split].
  - intros i it Hi Hit. rewrite list_lookup_alter_ne in Hit by lia.
    destruct (lookup_lt_is_Some_2 npre i) as [url Hurl]; [lia|].
    pose proof (completed_items_lookup E npre 0 (job_items j) i url Hurl) as Hc.
    simpl in Hc. rewrite Hc in Hit.
    destruct (job_items j !! i) as [it0|]; [|done]. injection Hit as <-.
    destruct (completed_write_fields (fr_events (extract_info_at E i url))
                (newest_of (extract_info_at E i url)) it0) as (Hs & Hp & _).
    by rewrite Hs, Hp.
  - intros it Hit. rewrite list_lookup_alter_eq in Hit.
    destruct (completed_items E 0 npre (job_items j) !! length pre) as [it0|]; [|done].
    injection Hit as <-. apply failed_write_fields.
  - intros i Hi. rewrite list_lookup_alter_ne by lia.
    apply completed_items_lookup_ge. simpl. lia.
Qed.

(** The job [["A", "B"]] against a service that fetches [A] and fails on
    anything else: the failure is at position 1. *)
Lemma download_job_first_failure_witness :
  exists w' j,
    _download_job "0a" env_A_only world_AB_queued = (Ok tt, w')
    /\ dict_get "0a" (_jobs w') = Some j
    /\ job_status j = "error"
    /\ job_error j = Some "ERROR: B is unavailable".
Proof.
  destruct (download_job_first_failure env_A_only world_AB_queued "0a" job_AB_queued
              ["A"] "B" [] (Exn OtherError "ERROR: B is unavailable"))
    as (w' & j & Hrun & Hj & Hst & Herr & _).
  - reflexivity.
  - reflexivity.
  - by left.
  - reflexivity.
  - intros [|i] url Hi; simplify_eq/=. by eexists.
  - reflexivity.
  - by exists w', j.
Defined.

(** ** What a run of the helper keeps, for one hook *)

Section hook_invariant.
Context (P : env -> world -> Prop) (hook : ProgressHook).
Hypothesis P_hook : forall i s info, keeps P (hook i s info).





End hook_invariant.








(** X4.  A format the helper does not know.  [download_media] raises its
    [ValueError] before any url is fetched, and the runner records it: the
    job ends in status [error] with the helper's message, and its items and
    files are not touched. *)
Theorem download_job_unknown_format E w job_id j :
  dict_get job_id (_jobs w) = Some j ->
  job_format j <> "mp3" -> job_format j <> "mp4" ->
  exists w' j',
    _download_job job_id E w = (Ok tt, w')
    /\ dict_get job_id (_jobs w') = Some j'
    /\ job_status j' = "error"
    /\ job_error j' = Some "mode must be 'mp3' or 'mp4'"
    /\ job_items j' = job_items j
    /\ job_files j' = job_files j
    /\ utcnow_calls w' = S (S (utcnow_calls w)).
Proof.
  intros Hj H3 H4. unfold _download_job.
  rewrite (bind_ok (jobs_get job_id) _ E w (Some j) w) by (unfold jobs_get; by rewrite Hj).
  rewrite (bind_ok _ _ _ _ _ _ (update_job_run E w job_id j _ Hj)).
  set (j1 := job_set_updated_at _ _). set (w2 := World _ _ _ _).
  assert (Hj1 : dict_get job_id (_jobs w2) = Some j1) by apply dict_get_set_eq.
  rewrite (try_caught _ _ _ _ _ _ _
             (bind_raise _ _ _ _ _ _ (download_media_bad_mode E w2 _ _ _ H3 H4)) eq_refl).
  rewrite (update_job_run _ _ _ _ _ Hj1).
  eexists _, _. split; [reflexivity|]. simpl. rewrite dict_get_set_eq.
  split; [reflexivity|]. done.
Qed.

(** A job whose format is [wav]. *)
Lemma download_job_unknown_format_witness :
  exists w' j',
    _download_job "0a" env_A_only
      (World [("0a", Job "0a" "queued" "wav" ["A"] [Item "A" "queued" 0 None] [] None
                 "2024-05-01T10:00:00Z" "2024-05-01T10:00:00Z" 1714557600000000)] 1 1 [])
      = (Ok tt, w')
    /\ dict_get "0a" (_jobs w') = Some j'
    /\ job_status j' = "error"
    /\ job_error j' = Some "mode must be 'mp3' or 'mp4'"
    /\ job_items j' = [Item "A" "queued" 0 None].
Proof.
  destruct (download_job_unknown_format env_A_only
              (World [("0a", Job "0a" "queued" "wav" ["A"] [Item "A" "queued" 0 None] [] None
                 "2024-05-01T10:00:00Z" "2024-05-01T10:00:00Z" 1714557600000000)] 1 1 [])
              "0a" _ eq_refl)
    as (w' & j' & Hrun & Hj & Hst & Herr & Hit & _); [done|done|].
  by exists w', j'.
Defined.

Lemma job_update_fixed u j : job_fixed (job_update u j) = job_fixed j.
Proof. by destruct u as [[s|] [f|] [e|]], j. Qed.





(** X7.  What a call of the progress hook can do.  For a job the table
    holds, and for any index, status and info, the hook returns or raises
    [IndexError]; either way the table still holds the job, with every
    field other than [items] as it was ([updated_at] included: a progress
    write does not refresh it), with as many items as before, each with its
    url; every other job, the clock, the id counter and the deletion log
    are untouched. *)
Theorem progress_hook_frame E w job_id j item_index status info :
  dict_get job_id (_jobs w) = Some j ->
  exists r w' j',
    progress_hook job_id item_index status info E w = (r, w')
    /\ (r = Ok tt \/ r = Raise (Exn IndexError "list index out of range"))
    /\ dict_get job_id (_jobs w') = Some j'
    /\ job_set_items (job_items j) j' = j
    /\ length (job_items j') = length (job_items j)
    /\ List.map item_url (job_items j') = List.map item_url (job_items j)
    /\ (forall k, k <> job_id -> dict_get k (_jobs w') = dict_get k (_jobs w))
    /\ utcnow_calls w' = utcnow_calls w
    /\ uuid4_calls w' = uuid4_calls w
    /\ fs_log w' = fs_log w.
Proof.
  intros Hj. rewrite (progress_hook_run _ _ _ _ _ _ _ Hj).
  pose proof (progress_hook_items_urls item_index status info (job_items j)) as Hurls.
  assert (Hr : (progress_hook_items item_index status info (job_items j)).1 = Ok tt
               \/ (progress_hook_items item_index status info (job_items j)).1
                  = Raise (Exn IndexError "list index out of range")).
  { unfold progress_hook_items, item_assign.
    destruct info as [i|]; [|by left]. destruct (info_truthy _); [|by left].
    destruct (info_filename i) as [f|], (info_percent i) as [p|];
      repeat (destruct (py_index _ _)); simpl; auto. }
  destruct (progress_hook_items _ _ _ _) as [r items]. simpl in *.
  eexists _, _, _. split; [reflexivity|]. simpl. rewrite dict_get_set_eq.
  split; [destruct Hr as [-> | ->]; auto|]. split; [reflexivity|].
  split; [by destruct j|]. split.
  { apply (f_equal length) in Hurls. by rewrite !length_map in Hurls. }
  split; [done|]. split; [|by destruct w].
  intros k Hk. by rewrite dict_get_set_ne.
Qed.

(** A progress write on the second item of the queued job. *)
Lemma progress_hook_frame_witness :
  exists r w' j',
    progress_hook "0a" 1 "downloading" (Some (Info None (Some 12.5%Q) [])) env_A_only
      world_AB_queued = (r, w')
    /\ dict_get "0a" (_jobs w') = Some j'
    /\ job_updated_at j' = "2024-05-01T10:00:00Z"
    /\ List.map item_url (job_items j') = ["A"; "B"].
Proof.
  destruct (progress_hook_frame env_A_only world_AB_queued "0a" job_AB_queued 1
              "downloading" (Some (Info None (Some 12.5%Q) [])) eq_refl)
    as (r & w' & j' & Hrun & _ & Hj & Hsame & _ & Hurls & _).
  exists r, w', j'. split; [done|]. split; [done|]. split; [|done].
  apply (f_equal job_updated_at) in Hsame. by destruct j'.
Defined.

(** X8.  What [_update_job] leaves alone.  The call reads the clock once
    and stamps [updated_at] with it; the job's id, format, urls, items and
    creation time, every other job, the id counter and the deletion log are
    as before. *)
Theorem update_job_frame E w job_id j u :
  dict_get job_id (_jobs w) = Some j ->
  exists w' j',
    _update_job job_id u E w = (Ok tt, w')
    /\ dict_get job_id (_jobs w') = Some j'
    /\ job_updated_at j' = isoformat (utcnow_at E (utcnow_calls w)) +:+ "Z"
    /\ job_fixed j' = job_fixed j
    /\ job_items j' = job_items j
    /\ (forall k, k <> job_id -> dict_get k (_jobs w') = dict_get k (_jobs w))
    /\ dict_keys (_jobs w') = dict_keys (_jobs w)
    /\ utcnow_calls w' = S (utcnow_calls w)
    /\ uuid4_calls w' = uuid4_calls w
    /\ fs_log w' = fs_log w.
Proof.
  intros Hj. rewrite (update_job_run _ _ _ _ _ Hj).
  eexists _, _. split; [reflexivity|]. simpl. rewrite dict_get_set_eq.
  split; [reflexivity|]. split; [done|].
  split; [by destruct u as [[?|] [?|] [?|]], j|].
  split; [by destruct u as [[?|] [?|] [?|]], j|].
  split; [intros k Hk; by rewrite dict_get_set_ne|].
  split; [|done].
  clear -Hj. induction (_jobs w) as [|[k v] d IH]; [done|]. simpl in *.
  destruct (String.eqb job_id k) eqn:Hk; simpl.
  - apply String.eqb_eq in Hk. by subst.
  - f_equal. by apply IH.
Qed.

(** The status of the queued job is set to [running]. *)
Lemma update_job_frame_witness :
  exists w' j',
    _update_job "0a" (Updates (Some "running") None None) env_A_only world_AB_queued
      = (Ok tt, w')
    /\ dict_get "0a" (_jobs w') = Some j'
    /\ job_updated_at j' = "2024-05-01T10:00:01Z"
    /\ job_items j' = [Item "A" "queued" 0 None; Item "B" "queued" 0 None].
Proof.
  destruct (update_job_frame env_A_only world_AB_queued "0a" job_AB_queued
              (Updates (Some "running") None None) eq_refl)
    as (w' & j' & Hrun & Hj & Hup & _ & Hitems & _).
  by exists w', j'.
Defined.

(** ** What stays true of a job while the table holds it *)

Lemma ids_match_keys_run_calls E calls w :
  ids_match_keys (_jobs w) -> ids_match_keys (_jobs (run_calls E calls w)).
Proof.
  apply (keeps_run_calls (on_jobs ids_match_keys)).
  - apply keeps_on_jobs_utcnow.
  - apply keeps_on_jobs_fs_attempt.
  - intros k E0 w0 H k' j Hk'. simpl in Hk'. apply dict_get_pop_Some in Hk'. by apply H.
  - intros urls fmt E0 w0 H k j. simpl.
    destruct (decide (uuid4_at E0 (uuid4_calls w0) = k)) as [<-|Hne].
    + rewrite dict_get_set_eq. by intros [= <-].
    + rewrite dict_get_set_ne by done. apply H.
  - intros k u E0 w0 H k' j'. unfold on_jobs in *.
    destruct (dict_get k (_jobs w0)) as [j|] eqn:Hk.
    + rewrite (update_job_run _ _ _ _ _ Hk). simpl.
      destruct (decide (k = k')) as [->|Hne].
      * rewrite dict_get_set_eq. intros [= <-]. apply H in Hk.
        unfold job_key_id in *. by destruct u as [[?|] [?|] [?|]], j.
      * rewrite dict_get_set_ne by done. apply H.
    + rewrite (update_job_absent _ _ _ _ Hk). apply H.
  - intros k i s info E0 w0 H k' j'. unfold on_jobs in *.
    destruct (dict_get k (_jobs w0)) as [j|] eqn:Hk.
    + rewrite (progress_hook_run _ _ _ _ _ _ _ Hk).
      destruct (progress_hook_items _ _ _ _) as [r items]. simpl.
      destruct (decide (k = k')) as [->|Hne].
      * rewrite dict_get_set_eq. intros [= <-]. apply H in Hk. by destruct j.
      * rewrite dict_get_set_ne by done. apply H.
    + rewrite (progress_hook_absent _ _ _ _ _ _ Hk). apply H.
Qed.

(** X9.  A job keeps its identity.  When [uuid4] never repeats a value,
    then in every state reached from process start by submissions, runs of
    the runner, single critical sections and sweeps, a job is stored under
    its own id, and for as long as the table holds it none of its id,
    format, urls, [created_at] and [created_ts] changes: whatever further
    calls are made, what is then bound to the id has these fields as
    before. *)
Theorem job_identity_is_stable E calls0 calls k j j' :
  (forall a b, uuid4_at E a = uuid4_at E b -> a = b) ->
  dict_get k (_jobs (run_calls E calls0 world0)) = Some j ->
  dict_get k (_jobs (run_calls E calls (run_calls E calls0 world0))) = Some j' ->
  job_key_id j = k /\ job_fixed j' = job_fixed j.
Proof.
  intros Hinj Hj Hj'. set (w := run_calls E calls0 world0) in *.
  split.
  { by apply (ids_match_keys_run_calls E calls0 world0). }
  assert (Hkeys : keys_from_uuid4 E w).
  { apply keys_from_uuid4_run_calls. by intros k0 j0. }
  destruct (Hkeys _ _ Hj) as (n0 & Hn0 & Hk).
  set (P := fun (E' : env) (w' : world) =>
              uuid4_at E' = uuid4_at E ->
              (n0 < uuid4_calls w')%nat
              /\ forall j1, dict_get k (_jobs w') = Some j1 -> job_fixed j1 = job_fixed j).
  assert (HP : P E (run_calls E calls w)).
  { apply (keeps_run_calls P).
    - by intros E0 w0.
    - intros op E0 w0 H. unfold fs_attempt. by destruct (fault_at _ _ _).
    - intros k0 E0 w0 H HE. destruct (H HE) as [Hlt Hfix]. split; [done|].
      intros j1 Hj1. simpl in Hj1. apply dict_get_pop_Some in Hj1. by apply Hfix.
    - intros urls fmt E0 w0 H HE. destruct (H HE) as [Hlt Hfix]. simpl. split; [lia|].
      intros j1. rewrite dict_get_set_ne; [apply Hfix|].
      rewrite HE, Hk. intros Heq. apply Hinj in Heq. lia.
    - intros k0 u E0 w0 H HE. destruct (H HE) as [Hlt Hfix].
      destruct (dict_get k0 (_jobs w0)) as [j0|] eqn:Hk0.
      + rewrite (update_job_run _ _ _ _ _ Hk0). simpl. split; [done|]. intros j1.
        destruct (decide (k0 = k)) as [->|Hne].
        * rewrite dict_get_set_eq. intros [= <-]. rewrite <- (Hfix _ Hk0).
          by destruct u as [[?|] [?|] [?|]], j0.
        * rewrite dict_get_set_ne by done. apply Hfix.
      + by rewrite (update_job_absent _ _ _ _ Hk0).
    - intros k0 i s info E0 w0 H HE. destruct (H HE) as [Hlt Hfix].
      destruct (dict_get k0 (_jobs w0)) as [j0|] eqn:Hk0.
      + rewrite (progress_hook_run _ _ _ _ _ _ _ Hk0).
        destruct (progress_hook_items _ _ _ _) as [r items]. simpl. split; [done|].
        intros j1. destruct (decide (k0 = k)) as [->|Hne].
        * rewrite dict_get_set_eq. intros [= <-]. rewrite <- (Hfix _ Hk0). by destruct j0.
        * rewrite dict_get_set_ne by done. apply Hfix.
      + by rewrite (progress_hook_absent _ _ _ _ _ _ Hk0).
    - intros _. split; [done|]. intros j1 Hj1. congruence. }
  by apply HP.
Qed.

(** The job [["A", "B"]] after its run and a further submission. *)
Lemma job_identity_is_stable_witness :
  exists j',
    dict_get "0a"
      (_jobs (run_calls env_A_only [CallDownloadJob "0a"; CallNewJob ["C"] "mp4"]
                (run_calls env_A_only [CallNewJob ["A"; "B"] "mp3"] world0)))
      = Some j'
    /\ job_status j' = "error"
    /\ job_fixed j' = ("0a", "mp3", ["A"; "B"], "2024-05-01T10:00:00Z", 1714557600000000).
Proof.
  eexists. split; [vm_compute; reflexivity|]. split; [reflexivity|].
  refine (proj2 (job_identity_is_stable env_A_only [CallNewJob ["A"; "B"] "mp3"]
                   [CallDownloadJob "0a"; CallNewJob ["C"] "mp4"] "0a" job_AB_queued _
                   ref_uuid4_inj eq_refl _)).
  vm_compute. reflexivity.
Defined.

(** ** The cleaner, round after round *)

Lemma scan_nothing cutoff_ts snapshot : forall (d : dict job),
  (forall k j, In (k, j) snapshot -> expired cutoff_ts j = false) ->
  fold_left (scan_step cutoff_ts) snapshot d = d
  /\ List.filter (fun kj => expired cutoff_ts kj.2) snapshot = [].
Proof.
  induction snapshot as [|[k j] snapshot IH]; intros d Hall; [done|].
  cbn [fold_left List.filter]. unfold scan_step at 2. cbn [fst snd].
  rewrite (Hall k j (or_introl eq_refl)).
  apply IH. intros k' j' Hin. apply (Hall k' j'). by right.
Qed.

(** X10.  A sweep that finds nothing expired.  When every job of the
    table has a creation timestamp of 0 or one at or after the cutoff, the
    sweep returns having read the clock once and done nothing else: the
    table is the same, no path is tested and no deletion is attempted,
    whatever the state of the file system. *)
Theorem cleanup_with_nothing_expired E w :
  (forall k j, In (k, j) (_jobs w) ->
     job_created_ts j = 0 \/ cutoff_at E w <= job_created_ts j) ->
  _cleanup_old_jobs E w =
    (Ok tt, World (_jobs w) (S (utcnow_calls w)) (uuid4_calls w) (fs_log w)).
Proof.
  intros Hall.
  assert (Hexp : forall k j, In (k, j) (_jobs w) -> expired (cutoff_at E w) j = false).
  { intros k j Hin. unfold expired. destruct (Hall k j Hin) as [H0|Hnew].
    - by rewrite H0.
    - apply andb_false_intro2. by apply Z.ltb_ge. }
  destruct (scan_nothing (cutoff_at E w) (_jobs w) (_jobs w) Hexp) as [Hfold Hfilter].
  unfold _cleanup_old_jobs.
  rewrite (bind_ok ask _ E w E w eq_refl).
  rewrite (bind_ok utcnow _ E w _ _ eq_refl).
  rewrite (bind_ok jobs_items _ E _ _ _ eq_refl).
  rewrite (bind_ok _ _ E _ _ _ (cleanup_scan_run _ _ _ _ _)).
  cbn [app]. unfold dict_items. cbn [_jobs].
  change (timestamp (utcnow_at E (utcnow_calls w)) - hours (JOB_TTL_HOURS E))
    with (cutoff_at E w).
  rewrite Hfilter, Hfold. reflexivity.
Qed.

(** The sweep of 17:00 on a table that holds the job of 16:30 only. *)
Lemma cleanup_with_nothing_expired_witness :
  _cleanup_old_jobs env_sweep
    (World [("0af", Job "0af" "queued" "mp4" ["B"] [Item "B" "queued" 0 None] [] None
               "2024-05-01T16:30:00Z" "2024-05-01T16:30:00Z" 1714581000000000)] 2 2 [])
  = (Ok tt,
     World [("0af", Job "0af" "queued" "mp4" ["B"] [Item "B" "queued" 0 None] [] None
               "2024-05-01T16:30:00Z" "2024-05-01T16:30:00Z" 1714581000000000)] 3 2 []).
Proof.
  apply (cleanup_with_nothing_expired env_sweep
           (World [("0af", Job "0af" "queued" "mp4" ["B"] [Item "B" "queued" 0 None] [] None
               "2024-05-01T16:30:00Z" "2024-05-01T16:30:00Z" 1714581000000000)] 2 2 [])).
  intros k j [[= <- <-]|[]]. right. vm_compute. discriminate.
Defined.

(** A whole sweep, when a failing deletion is an [OSError]. *)
Lemma cleanup_old_jobs_run E w :
  (forall log op e, fault_at E log op = Some e -> exn_cls e = OSError) ->
  _cleanup_old_jobs E w =
    (Ok tt,
     World (fold_left (scan_step (cutoff_at E w)) (_jobs w) (_jobs w))
       (S (utcnow_calls w)) (uuid4_calls w)
       (fs_log w ++ sweep_ops E (fs_log w) (evicted (cutoff_at E w) (_jobs w)))).
Proof.
  intros Hos. unfold _cleanup_old_jobs.
  rewrite (bind_ok ask _ E w E w eq_refl).
  rewrite (bind_ok utcnow _ E w _ _ eq_refl).
  rewrite (bind_ok jobs_items _ E _ _ _ eq_refl).
  rewrite (bind_ok _ _ E _ _ _ (cleanup_scan_run _ _ _ _ _)).
  cbn [app]. unfold dict_items. cbn [_jobs].
  rewrite <- (map_map fst (fun k => (k, path_join (DATA_DIR E) k))).
  rewrite (cleanup_artifacts_run E Hos). reflexivity.
Qed.

Lemma sweep_ops_of_jobs E job_ids : forall log op,
  In op (sweep_ops E log job_ids) -> exists k, In k job_ids /\ op_of_job E k op.
Proof.
  induction job_ids as [|k job_ids IH]; intros log op Hin; [done|].
  cbn [sweep_ops] in Hin. apply in_app_or in Hin as [Hin|Hin].
  - exists k. split; [by left|]. unfold job_ops in Hin.
    apply in_app_or in Hin as [Hin|Hin].
    + unfold dir_ops in Hin. destruct (exists_at _ _ _); [|done].
      apply in_app_or in Hin as [Hin|[<-|[]]]; [|by left].
      apply in_map_iff in Hin as (c & <- & Hc). right. right. by exists log, c.
    + unfold zip_ops in Hin. destruct (exists_at _ _ _); [|done].
      destruct Hin as [<-|[]]. right. by left.
  - destruct (IH _ _ Hin) as (k' & Hk' & Hop). exists k'. split; [by right|done].
Qed.

(** X11.  The sweep deletes for evicted jobs only.  When a failing
    deletion is an [OSError], every [unlink] and [rmdir] a sweep attempts
    is made for a job that was in the table with an expired timestamp and
    that the same sweep has removed from it: the directory of that job,
    what the directory listed, or the archive of that job.  Nothing is
    attempted for a job that stays. *)
Theorem cleanup_deletes_for_evicted_only E w :
  (forall log op e, fault_at E log op = Some e -> exn_cls e = OSError) ->
  dict_wf (_jobs w) ->
  exists ops,
    fs_log (_cleanup_old_jobs E w).2 = fs_log w ++ ops
    /\ forall op, In op ops ->
         exists k j,
           dict_get k (_jobs w) = Some j
           /\ expired (cutoff_at E w) j = true
           /\ dict_get k (_jobs (_cleanup_old_jobs E w).2) = None
           /\ op_of_job E k op.
Proof.
  intros Hos Hwf. rewrite (cleanup_old_jobs_run E w Hos). cbn [snd fs_log _jobs].
  eexists. split; [reflexivity|]. intros op Hin.
  apply sweep_ops_of_jobs in Hin as (k & Hk & Hop).
  unfold evicted in Hk. apply in_map_iff in Hk as ([k0 j] & Hfst & Hin). simpl in Hfst. subst k0.
  apply filter_In in Hin as [Hin Hexp]. simpl in Hexp.
  exists k, j. split; [by apply dict_In_get|]. split; [done|]. split; [|done].
  by apply (scan_removes _ _ j).
Qed.

(** The sweep of that day: four deletions, all for job [0a]. *)
Lemma cleanup_deletes_for_evicted_only_witness :
  exists ops,
    fs_log (_cleanup_old_jobs env_sweep world_two_jobs).2 = ops
    /\ forall op, In op ops -> op_of_job env_sweep "0a" op.
Proof.
  assert (Hwf : dict_wf (_jobs world_two_jobs)).
  { unfold dict_wf. simpl. apply NoDup_cons. split; [|apply NoDup_singleton].
    apply not_elem_of_cons. split; [done|apply not_elem_of_nil]. }
  assert (Hos : forall log op e, fault_at env_sweep log op = Some e -> exn_cls e = OSError).
  { intros log [p|p] e; simpl.
    - destruct (String.eqb p _); [|done]. by intros [= <-].
    - by intros [= <-]. }
  destruct (cleanup_deletes_for_evicted_only env_sweep world_two_jobs Hos Hwf)
    as (ops & Hlog & Hops).
  exists ops. split; [exact Hlog|]. intros op Hin.
  destruct (Hops op Hin) as (k & j & Hk & Hexp & _ & Hop).
  assert (k = "0a") as ->; [|done].
  simpl in Hk. change (ref_uuid4 0) with "0a" in Hk. change (ref_uuid4 1) with "0af" in Hk.
  destruct (String.eqb k "0a") eqn:H0; [by apply String.eqb_eq|].
  destruct (String.eqb k "0af"); [|done]. injection Hk as <-. by vm_compute in Hexp.
Defined.




(** ** Reading a submission *)

Example parse_urls_examples :
  py_splitlines ("a" +:+ String "013" (String "010" "b") +:+ String "010" "") = ["a"; "b"]
  /\ py_splitlines (String "010" "") = [""]
  /\ py_strip "  a b  " = "a b"
  /\ py_split "  a  b " = ["a"; "b"]
  /\ _parse_urls ("  u1 u2" +:+ String "010" (String "010" (String "009" "u3"))) = ["u1"; "u2"; "u3"].
Proof. repeat split; reflexivity. Qed.

Lemma rev_app_append a : forall b s,
  String.rev_app a b +:+ s = String.rev_app a (b +:+ s).
Proof. induction a as [|c a IH]; intros b s; simpl; [done|]. by rewrite IH. Qed.

Lemma rev_cons_append c cur s :
  String.rev (String c cur) +:+ s = String.rev cur +:+ String c s.
Proof. unfold String.rev. simpl. by rewrite !rev_app_append. Qed.

Lemma flush_empty : flush "" = [].
Proof. reflexivity. Qed.

(** A whitespace character ends the token before it. *)
Lemma split_from_space s1 : forall cur c s2,
  py_isspace c = true ->
  split_from cur (s1 +:+ String c s2) = split_from cur s1 ++ split_from "" s2.
Proof.
  induction s1 as [|d s1 IH]; intros cur c s2 Hc; simpl.
  - by rewrite Hc.
  - destruct (py_isspace d); [by rewrite IH, app_assoc|by apply IH].
Qed.

Lemma linebreak_is_space c : py_islinebreak c = true -> py_isspace c = true.
Proof.
  unfold py_islinebreak, py_isspace. generalize (nat_of_ascii c). intros n H.
  repeat match goal with
  | |- context [(?a <=? ?b)%nat] => destruct (Nat.leb_spec a b)
  | |- context [(?a =? ?b)%nat] => destruct (Nat.eqb_spec a b)
  | H : context [(?a <=? ?b)%nat] |- _ => destruct (Nat.leb_spec a b)
  | H : context [(?a =? ?b)%nat] |- _ => destruct (Nat.eqb_spec a b)
  end; simpl in *; try done; lia.
Qed.

Lemma append_empty_r s : s +:+ "" = s.
Proof.
  induction s as [|c s IH]; [done|].
  change (String c (s +:+ "") = String c s). by rewrite IH.
Qed.

(** The lines of a text hold the tokens of the text. *)
Lemma splitlines_tokens n : forall s cur,
  (String.length s <= n)%nat ->
  concat (List.map py_split (splitlines_from cur s)) = py_split (String.rev cur +:+ s).
Proof.
  assert (Hend : forall cur,
            concat (List.map py_split (splitlines_from cur "")) = py_split (String.rev cur +:+ "")).
  { intros cur. cbn [splitlines_from]. unfold flush. rewrite append_empty_r.
    destruct (String.eqb_spec cur "") as [->|_]; [done|].
    cbn [List.map concat]. by rewrite app_nil_r. }
  induction n as [|n IH]; intros s cur Hn.
  - destruct s; [apply Hend|simpl in Hn; lia].
  - destruct s as [|c s']; [apply Hend|]. cbn [splitlines_from].
    simpl in Hn. destruct (py_islinebreak c) eqn:Hc.
    + unfold py_split at 2.
        rewrite (split_from_space _ _ _ _ (linebreak_is_space c Hc)).
        cbn [List.map concat]. f_equal.
        destruct s' as [|c' s'']; [done|].
        destruct (Ascii.eqb c "013" && Ascii.eqb c' "010") eqn:Hcrlf.
      * rewrite (IH s'' "") by (simpl in Hn; lia).
        apply andb_true_iff in Hcrlf as [_ Hlf]. apply Ascii.eqb_eq in Hlf. subst c'.
        reflexivity.
      * by rewrite (IH (String c' s'') "") by lia.
    + rewrite (IH s' (String c cur)) by lia. by rewrite rev_cons_append.
Qed.

Lemma split_lstrip s : py_split (lstrip_by py_isspace s) = py_split s.
Proof.
  induction s as [|c s IH]; [done|]. cbn [lstrip_by].
  destruct (py_isspace c) eqn:Hc; [|done].
  rewrite IH. unfold py_split. cbn [split_from]. by rewrite Hc.
Qed.

Lemma split_rstrip s : forall cur,
  split_from cur (rstrip_by py_isspace s) = split_from cur s.
Proof.
  induction s as [|c s IH]; intros cur; [done|]. cbn [rstrip_by].
  destruct (py_isspace c) eqn:Hc; cbn [andb].
  - destruct (String.eqb_spec (rstrip_by py_isspace s) "") as [He|_].
    + simpl. rewrite Hc. rewrite <- (IH ""), He. simpl. by rewrite app_nil_r.
    + simpl. rewrite Hc. by rewrite IH.
  - simpl. rewrite Hc. apply IH.
Qed.

Lemma split_strip s : py_split (py_strip s) = py_split s.
Proof. unfold py_strip, strip_by. rewrite split_lstrip. apply split_rstrip. Qed.

Lemma extend_tokens lines : forall tokens,
  fold_left
    (fun tokens line => if String.eqb line "" then tokens else tokens ++ py_split line)
    lines tokens
  = tokens ++ concat (List.map py_split lines).
Proof.
  induction lines as [|line lines IH]; intros tokens; simpl; [by rewrite app_nil_r|].
  rewrite IH. destruct (String.eqb_spec line "") as [->|_]; [done|]. by rewrite app_assoc.
Qed.

Lemma rev_app_empty a : forall b, String.rev_app a b = "" -> a = "" /\ b = "".
Proof.
  induction a as [|c a IH]; intros b H; simpl in H; [done|].
  by destruct (IH _ H) as [_ ?].
Qed.

Lemma no_space_rev_app a : forall b,
  no_space a = true -> no_space b = true -> no_space (String.rev_app a b) = true.
Proof.
  induction a as [|c a IH]; intros b Ha Hb; simpl in *; [done|].
  apply andb_true_iff in Ha as [Hc Ha]. apply IH; [done|]. simpl. by rewrite Hc.
Qed.

Lemma flush_tokens cur :
  no_space cur = true ->
  Forall (fun t => t <> "" /\ no_space t = true) (flush cur).
Proof.
  intros Hcur. unfold flush. destruct (String.eqb_spec cur "") as [->|Hne]; [done|].
  apply Forall_singleton. split.
  - intros H. by apply rev_app_empty in H as [? _].
  - by apply no_space_rev_app.
Qed.

Lemma split_tokens s : forall cur,
  no_space cur = true ->
  Forall (fun t => t <> "" /\ no_space t = true) (split_from cur s).
Proof.
  induction s as [|c s IH]; intros cur Hcur; simpl; [by apply flush_tokens|].
  destruct (py_isspace c) eqn:Hc.
  - apply Forall_app. split; [by apply flush_tokens|by apply IH].
  - apply IH. simpl. by rewrite Hc.
Qed.

(** X13.  [_parse_urls] is one split at whitespace.  For every text (of
    code points below 256) the result of [_parse_urls] -- lines, each
    stripped, empty ones skipped, each split, empty tokens filtered -- is
    the list [raw.split()]: every line boundary is whitespace, so the lines
    play no part.  In particular no token is empty and no token holds a
    whitespace character. *)
Theorem parse_urls_is_split raw :
  _parse_urls raw = py_split raw
  /\ Forall (fun t => t <> "" /\ no_space t = true) (_parse_urls raw).
Proof.
  assert (Heq : _parse_urls raw = py_split raw).
  { unfold _parse_urls. destruct (String.eqb_spec raw "") as [->|_]; [done|].
    rewrite extend_tokens. cbn [app].
    rewrite map_map. rewrite (map_ext _ py_split) by (intros l; apply split_strip).
    unfold py_splitlines. rewrite (splitlines_tokens (String.length raw)) by done.
    change (String.rev "" +:+ raw) with raw.
    pose proof (split_tokens raw "" eq_refl) as Htok. fold (py_split raw) in Htok.
    induction Htok as [|t ts [Ht _] _ IH]; [done|]. simpl.
    destruct (String.eqb_spec t "") as [->|_]; [done|]. simpl. by rewrite IH. }
  split; [done|]. rewrite Heq. by apply split_tokens.
Qed.

Lemma parse_urls_tokens raw :
  Forall (fun t => t <> "" /\ no_space t = true) (_parse_urls raw).
Proof.
  unfold _parse_urls. destruct (String.eqb raw ""); [done|].
  apply Forall_forall. intros t Hin. apply list_elem_of_In, filter_In in Hin as [Hin Hne].
  rewrite extend_tokens in Hin. cbn [app] in Hin.
  apply in_concat in Hin as (ts & Hts & Hin). apply in_map_iff in Hts as (line & <- & _).
  pose proof (split_tokens line "" eq_refl) as Htok. rewrite Forall_forall in Htok.
  apply Htok. by apply list_elem_of_In.
Qed.

(** X14.  What [api_download] accepts.  A body without a url (no [urls]
    key, or a text of whitespace only) is refused with status 400 whatever
    its format, and a body with urls and a format other than [mp3] and
    [mp4] is refused with status 400; a refusal leaves the whole state as it
    is.  Otherwise one job is created, under the next value of [uuid4]: it
    is [queued] with the format of the body ([mp3] when the body names
    none), its urls are the tokens of the text, none of them empty or with
    whitespace in it, with one queued item each; its runner is the one task
    scheduled, and no other job is touched. *)
Theorem api_download_validates E w body :
  let urls := _parse_urls (default "" (p_urls body)) in
  let fmt := default "mp3" (p_format body) in
  (urls = [] ->
     api_download body E w =
       (Raise (Exn (HTTPException 400) "Please provide at least one valid URL."), w))
  /\ (urls <> [] -> fmt <> "mp3" -> fmt <> "mp4" ->
      api_download body E w =
        (Raise (Exn (HTTPException 400) "Unsupported format. Choose mp3 or mp4."), w))
  /\ (urls <> [] -> fmt = "mp3" \/ fmt = "mp4" ->
      exists w' j,
        api_download body E w =
          (Ok (uuid4_at E (uuid4_calls w), [CallDownloadJob (uuid4_at E (uuid4_calls w))]), w')
        /\ dict_get (uuid4_at E (uuid4_calls w)) (_jobs w') = Some j
        /\ job_status j = "queued"
        /\ job_format j = fmt
        /\ job_urls j = urls
        /\ job_items j = List.map (fun url => Item url "queued" 0 None) urls
        /\ job_files j = []
        /\ Forall (fun url => url <> "" /\ no_space url = true) (job_urls j)
        /\ (forall k, k <> uuid4_at E (uuid4_calls w) ->
              dict_get k (_jobs w') = dict_get k (_jobs w))).
Proof.
  intros urls fmt. unfold api_download. fold urls fmt.
  split; [|split].
  - intros Hnil. by rewrite bool_decide_eq_true_2.
  - intros Hurls H3 H4. rewrite bool_decide_eq_false_2 by done.
    by rewrite (proj2 (String.eqb_neq _ _) H3), (proj2 (String.eqb_neq _ _) H4).
  - intros Hurls Hfmt. rewrite bool_decide_eq_false_2 by done.
    assert (Hok : negb (String.eqb fmt "mp3" || String.eqb fmt "mp4") = false).
    { destruct Hfmt as [-> | ->]; reflexivity. }
    rewrite Hok. rewrite (bind_ok _ _ _ _ _ _ (new_job_run E w urls fmt)).
    eexists _, _. split; [reflexivity|]. simpl. rewrite dict_get_set_eq.
    split; [reflexivity|]. simpl. do 5 (split; [done|]). split.
    + apply parse_urls_tokens.
    + intros k Hk. by rewrite dict_get_set_ne.
Qed.

(** ** Serving a file *)

Example safe_filename_examples :
  _safe_filename (fun s => List.map N_of_ascii (list_ascii_of_string s))
    "My Song (live).mp3" "download" = "My_Song__live_.mp3"
  /\ _safe_filename (fun s => List.map N_of_ascii (list_ascii_of_string s))
       "..--" "download" = "download"
  /\ _safe_filename (fun s => [101; 769; 116; 101; 769]%N) (String "233" (String "t" (String "233" "")))
       "download" = "ete".
Proof. repeat split; reflexivity. Qed.

Lemma sub_unsafe_safe s : str_forall is_safe_char (sub_unsafe s) = true.
Proof.
  induction s as [|c s IH]; [done|]. simpl. rewrite IH, andb_true_r.
  by destruct (is_safe_char c) eqn:Hc.
Qed.

Lemma rstrip_forall p drop s :
  str_forall p s = true -> str_forall p (rstrip_by drop s) = true.
Proof.
  induction s as [|c s IH]; [done|]. simpl. intros [Hc Hs]%andb_true_iff.
  destruct (drop c && _); [done|]. simpl. by rewrite Hc, IH.
Qed.

Lemma lstrip_forall p drop s :
  str_forall p s = true -> str_forall p (lstrip_by drop s) = true.
Proof.
  induction s as [|c s IH]; [done|]. simpl. intros [Hc Hs]%andb_true_iff.
  destruct (drop c); [by apply IH|]. simpl. by rewrite Hc, Hs.
Qed.

Lemma lstrip_first drop s c :
  str_first (lstrip_by drop s) = Some c -> drop c = false.
Proof.
  induction s as [|d s IH]; [done|]. simpl.
  destruct (drop d) eqn:Hd; [done|]. simpl. by intros [= <-].
Qed.

Lemma str_last_nonempty s : s <> "" -> is_Some (str_last s).
Proof. destruct s; [done|]. simpl. by destruct (str_last s). Qed.

Lemma rstrip_last drop s c :
  str_last (rstrip_by drop s) = Some c -> drop c = false.
Proof.
  revert c. induction s as [|d s IH]; intros c; [done|]. cbn [rstrip_by].
  destruct (drop d) eqn:Hd; cbn [andb].
  - destruct (String.eqb_spec (rstrip_by drop s) "") as [He|Hne]; [done|].
    cbn [str_last]. destruct (str_last (rstrip_by drop s)) as [l|] eqn:Hl.
    + intros [= <-]. by apply IH.
    + destruct (str_last_nonempty _ Hne) as [l Hl']. congruence.
  - cbn [str_last]. destruct (str_last (rstrip_by drop s)) as [l|] eqn:Hl.
    + intros [= <-]. by apply IH.
    + by intros [= <-].
Qed.

Lemma lstrip_last drop s :
  lstrip_by drop s <> "" -> str_last (lstrip_by drop s) = str_last s.
Proof.
  induction s as [|d s IH]; [done|]. simpl. destruct (drop d); [|done].
  intros Hne. rewrite (IH Hne).
  destruct (str_last s) as [l|] eqn:Hl; [done|].
  assert (s <> "") as Hs by (intros ->; by apply Hne).
  destruct (str_last_nonempty _ Hs) as [l Hl']. congruence.
Qed.

Lemma safe_not_dot_dash c : is_safe_char c = true -> is_dot_dash c = false -> is_alnum c = true.
Proof. unfold is_safe_char. intros H Hd. rewrite Hd, orb_false_r in H. done. Qed.

Lemma str_forall_first p s c : str_forall p s = true -> str_first s = Some c -> p c = true.
Proof. destruct s; [done|]. simpl. intros [H _]%andb_true_iff [= <-]. done. Qed.

Lemma str_forall_last p s : forall c,
  str_forall p s = true -> str_last s = Some c -> p c = true.
Proof.
  induction s as [|d s IH]; intros c; [done|]. simpl. intros [Hd Hs]%andb_true_iff.
  destruct (str_last s) as [l|]; intros [= <-]; [by apply IH|done].
Qed.

(** What is left after the strip is safe between quotes, when anything is
    left. *)
Lemma strip_header_safe s :
  str_forall is_safe_char s = true ->
  strip_by is_dot_dash s <> "" -> header_safe (strip_by is_dot_dash s).
Proof.
  intros Hs Hne. unfold strip_by in *.
  assert (Hall : str_forall is_safe_char (lstrip_by is_dot_dash (rstrip_by is_dot_dash s)) = true)
    by by apply lstrip_forall, rstrip_forall.
  split; [done|]. split.
  - destruct (lstrip_by _ _) as [|c r] eqn:Hr; [done|]. exists c. split; [done|].
    apply safe_not_dot_dash.
    + by apply (str_forall_first _ _ _ Hall).
    + apply (lstrip_first is_dot_dash (rstrip_by is_dot_dash s)). by rewrite Hr.
  - destruct (str_last_nonempty _ Hne) as [c Hc]. exists c. split; [done|].
    apply safe_not_dot_dash.
    + by apply (str_forall_last _ _ _ Hall).
    + rewrite lstrip_last in Hc by done. by apply rstrip_last in Hc.
Qed.

Lemma safe_filename_cases nfkd name fallback :
  _safe_filename nfkd name fallback = fallback
  \/ header_safe (_safe_filename nfkd name fallback).
Proof.
  unfold _safe_filename. destruct (String.eqb name ""); [by left|].
  destruct (String.eqb_spec (strip_by is_dot_dash (sub_unsafe (ascii_ignore (nfkd name)))) "")
    as [_|Hne]; [by left|].
  right. apply strip_header_safe; [apply sub_unsafe_safe|done].
Qed.

Lemma header_safe_download : header_safe "download".
Proof. split; [done|]. split; by eexists. Qed.

Lemma header_safe_no_quote s :
  header_safe s ->
  s <> "" /\ str_forall (fun c => negb (Ascii.eqb c "034" || Ascii.eqb c "013"
                                        || Ascii.eqb c "010" || Ascii.eqb c "/"
                                        || Ascii.eqb c "\")) s = true.
Proof.
  intros (Hall & (c & Hc & _) & _). split; [by destruct s|].
  clear c Hc. induction s as [|c s IH]; [done|]. simpl in *.
  apply andb_true_iff in Hall as [Hc Hs]. rewrite (IH Hs), andb_true_r.
  destruct (Ascii.eqb_spec c "034") as [->|_]; [done|].
  destruct (Ascii.eqb_spec c "013") as [->|_]; [done|].
  destruct (Ascii.eqb_spec c "010") as [->|_]; [done|].
  destruct (Ascii.eqb_spec c "/") as [->|_]; [done|].
  destruct (Ascii.eqb_spec c "\") as [->|_]; done.
Qed.

Lemma safe_filename_download nfkd name : header_safe (_safe_filename nfkd name "download").
Proof.
  destruct (safe_filename_cases nfkd name "download") as [-> | H]; [|done].
  apply header_safe_download.
Qed.

(** X15.  The name [_safe_filename] returns.  For every name, every
    fallback and whatever [unicodedata.normalize] returns, the result is
    the fallback or a name that is not empty, holds letters, digits, [.],
    [_] and [-] only, and begins and ends with a letter or a digit.  With
    the fallback of the code, [download], the result always is such a name:
    it holds no double quote, no line end, no slash and no backslash. *)
Theorem safe_filename_is_header_safe nfkd name fallback :
  (_safe_filename nfkd name fallback = fallback
   \/ header_safe (_safe_filename nfkd name fallback))
  /\ header_safe (_safe_filename nfkd name "download")
  /\ _safe_filename nfkd name "download" <> ""
  /\ str_forall (fun c => negb (Ascii.eqb c "034" || Ascii.eqb c "013"
                                || Ascii.eqb c "010" || Ascii.eqb c "/"
                                || Ascii.eqb c "\"))
       (_safe_filename nfkd name "download") = true.
Proof.
  split; [apply safe_filename_cases|].
  pose proof (safe_filename_download nfkd name) as Hsafe.
  split; [done|]. by apply header_safe_no_quote.
Qed.

(** X16.  What [api_files] serves.  The request never changes the state.
    It is answered with a file exactly when the job is in the table, the
    index is within [0 <= file_index < len(files)] and the file of that
    index exists; the response then is that path, under a name that is safe
    between the quotes of its header.  Every other request is answered
    with status 404: an unknown job, an index outside the list -- a
    negative index is refused, it does not count from the end -- and a file
    that is gone. *)
Theorem api_files_serves_listed_file nfkd E w job_id file_index :
  (dict_get job_id (_jobs w) = None ->
     api_files nfkd job_id file_index E w =
       (Raise (Exn (HTTPException 404) "Job not found."), w))
  /\ (forall j,
        dict_get job_id (_jobs w) = Some j ->
        file_index < 0 \/ Z.of_nat (length (job_files j)) <= file_index ->
        api_files nfkd job_id file_index E w =
          (Raise (Exn (HTTPException 404) "File not found."), w))
  /\ (forall j file_path,
        dict_get job_id (_jobs w) = Some j ->
        0 <= file_index ->
        job_files j !! Z.to_nat file_index = Some file_path ->
        (exists_at E (fs_log w) file_path = false ->
           api_files nfkd job_id file_index E w =
             (Raise (Exn (HTTPException 404) "File not found."), w))
        /\ (exists_at E (fs_log w) file_path = true ->
            exists name,
              api_files nfkd job_id file_index E w =
                (Ok (FileResponse file_path name "application/octet-stream"
                       ("attachment; filename=" +:+ dquote +:+ name +:+ dquote)), w)
              /\ name = _safe_filename nfkd (path_name file_path) "download"
              /\ header_safe name)).
Proof.
  split; [|split].
  - intros Hj. unfold api_files.
    by rewrite (bind_ok (jobs_get job_id) _ E w None w) by (unfold jobs_get; by rewrite Hj).
  - intros j Hj Hout. unfold api_files.
    rewrite (bind_ok (jobs_get job_id) _ E w (Some j) w) by (unfold jobs_get; by rewrite Hj).
    rewrite decide_True by lia. done.
  - intros j file_path Hj H0 Hfile.
    assert (Hlt : file_index < Z.of_nat (length (job_files j))).
    { apply lookup_lt_Some in Hfile. lia. }
    assert (Hrun : api_files nfkd job_id file_index E w =
              (here ← path_exists file_path;
               if negb here then raise (Exn (HTTPException 404) "File not found.")
               else
                 let name := _safe_filename nfkd (path_name file_path) "download" in
                 mret (FileResponse file_path name "application/octet-stream"
                         ("attachment; filename=" +:+ dquote +:+ name +:+ dquote))) E w).
    { unfold api_files.
      rewrite (bind_ok (jobs_get job_id) _ E w (Some j) w) by (unfold jobs_get; by rewrite Hj).
      rewrite decide_False by lia. rewrite py_index_in_range by lia. simpl. by rewrite Hfile. }
    rewrite Hrun. rewrite (bind_ok (path_exists file_path) _ E w _ w eq_refl).
    split; intros Hex; rewrite Hex; [done|].
    exists (_safe_filename nfkd (path_name file_path) "download").
    split; [reflexivity|]. split; [done|].
    apply safe_filename_download.
Qed.

(** ** The archive of a job *)

Lemma disk_exists_set p q c (d : disk) :
  disk_exists p (dict_set q c d) = disk_exists p d || String.eqb p q.
Proof.
  unfold disk_exists. destruct (String.eqb_spec p q) as [->|Hne].
  - rewrite dict_get_set_eq, orb_true_r. by apply bool_decide_eq_true_2.
  - rewrite dict_get_set_ne by done. by rewrite orb_false_r.
Qed.

(** The loop appends to the archive and leaves the rest of the disk. *)
Lemma zip_write_run zip_path files : forall (d : disk) entries,
  dict_get zip_path d = Some (Archive entries) ->
  zip_write zip_path files d =
    dict_set zip_path
      (Archive (entries ++ List.map (fun f => (path_name f, f))
                             (List.filter (fun f => disk_exists f d) files))) d.
Proof.
  induction files as [|f files IH]; intros d entries Hz.
  - simpl. rewrite app_nil_r. symmetry. by apply dict_set_same.
  - cbn [zip_write List.filter]. destruct (disk_exists f d) eqn:Hf.
    + unfold archive_add. rewrite Hz.
      rewrite (IH _ (entries ++ [(path_name f, f)])) by apply dict_get_set_eq.
      rewrite dict_set_set. cbn [List.map]. rewrite <- app_assoc. cbn [app].
      rewrite (filter_ext (fun g => disk_exists g (dict_set zip_path _ d))
                 (fun g => disk_exists g d)); [done|].
      intros g. rewrite disk_exists_set. unfold disk_exists.
      destruct (String.eqb_spec g zip_path) as [->|_]; [|by rewrite orb_false_r].
      rewrite Hz, orb_true_r. symmetry. by apply bool_decide_eq_true_2.
    + by apply IH.
Qed.

Lemma build_zip_fresh E job_id files (d : disk) :
  disk_exists (path_join (DATA_DIR E) (job_id +:+ ".zip")) d = false ->
  _build_zip E job_id files d =
    (path_join (DATA_DIR E) (job_id +:+ ".zip"),
     dict_set (path_join (DATA_DIR E) (job_id +:+ ".zip"))
       (Archive (zip_entries (path_join (DATA_DIR E) (job_id +:+ ".zip")) files d)) d).
Proof.
  intros Hno. unfold _build_zip. rewrite Hno.
  rewrite (zip_write_run _ _ _ []) by apply dict_get_set_eq.
  rewrite dict_set_set. cbn [app]. unfold zip_entries.
  rewrite (filter_ext (fun g => disk_exists g (dict_set _ _ d))
             (fun f => disk_exists f d || String.eqb f (path_join (DATA_DIR E) (job_id +:+ ".zip"))));
    [done|].
  intros g. apply disk_exists_set.
Qed.

(** X17.  The archive is built once.  [api_zip] answers 404 for a job
    that is not in the table, 400 for a job that is not finished and 404
    for a finished job without files, in this order, and leaves the disk
    alone in these cases.  For a finished job with files it answers with
    the archive [<id>.zip] of the data directory and never with "Zip file
    not found".  When the archive exists already it is served as it
    is and the disk does not change, so a second request changes nothing;
    when it does not exist it is created with one entry for each file of
    the job that exists, in the order of [files], under the file's base
    name, and no other path of the disk changes. *)
Theorem api_zip_builds_once E jobs job_id (d : disk) :
  let zip_path := path_join (DATA_DIR E) (job_id +:+ ".zip") in
  (dict_get job_id jobs = None ->
     api_zip E jobs job_id d = (Raise (Exn (HTTPException 404) "Job not found."), d))
  /\ (forall j,
        dict_get job_id jobs = Some j -> job_status j <> "finished" ->
        api_zip E jobs job_id d = (Raise (Exn (HTTPException 400) "Job not finished yet."), d))
  /\ (forall j,
        dict_get job_id jobs = Some j -> job_status j = "finished" -> job_files j = [] ->
        api_zip E jobs job_id d = (Raise (Exn (HTTPException 404) "No files to zip."), d))
  /\ (forall j,
        dict_get job_id jobs = Some j -> job_status j = "finished" -> job_files j <> [] ->
        exists d',
          api_zip E jobs job_id d =
            (Ok (FileResponse zip_path (job_id +:+ ".zip") "application/zip"
                   ("attachment; filename=" +:+ dquote +:+ job_id +:+ ".zip" +:+ dquote)), d')
          /\ disk_exists zip_path d' = true
          /\ (disk_exists zip_path d = true -> d' = d)
          /\ (disk_exists zip_path d = false ->
              dict_get zip_path d' = Some (Archive (zip_entries zip_path (job_files j) d)))
          /\ (forall p, p <> zip_path -> dict_get p d' = dict_get p d)
          /\ api_zip E jobs job_id d' = api_zip E jobs job_id d).
Proof.
  intros zip_path. split; [|split; [|split]].
  - intros Hj. unfold api_zip. by rewrite Hj.
  - intros j Hj Hst. unfold api_zip. rewrite Hj.
    by rewrite (proj2 (String.eqb_neq _ _) Hst).
  - intros j Hj Hst Hfiles. unfold api_zip. rewrite Hj, Hst, Hfiles. done.
  - intros j Hj Hst Hfiles.
    assert (Hrun : forall d0, api_zip E jobs job_id d0 =
              let (zp, d1) := _build_zip E job_id (job_files j) d0 in
              if negb (disk_exists zp d1) then
                (Raise (Exn (HTTPException 404) "Zip file not found."), d1)
              else
                (Ok (FileResponse zp (job_id +:+ ".zip") "application/zip"
                       ("attachment; filename=" +:+ dquote +:+ job_id +:+ ".zip" +:+ dquote)),
                 d1)).
    { intros d0. unfold api_zip. rewrite Hj, Hst, String.eqb_refl. cbn [negb].
      by rewrite bool_decide_eq_false_2. }
    assert (Hold : forall d0, disk_exists zip_path d0 = true ->
              api_zip E jobs job_id d0 =
                (Ok (FileResponse zip_path (job_id +:+ ".zip") "application/zip"
                       ("attachment; filename=" +:+ dquote +:+ job_id +:+ ".zip" +:+ dquote)),
                 d0)).
    { intros d0 Hex. rewrite Hrun. unfold _build_zip. fold zip_path. by rewrite Hex, Hex. }
    destruct (disk_exists zip_path d) eqn:Hex.
    + exists d. split; [by apply Hold|]. split; [done|]. split; [done|].
      split; [done|]. split; [done|]. done.
    + set (d' := dict_set zip_path (Archive (zip_entries zip_path (job_files j) d)) d).
      assert (Hex' : disk_exists zip_path d' = true).
      { unfold d'. rewrite disk_exists_set, String.eqb_refl. apply orb_true_r. }
      assert (Hnew : api_zip E jobs job_id d =
                (Ok (FileResponse zip_path (job_id +:+ ".zip") "application/zip"
                       ("attachment; filename=" +:+ dquote +:+ job_id +:+ ".zip" +:+ dquote)),
                 d')).
      { rewrite Hrun, (build_zip_fresh E job_id _ d Hex). fold zip_path d'. by rewrite Hex'. }
      exists d'. split; [done|]. split; [done|]. split; [done|].
      split; [intros _; apply dict_get_set_eq|].
      split; [intros p Hp; by apply dict_get_set_ne|].
      by rewrite Hnew, (Hold d' Hex').
Qed.

(** ** The cookie file *)

Lemma dict_pop_absent {V} k (d : dict V) : dict_get k d = None -> dict_pop k d = d.
Proof.
  induction d as [|[k' v] d IH]; [done|]. simpl.
  destruct (String.eqb k k'); [done|]. intros Hd. simpl. by rewrite IH.
Qed.

Lemma dict_pop_set_fresh {V} k (v : V) d :
  dict_get k d = None -> dict_pop k (dict_set k v d) = d.
Proof.
  induction d as [|[k' v'] d IH]; simpl.
  - by rewrite String.eqb_refl.
  - destruct (String.eqb k k') eqn:Hk; [done|]. intros Hd. simpl.
    rewrite Hk. simpl. by rewrite IH.
Qed.

(** X18.  The cookie file of a download.  When [YTDLP_COOKIES_FILE] is
    set, [download_media] creates no file and removes none: the user's file
    stays.  When only [YTDLP_COOKIES_TEXT] is set, a temporary file is made
    for the call and, unless [os.remove] fails, it is gone when the call is
    over, whether the download returned or raised: the text files are as
    before the call.  When neither is set no file is touched. *)
Theorem cookie_file_does_not_outlive_the_call C video_urls mode hook E w fs :
  let out := download_media_with_cookies C video_urls mode hook E (w, fs) in
  (str_truthy (YTDLP_COOKIES_FILE C) = true -> out.2.2 = fs)
  /\ (str_truthy (YTDLP_COOKIES_FILE C) = false ->
      str_truthy (YTDLP_COOKIES_TEXT C) = false -> out.2.2 = fs)
  /\ (str_truthy (YTDLP_COOKIES_FILE C) = false ->
      str_truthy (YTDLP_COOKIES_TEXT C) = true ->
      tmp_name_at C (tmp_calls fs) <> "" ->
      dict_get (tmp_name_at C (tmp_calls fs)) (text_files fs) = None ->
      remove_fails C (tmp_name_at C (tmp_calls fs)) = false ->
      text_files out.2.2 = text_files fs /\ tmp_calls out.2.2 = S (tmp_calls fs)).
Proof.
  intros out. unfold out, download_media_with_cookies, _get_cookies_file. cbn [fst snd].
  destruct (download_media video_urls mode hook E w) as [r w'] eqn:Hrun.
  destruct (str_truthy (YTDLP_COOKIES_FILE C)) eqn:Hfile.
  - cbn [fst snd]. split; [|split; done].
    intros _. unfold _cleanup_cookies_file. by rewrite Hfile.
  - destruct (str_truthy (YTDLP_COOKIES_TEXT C)) eqn:Htext; cbn [negb fst snd].
    + split; [done|]. split; [done|].
      intros _ _ Hname Hfresh Hrm.
      unfold _cleanup_cookies_file, remove_pass. cbn [str_truthy default].
      rewrite (proj2 (String.eqb_neq _ _) Hname). cbn [negb]. unfold id. rewrite Hfile, Hrm.
      cbn [text_files tmp_calls]. by rewrite dict_pop_set_fresh.
    + split; [done|]. split; [|done]. done.
Qed.
